(** * USB Type-C HAL (hal/Usb.cpp): role switching, port status, uevents

    A shallow embedding of the role-switch coordinator, the port status
    aggregator and the two uevent handlers of [hal/Usb.cpp], together with
    the properties of the specification that concern them.

    The service talks to the kernel through sysfs files, to the pthread
    runtime through three mutexes and one condition variable, and to its
    client through a callback.  Every such interaction is recorded as an
    [event] in a trace; what the outside world answers is given by an
    oracle over the trace so far, so that no assumption is made on how
    sysfs reacts to what is written to it.

    The embedding also covers the two contaminant calls, the autosuspend
    helpers and the two probes of the platform that [setCallback] runs;
    the last part of the file proves further properties of the code. *)

From Stdlib Require Import ZArith Ascii String Bool Lia.
From stdpp Require Import base option list gmap strings.

Local Open Scope Z_scope.

(** ** Strings as the C++ code uses them *)

Module Str.

(** [std::string::find] of a single character; [None] is [npos]. *)
Fixpoint find_char (c : ascii) (s : string) : option nat :=
  match s with
  | EmptyString => None
  | String a s' =>
      if Ascii.eqb a c then Some O
      else match find_char c s' with
           | Some n => Some (S n)
           | None => None
           end
  end.

(** [strncmp(s, p, strlen p) == 0]. *)
Fixpoint starts_with (p s : string) : bool :=
  match p, s with
  | EmptyString, _ => true
  | String a p', String b s' => Ascii.eqb a b && starts_with p' s'
  | String _ _, EmptyString => false
  end.

(** [std::string::find] of a string, by scanning the positions in turn. *)
Fixpoint find (p s : string) : option nat :=
  if starts_with p s then Some O
  else match s with
       | EmptyString => None
       | String _ s' =>
           match find p s' with
           | Some n => Some (S n)
           | None => None
           end
       end.

Fixpoint drop (n : nat) (s : string) : string :=
  match n, s with
  | O, _ => s
  | S n', String _ s' => drop n' s'
  | S _, EmptyString => EmptyString
  end.

(** [strncmp(s + strlen s - strlen p, p, strlen p) == 0], for a string
    that is at least as long as [p]. *)
Definition ends_with (p s : string) : bool :=
  (String.length p <=? String.length s)%nat &&
  String.eqb (drop (String.length s - String.length p) s) p.

(** [size_t] is 64 bits wide on the targets of this service. *)
Definition SIZE_WIDTH : Z := 64.
Definition size_t (z : Z) : Z := z mod 2 ^ SIZE_WIDTH.

(** [s.substr(pos, count)] for [pos <= s.size()]: the characters from
    [pos] on, at most [count] of them and at most what is left. *)
Definition substr (pos count : Z) (s : string) : string :=
  let len := Z.of_nat (String.length s) in
  String.substring (Z.to_nat pos) (Z.to_nat (Z.min count (len - pos))) s.

(** [s[0]]; the terminating NUL for the empty string. *)
Definition front (s : string) : ascii :=
  match s with
  | EmptyString => Ascii.zero
  | String a _ => a
  end.

(** [std::string(s.c_str())]: the characters of [s] before its first
    NUL. *)
Fixpoint c_str (s : string) : string :=
  match s with
  | EmptyString => EmptyString
  | String a s' => if Ascii.eqb a Ascii.zero then EmptyString else String a (c_str s')
  end.

(** [isspace] of the C locale. *)
Definition isspace (a : ascii) : bool :=
  let n := N_of_ascii a in
  ((9 <=? n) && (n <=? 13) || (n =? 32))%N.

Fixpoint ltrim (s : string) : string :=
  match s with
  | EmptyString => EmptyString
  | String a s' => if isspace a then ltrim s' else s
  end.

Fixpoint rtrim (s : string) : string :=
  match s with
  | EmptyString => EmptyString
  | String a s' =>
      match rtrim s' with
      | EmptyString => if isspace a then EmptyString else String a EmptyString
      | r => String a r
      end
  end.

(** [android::base::Trim]. *)
Definition Trim (s : string) : string := rtrim (ltrim s).

End Str.

(** ** The HIDL types of android.hardware.usb *)

(** [enum PortRoleType : uint32_t]; [PortRoleType_other] stands for a
    value of the underlying type that is none of the three enumerators. *)
Inductive PortRoleType :=
| DATA_ROLE
| POWER_ROLE
| MODE
| PortRoleType_other (raw : Z).

Inductive Status := SUCCESS | ERROR | INVALID_ARGUMENT | UNRECOGNIZED_ROLE.

Global Instance PortRoleType_eq_dec : EqDecision PortRoleType.
Proof. solve_decision. Defined.
Global Instance Status_eq_dec : EqDecision Status.
Proof. solve_decision. Defined.

(** [struct PortRole { PortRoleType type; uint32_t role; }]. *)
Record PortRole := { type : PortRoleType; role : Z }.

(** The numeric values of the role enumerators come from the HIDL
    interface headers, which are not part of this repository: they are
    taken as they come. [static_cast<uint32_t>(E)] of an enumerator [E] is
    the field of that name. *)
Class RoleCodes := {
  PortPowerRole_NONE : Z;
  PortPowerRole_SOURCE : Z;
  PortPowerRole_SINK : Z;
  PortDataRole_NONE : Z;
  PortDataRole_HOST : Z;
  PortDataRole_DEVICE : Z;
  PortMode_NONE : Z;
  PortMode_DFP : Z;
  PortMode_1_1_NONE : Z;
  PortMode_1_1_UFP : Z;
  PortMode_1_1_DFP : Z;
  PortMode_1_1_DRP : Z;
  PortMode_1_1_AUDIO_ACCESSORY : Z;
  PortMode_1_1_DEBUG_ACCESSORY : Z;
  ContaminantProtectionMode_NONE : Z;
  ContaminantProtectionMode_FORCE_SINK : Z;
  ContaminantProtectionMode_FORCE_DISABLE : Z;
}.

Inductive ContaminantProtectionStatus :=
| ContaminantProtectionStatus_NONE
| ContaminantProtectionStatus_FORCE_SINK
| ContaminantProtectionStatus_FORCE_SOURCE
| ContaminantProtectionStatus_FORCE_DISABLE
| ContaminantProtectionStatus_DISABLED.

Inductive ContaminantDetectionStatus :=
| NOT_SUPPORTED
| DISABLED
| NOT_DETECTED
| DETECTED.

(** [V1_0::PortStatus]. *)
Record PortStatus_1_0 := {
  portName : string;
  currentDataRole : Z;
  currentPowerRole : Z;
  currentMode : Z;
  canChangeMode : bool;
  canChangeDataRole : bool;
  canChangePowerRole : bool;
  supportedModes : Z;
}.

(** [V1_1::PortStatus_1_1]. *)
Record PortStatus_1_1 := {
  status : PortStatus_1_0;
  supportedModes_1_1 : Z;
  currentMode_1_1 : Z;
}.

(** [V1_2::PortStatus]. *)
Record PortStatus := {
  status_1_1 : PortStatus_1_1;
  supportedContaminantProtectionModes : Z;
  supportsEnableContaminantPresenceProtection : bool;
  contaminantProtectionStatus : ContaminantProtectionStatus;
  supportsEnableContaminantPresenceDetection : bool;
  contaminantDetectionStatus : ContaminantDetectionStatus;
}.

(** What [hidl_vec::resize] puts in a new element: the value-initialised
    structure. *)
Definition PortStatus_1_0_zero : PortStatus_1_0 :=
  {| portName := ""; currentDataRole := 0; currentPowerRole := 0; currentMode := 0;
     canChangeMode := false; canChangeDataRole := false; canChangePowerRole := false;
     supportedModes := 0 |}.

Definition PortStatus_1_1_zero : PortStatus_1_1 :=
  {| status := PortStatus_1_0_zero; supportedModes_1_1 := 0; currentMode_1_1 := 0 |}.

Definition PortStatus_zero : PortStatus :=
  {| status_1_1 := PortStatus_1_1_zero;
     supportedContaminantProtectionModes := 0;
     supportsEnableContaminantPresenceProtection := false;
     contaminantProtectionStatus := ContaminantProtectionStatus_NONE;
     supportsEnableContaminantPresenceDetection := false;
     contaminantDetectionStatus := NOT_SUPPORTED |}.

(** Field updates: [s.status_1_1.status.f = v], [s.status_1_1.f = v] and
    [s.f = v] for a [V1_2::PortStatus] [s]. *)
Definition upd_status_1_1 (f : PortStatus_1_1 -> PortStatus_1_1) (s : PortStatus) : PortStatus :=
  {| status_1_1 := f (status_1_1 s);
     supportedContaminantProtectionModes := supportedContaminantProtectionModes s;
     supportsEnableContaminantPresenceProtection := supportsEnableContaminantPresenceProtection s;
     contaminantProtectionStatus := contaminantProtectionStatus s;
     supportsEnableContaminantPresenceDetection := supportsEnableContaminantPresenceDetection s;
     contaminantDetectionStatus := contaminantDetectionStatus s |}.

Definition upd_status (f : PortStatus_1_0 -> PortStatus_1_0) (s : PortStatus) : PortStatus :=
  upd_status_1_1 (fun s11 => {| status := f (status s11);
                                supportedModes_1_1 := supportedModes_1_1 s11;
                                currentMode_1_1 := currentMode_1_1 s11 |}) s.

Definition set_portName (v : string) : PortStatus -> PortStatus :=
  upd_status (fun x =>
    {| portName := v; currentDataRole := currentDataRole x;
       currentPowerRole := currentPowerRole x; currentMode := currentMode x;
       canChangeMode := canChangeMode x;
       canChangeDataRole := canChangeDataRole x;
       canChangePowerRole := canChangePowerRole x;
       supportedModes := supportedModes x |}).

Definition set_currentDataRole (v : Z) : PortStatus -> PortStatus :=
  upd_status (fun x =>
    {| portName := portName x; currentDataRole := v;
       currentPowerRole := currentPowerRole x; currentMode := currentMode x;
       canChangeMode := canChangeMode x;
       canChangeDataRole := canChangeDataRole x;
       canChangePowerRole := canChangePowerRole x;
       supportedModes := supportedModes x |}).

Definition set_currentPowerRole (v : Z) : PortStatus -> PortStatus :=
  upd_status (fun x =>
    {| portName := portName x; currentDataRole := currentDataRole x;
       currentPowerRole := v; currentMode := currentMode x;
       canChangeMode := canChangeMode x;
       canChangeDataRole := canChangeDataRole x;
       canChangePowerRole := canChangePowerRole x;
       supportedModes := supportedModes x |}).

Definition set_currentMode (v : Z) : PortStatus -> PortStatus :=
  upd_status (fun x =>
    {| portName := portName x; currentDataRole := currentDataRole x;
       currentPowerRole := currentPowerRole x; currentMode := v;
       canChangeMode := canChangeMode x;
       canChangeDataRole := canChangeDataRole x;
       canChangePowerRole := canChangePowerRole x;
       supportedModes := supportedModes x |}).

Definition set_canChangeMode (v : bool) : PortStatus -> PortStatus :=
  upd_status (fun x =>
    {| portName := portName x; currentDataRole := currentDataRole x;
       currentPowerRole := currentPowerRole x; currentMode := currentMode x;
       canChangeMode := v; canChangeDataRole := canChangeDataRole x;
       canChangePowerRole := canChangePowerRole x;
       supportedModes := supportedModes x |}).

Definition set_canChangeDataRole (v : bool) : PortStatus -> PortStatus :=
  upd_status (fun x =>
    {| portName := portName x; currentDataRole := currentDataRole x;
       currentPowerRole := currentPowerRole x; currentMode := currentMode x;
       canChangeMode := canChangeMode x; canChangeDataRole := v;
       canChangePowerRole := canChangePowerRole x;
       supportedModes := supportedModes x |}).

Definition set_canChangePowerRole (v : bool) : PortStatus -> PortStatus :=
  upd_status (fun x =>
    {| portName := portName x; currentDataRole := currentDataRole x;
       currentPowerRole := currentPowerRole x; currentMode := currentMode x;
       canChangeMode := canChangeMode x;
       canChangeDataRole := canChangeDataRole x; canChangePowerRole := v;
       supportedModes := supportedModes x |}).

Definition set_supportedModes (v : Z) : PortStatus -> PortStatus :=
  upd_status (fun x =>
    {| portName := portName x; currentDataRole := currentDataRole x;
       currentPowerRole := currentPowerRole x; currentMode := currentMode x;
       canChangeMode := canChangeMode x;
       canChangeDataRole := canChangeDataRole x;
       canChangePowerRole := canChangePowerRole x; supportedModes := v |}).

Definition set_supportedModes_1_1 (v : Z) : PortStatus -> PortStatus :=
  upd_status_1_1 (fun x =>
    {| status := status x; supportedModes_1_1 := v;
       currentMode_1_1 := currentMode_1_1 x |}).

Definition set_currentMode_1_1 (v : Z) : PortStatus -> PortStatus :=
  upd_status_1_1 (fun x =>
    {| status := status x; supportedModes_1_1 := supportedModes_1_1 x;
       currentMode_1_1 := v |}).

Definition set_supportedContaminantProtectionModes (v : Z) (s : PortStatus) : PortStatus :=
  {| status_1_1 := status_1_1 s; supportedContaminantProtectionModes := v;
     supportsEnableContaminantPresenceProtection := supportsEnableContaminantPresenceProtection s;
     contaminantProtectionStatus := contaminantProtectionStatus s;
     supportsEnableContaminantPresenceDetection := supportsEnableContaminantPresenceDetection s;
     contaminantDetectionStatus := contaminantDetectionStatus s |}.

Definition set_supportsEnableContaminantPresenceProtection (v : bool) (s : PortStatus) : PortStatus :=
  {| status_1_1 := status_1_1 s;
     supportedContaminantProtectionModes := supportedContaminantProtectionModes s;
     supportsEnableContaminantPresenceProtection := v;
     contaminantProtectionStatus := contaminantProtectionStatus s;
     supportsEnableContaminantPresenceDetection := supportsEnableContaminantPresenceDetection s;
     contaminantDetectionStatus := contaminantDetectionStatus s |}.

Definition set_contaminantProtectionStatus (v : ContaminantProtectionStatus) (s : PortStatus) : PortStatus :=
  {| status_1_1 := status_1_1 s;
     supportedContaminantProtectionModes := supportedContaminantProtectionModes s;
     supportsEnableContaminantPresenceProtection := supportsEnableContaminantPresenceProtection s;
     contaminantProtectionStatus := v;
     supportsEnableContaminantPresenceDetection := supportsEnableContaminantPresenceDetection s;
     contaminantDetectionStatus := contaminantDetectionStatus s |}.

Definition set_supportsEnableContaminantPresenceDetection (v : bool) (s : PortStatus) : PortStatus :=
  {| status_1_1 := status_1_1 s;
     supportedContaminantProtectionModes := supportedContaminantProtectionModes s;
     supportsEnableContaminantPresenceProtection := supportsEnableContaminantPresenceProtection s;
     contaminantProtectionStatus := contaminantProtectionStatus s;
     supportsEnableContaminantPresenceDetection := v;
     contaminantDetectionStatus := contaminantDetectionStatus s |}.

Definition set_contaminantDetectionStatus (v : ContaminantDetectionStatus) (s : PortStatus) : PortStatus :=
  {| status_1_1 := status_1_1 s;
     supportedContaminantProtectionModes := supportedContaminantProtectionModes s;
     supportsEnableContaminantPresenceProtection := supportsEnableContaminantPresenceProtection s;
     contaminantProtectionStatus := contaminantProtectionStatus s;
     supportsEnableContaminantPresenceDetection := supportsEnableContaminantPresenceDetection s;
     contaminantDetectionStatus := v |}.

(** ** Time, locks and the trace *)

Record timespec := { tv_sec : Z; tv_nsec : Z }.

(** Comparison of two normalised [timespec]s. *)
Definition ts_ltb (a b : timespec) : bool :=
  (tv_sec a <? tv_sec b) || ((tv_sec a =? tv_sec b) && (tv_nsec a <? tv_nsec b)).

Definition ts_max (a b : timespec) : timespec := if ts_ltb a b then b else a.

(** The three mutexes of [class Usb]. *)
Inductive mutex := mLock | mRoleSwitchLock | mPartnerLock.

Global Instance mutex_eq_dec : EqDecision mutex.
Proof. solve_decision. Defined.

(** Which interface version the registered callback implements: the
    outcome of the two [castFrom] calls. *)
Inductive callback := Callback_V1_0 | Callback_V1_1 | Callback_V1_2.

Inductive d_type := DT_LNK | DT_DIR | DT_REG | DT_UNKNOWN.

Record dirent := { d_name : string; d_kind : d_type }.

Inductive event :=
| EvAccess (path : string) (ok : bool)
| EvWrite (content path : string) (ok : bool)
| EvRead (path : string) (res : option string)
| EvOpendir (path : string) (res : option (list dirent))
| EvLock (m : mutex)
| EvUnlock (m : mutex)
| EvTrylock (m : mutex) (ok : bool)
| EvStorePartnerUp (b : bool)
| EvSignal
| EvTimedWait (to : timespec) (timedout : bool)
| EvNotifyRoleSwitchStatus (port : string) (newRole : PortRole) (st : Status)
| EvNotifyPortStatusChange (ports : list PortStatus_1_0) (st : Status)
| EvNotifyPortStatusChange_1_1 (ports : list PortStatus_1_1) (st : Status)
| EvNotifyPortStatusChange_1_2 (ports : list PortStatus) (st : Status)
| EvAccessR (path : string) (ok : bool)
| EvStoreCallback (cb : option callback)
| EvStoreDestroyThread (b : bool)
| EvSignalHandler
| EvPthreadCreate (ok : bool)
| EvPthreadKill (ok : bool)
| EvPthreadJoin.

(** What the kernel and the other threads answer, given everything the
    service has done so far. *)
Record World := {
  w_access : list event -> string -> bool;
  w_write : list event -> string -> string -> bool;
  w_read : list event -> string -> option string;
  w_opendir : list event -> string -> option (list dirent);
  w_trylock : list event -> mutex -> bool;
  w_readable : list event -> string -> bool;
  w_pthread_create : list event -> bool;
  w_pthread_kill : list event -> bool;
}.

(** One return of [pthread_cond_timedwait] before its deadline: when it
    happens, and whether the monitor thread has run the critical section
    of its partner-added handler since the wait began ([false] for a
    spurious wake-up). *)
Record wake := { wk_time : timespec; wk_partner : bool }.

(** The members of [class Usb] that the modelled code touches. *)
Record Usb := {
  mPartnerUp : bool;
  mContaminantPresence : bool;
  mContaminantStatusPath : string;
  mCallback_1_0 : option callback;
  mPowerOpMode : string;
  mMaxPower : string;
  mAttributes : string;
  mIgnoreWakeup : bool;
}.

Record State := {
  usb : Usb;
  clock : timespec;        (* CLOCK_MONOTONIC *)
  wakes : list wake;       (* the wake-ups of mPartnerCV still to come *)
  trace : list event;      (* oldest first *)
}.

Definition set_mPartnerUp (b : bool) (u : Usb) : Usb :=
  {| mPartnerUp := b;
     mContaminantPresence := mContaminantPresence u;
     mContaminantStatusPath := mContaminantStatusPath u;
     mCallback_1_0 := mCallback_1_0 u;
     mPowerOpMode := mPowerOpMode u;
     mMaxPower := mMaxPower u;
     mAttributes := mAttributes u;
     mIgnoreWakeup := mIgnoreWakeup u |}.

Definition set_mContaminantPresence (b : bool) (u : Usb) : Usb :=
  {| mPartnerUp := mPartnerUp u;
     mContaminantPresence := b;
     mContaminantStatusPath := mContaminantStatusPath u;
     mCallback_1_0 := mCallback_1_0 u;
     mPowerOpMode := mPowerOpMode u;
     mMaxPower := mMaxPower u;
     mAttributes := mAttributes u;
     mIgnoreWakeup := mIgnoreWakeup u |}.

Definition set_mPowerOpMode (s : string) (u : Usb) : Usb :=
  {| mPartnerUp := mPartnerUp u;
     mContaminantPresence := mContaminantPresence u;
     mContaminantStatusPath := mContaminantStatusPath u;
     mCallback_1_0 := mCallback_1_0 u;
     mPowerOpMode := s;
     mMaxPower := mMaxPower u;
     mAttributes := mAttributes u;
     mIgnoreWakeup := mIgnoreWakeup u |}.

Definition set_mMaxPower (s : string) (u : Usb) : Usb :=
  {| mPartnerUp := mPartnerUp u;
     mContaminantPresence := mContaminantPresence u;
     mContaminantStatusPath := mContaminantStatusPath u;
     mCallback_1_0 := mCallback_1_0 u;
     mPowerOpMode := mPowerOpMode u;
     mMaxPower := s;
     mAttributes := mAttributes u;
     mIgnoreWakeup := mIgnoreWakeup u |}.

Definition set_mAttributes (s : string) (u : Usb) : Usb :=
  {| mPartnerUp := mPartnerUp u;
     mContaminantPresence := mContaminantPresence u;
     mContaminantStatusPath := mContaminantStatusPath u;
     mCallback_1_0 := mCallback_1_0 u;
     mPowerOpMode := mPowerOpMode u;
     mMaxPower := mMaxPower u;
     mAttributes := s;
     mIgnoreWakeup := mIgnoreWakeup u |}.

Definition set_mCallback_1_0 (cb : option callback) (u : Usb) : Usb :=
  {| mPartnerUp := mPartnerUp u;
     mContaminantPresence := mContaminantPresence u;
     mContaminantStatusPath := mContaminantStatusPath u;
     mCallback_1_0 := cb;
     mPowerOpMode := mPowerOpMode u;
     mMaxPower := mMaxPower u;
     mAttributes := mAttributes u;
     mIgnoreWakeup := mIgnoreWakeup u |}.

Definition set_mContaminantStatusPath (s : string) (u : Usb) : Usb :=
  {| mPartnerUp := mPartnerUp u;
     mContaminantPresence := mContaminantPresence u;
     mContaminantStatusPath := s;
     mCallback_1_0 := mCallback_1_0 u;
     mPowerOpMode := mPowerOpMode u;
     mMaxPower := mMaxPower u;
     mAttributes := mAttributes u;
     mIgnoreWakeup := mIgnoreWakeup u |}.

Definition set_mIgnoreWakeup (b : bool) (u : Usb) : Usb :=
  {| mPartnerUp := mPartnerUp u;
     mContaminantPresence := mContaminantPresence u;
     mContaminantStatusPath := mContaminantStatusPath u;
     mCallback_1_0 := mCallback_1_0 u;
     mPowerOpMode := mPowerOpMode u;
     mMaxPower := mMaxPower u;
     mAttributes := mAttributes u;
     mIgnoreWakeup := b |}.

(** ** The monad of the service: state passing over [State] *)

Definition M (A : Type) : Type := State -> A * State.

Definition ret {A} (x : A) : M A := fun st => (x, st).

Definition bind {A B} (m : M A) (f : A -> M B) : M B :=
  fun st => let (x, st') := m st in f x st'.

Declare Scope usb_scope.
Delimit Scope usb_scope with usb.
Notation "'let*' x ':=' m 'in' k" := (bind m (fun x => k))
  (at level 10, x name, m at level 100, k at level 200) : usb_scope.
Notation "m '>>' k" := (bind m (fun _ => k))
  (at level 100, k at level 200, right associativity) : usb_scope.
Local Open Scope usb_scope.

Definition get_usb : M Usb := fun st => (usb st, st).

Definition modify_usb (f : Usb -> Usb) : M unit :=
  fun st => (tt, {| usb := f (usb st); clock := clock st;
                    wakes := wakes st; trace := trace st |}).

Definition emit (e : event) : M unit :=
  fun st => (tt, {| usb := usb st; clock := clock st;
                    wakes := wakes st; trace := trace st ++ [e] |}).

(** Ask the world a question about the trace so far and record the answer. *)
Definition ask {A} (q : list event -> A) (e : A -> event) : M A :=
  fun st => let a := q (trace st) in
            (a, {| usb := usb st; clock := clock st;
                   wakes := wakes st; trace := trace st ++ [e a] |}).

Definition when (b : bool) (m : M unit) : M unit :=
  if b then m else ret tt.

(** ** libc, libbase and pthread primitives *)

Section Service.

Context {codes : RoleCodes}.
(** [PORT_TYPE_TIMEOUT] is a macro of [Usb.h]: seconds. *)
Variable PORT_TYPE_TIMEOUT : Z.
Variable W : World.

(** [access(path, F_OK) == 0]. *)
Definition access (path : string) : M bool :=
  ask (fun tr => w_access W tr path) (EvAccess path).

Definition WriteStringToFile (content path : string) : M bool :=
  ask (fun tr => w_write W tr path content) (EvWrite content path).

Definition ReadFileToString (path : string) : M (option string) :=
  ask (fun tr => w_read W tr path) (EvRead path).

(** [opendir] followed by the [readdir] loop and [closedir]: the entries
    of the directory, or [None] when it cannot be opened. *)
Definition opendir (path : string) : M (option (list dirent)) :=
  ask (fun tr => w_opendir W tr path) (EvOpendir path).

Definition pthread_mutex_lock (m : mutex) : M unit := emit (EvLock m).
Definition pthread_mutex_unlock (m : mutex) : M unit := emit (EvUnlock m).

(** [pthread_mutex_trylock(m) == 0]. *)
Definition pthread_mutex_trylock (m : mutex) : M bool :=
  ask (fun tr => w_trylock W tr m) (EvTrylock m).

Definition pthread_cond_signal : M unit := emit EvSignal.

(** An assignment to the shared flag [mPartnerUp]. *)
Definition store_mPartnerUp (b : bool) : M unit :=
  modify_usb (set_mPartnerUp b) >> emit (EvStorePartnerUp b).

(** [pthread_cond_timedwait] returns 0 at wake-up [w], with the partner
    lock held again. *)
Definition woken (to : timespec) (w : wake) (rest : list wake) (st : State) : State :=
  {| usb := if wk_partner w then set_mPartnerUp true (usb st) else usb st;
     clock := ts_max (clock st) (wk_time w);
     wakes := rest;
     trace := trace st ++ [EvTimedWait to false] |}.

(** [pthread_cond_timedwait] returns [ETIMEDOUT]: the deadline [to] was
    reached first. *)
Definition timed_out (to : timespec) (st : State) : State :=
  {| usb := usb st;
     clock := ts_max (clock st) to;
     wakes := wakes st;
     trace := trace st ++ [EvTimedWait to true] |}.

(** ** The sysfs port accessor *)

Definition appendRoleNodeHelper (portName : string) (ty : PortRoleType) : M string :=
  if String.eqb portName ".." || bool_decide (is_Some (Str.find_char "/" portName))
  then ret ""
  else
    let node := "/sys/class/typec/" +:+ portName in
    match ty with
    | MODE =>
        let port_type := node +:+ "/port_type" in
        let* ok := access port_type in
        (* port_type doesn't exist for UCSI: fall through to data_role *)
        if ok then ret port_type else ret (node +:+ "/data_role")
    | DATA_ROLE => ret (node +:+ "/data_role")
    | POWER_ROLE => ret (node +:+ "/power_role")
    | PortRoleType_other _ => ret ""
    end.

Definition convertRoletoString (r : PortRole) : string :=
  match type r with
  | POWER_ROLE =>
      if role r =? PortPowerRole_SOURCE then "source"
      else if role r =? PortPowerRole_SINK then "sink"
      else "none"
  | DATA_ROLE =>
      if role r =? PortDataRole_HOST then "host"
      else if role r =? PortDataRole_DEVICE then "device"
      else "none"
  | MODE =>
      if role r =? PortMode_1_1_UFP then "sink"
      else if role r =? PortMode_1_1_DFP then "source"
      else "none"
  | PortRoleType_other _ => "none"
  end.

Definition extractRole (roleName : string) : string :=
  match Str.find_char "[" roleName, Str.find_char "]" roleName with
  | Some first, Some last =>
      Str.substr (Z.of_nat first + 1)
                 (Str.size_t (Z.of_nat last - Z.of_nat first - 1)) roleName
  | _, _ => roleName
  end.

(** ** The role switch coordinator *)

Definition switchToDrp (portName : string) : M unit :=
  let* filename := appendRoleNodeHelper portName MODE in
  WriteStringToFile "dual" filename >>
  ret tt.

(** The [wait_again] loop of [switchMode], entered with the partner lock
    held; [ws] is the list of wake-ups still to come. *)
Fixpoint wait_again (ws : list wake) (st : State) : bool * State :=
  let now := clock st in
  let to := {| tv_sec := tv_sec now + PORT_TYPE_TIMEOUT; tv_nsec := tv_nsec now |} in
  match ws with
  | w :: ws' =>
      if ts_ltb (wk_time w) to then
        let st1 := woken to w ws' st in
        if negb (mPartnerUp (usb st1)) then wait_again ws' st1   (* sanity check *)
        else (true, st1)
      else (false, timed_out to st)
  | [] => (false, timed_out to st)
  end.

(** [portName] is a [hidl_string]; where the code needs a path it takes
    [std::string(portName.c_str())], the name up to its first NUL. *)
Definition switchMode (portName : string) (newRole : PortRole) : M bool :=
  let* filename := appendRoleNodeHelper (Str.c_str portName) (type newRole) in
  if String.eqb filename "" then ret false
  else
    pthread_mutex_lock mPartnerLock >>
    store_mPartnerUp false >>
    let* ok := WriteStringToFile (convertRoletoString newRole) filename in
    let* roleSwitch := (if ok then (fun st => wait_again (wakes st) st) else ret false) in
    pthread_mutex_unlock mPartnerLock >>
    when (negb roleSwitch) (switchToDrp (Str.c_str portName)) >>
    ret roleSwitch.

Definition notifyRoleSwitchStatus (portName : string) (newRole : PortRole)
    (roleSwitch : bool) : M unit :=
  let* u := get_usb in
  match mCallback_1_0 u with
  | Some _ =>
      emit (EvNotifyRoleSwitchStatus portName newRole
              (if roleSwitch then SUCCESS else ERROR))
  | None => ret tt
  end.

Definition switchRole (portName : string) (newRole : PortRole) : M unit :=
  let* filename := appendRoleNodeHelper (Str.c_str portName) (type newRole) in
  if String.eqb filename "" then ret tt
  else
    pthread_mutex_lock mRoleSwitchLock >>
    let* roleSwitch :=
      match type newRole with
      | MODE => switchMode portName newRole
      | _ =>
          let* ok := WriteStringToFile (convertRoletoString newRole) filename in
          if ok then
            let* r := ReadFileToString filename in
            match r with
            | Some written =>
                ret (String.eqb (extractRole written) (convertRoletoString newRole))
            | None => ret false
            end
          else ret false
      end
    in
    pthread_mutex_lock mLock >>
    notifyRoleSwitchStatus portName newRole roleSwitch >>
    pthread_mutex_unlock mLock >>
    pthread_mutex_unlock mRoleSwitchLock.

(** ** The port status aggregator *)

Definition getAccessoryConnected (portName : string) : M (Status * string) :=
  let filename := ("/sys/class/typec/" +:+ portName) +:+ "-partner/accessory_mode" in
  let* r := ReadFileToString filename in
  match r with
  | None => ret (ERROR, "")
  | Some accessory => ret (SUCCESS, Str.Trim accessory)
  end.

(** [currentRole] is an out-parameter of the C++ function: the value is
    passed in and the (possibly unchanged) value is returned. *)
Definition getCurrentRoleHelper (portName : string) (connected : bool)
    (ty : PortRoleType) (currentRole : Z) : M (Status * Z) :=
  match
    match ty with
    | POWER_ROLE => Some PortPowerRole_NONE
    | DATA_ROLE => Some PortDataRole_NONE
    | MODE => Some PortMode_1_1_NONE
    | PortRoleType_other _ => None
    end
  with
  | None => ret (ERROR, currentRole)
  | Some currentRole =>
      if negb connected then ret (SUCCESS, currentRole)
      else
        let* early :=
          match ty with
          | MODE =>
              let* a := getAccessoryConnected portName in
              match a.1 with
              | SUCCESS =>
                  if String.eqb a.2 "analog_audio"
                  then ret (Some (SUCCESS, PortMode_1_1_AUDIO_ACCESSORY))
                  else if String.eqb a.2 "debug"
                  then ret (Some (SUCCESS, PortMode_1_1_DEBUG_ACCESSORY))
                  else ret None
              | _ => ret (Some (ERROR, currentRole))
              end
          | _ => ret None
          end
        in
        match early with
        | Some r => ret r
        | None =>
            let* filename := appendRoleNodeHelper portName ty in
            let* r := ReadFileToString filename in
            match r with
            | None => ret (ERROR, currentRole)
            | Some roleName =>
                let roleName := extractRole roleName in
                if String.eqb roleName "source" then
                  ret (SUCCESS, PortPowerRole_SOURCE)
                else if String.eqb roleName "sink" then
                  ret (SUCCESS, PortPowerRole_SINK)
                else if String.eqb roleName "host" then
                  ret (SUCCESS, match ty with
                                | DATA_ROLE => PortDataRole_HOST
                                | _ => PortMode_1_1_DFP
                                end)
                else if String.eqb roleName "device" then
                  ret (SUCCESS, match ty with
                                | DATA_ROLE => PortDataRole_DEVICE
                                | _ => PortMode_1_1_UFP
                                end)
                else if negb (String.eqb roleName "none") then
                  (* the case for none has already been addressed *)
                  ret (UNRECOGNIZED_ROLE, currentRole)
                else ret (SUCCESS, currentRole)
            end
        end
  end.

(** One turn of the [readdir] loop of [getTypeCPortNamesHelper]. *)
Definition addTypeCEntry (names : gmap string bool) (ep : dirent) : gmap string bool :=
  match d_kind ep with
  | DT_LNK =>
      let entry := d_name ep in
      match Str.find "-partner" entry with
      | None =>
          match names !! entry with
          | None => <[entry := false]> names
          | Some _ => names
          end
      | Some n => <[String.substring 0 n entry := true]> names
      end
  | _ => names
  end.

Definition getTypeCPortNamesHelper : M (gmap string bool) :=
  let* dp := opendir "/sys/class/typec" in
  match dp with
  | Some entries => ret (foldl addTypeCEntry ∅ entries)
  | None => ret ∅
  end.

Definition canSwitchRoleHelper (portName : string) : M bool :=
  let filename :=
    ("/sys/class/typec/" +:+ portName) +:+ "-partner/supports_usb_power_delivery" in
  let* r := ReadFileToString filename in
  match r with
  | Some supportsPD => ret (Ascii.eqb (Str.front supportsPD) "y")
  | None => ret false
  end.

(** The body of the loop of [getPortStatusHelper] for one port, on the
    element [s] of the vector. The boolean is [false] where the C++ code
    jumps to [done]. *)
Definition fillPortStatus (V1_0 : bool) (contaminantStatusPath : string)
    (portName : string) (connected : bool) (s : PortStatus) : M (bool * PortStatus) :=
  let s := set_portName portName s in
  let* r := getCurrentRoleHelper portName connected POWER_ROLE 0 in
  match r.1 with
  | SUCCESS =>
      let s := set_currentPowerRole r.2 s in
      let* r := getCurrentRoleHelper portName connected DATA_ROLE r.2 in
      match r.1 with
      | SUCCESS =>
          let s := set_currentDataRole r.2 s in
          let* r := getCurrentRoleHelper portName connected MODE r.2 in
          match r.1 with
          | SUCCESS =>
              let s := set_currentMode_1_1 r.2 s in
              let s := set_currentMode r.2 s in
              let s := set_canChangeMode true s in
              let* cd := (if connected then canSwitchRoleHelper portName else ret false) in
              let s := set_canChangeDataRole cd s in
              let* cp := (if connected then canSwitchRoleHelper portName else ret false) in
              let s := set_canChangePowerRole cp s in
              if V1_0 then ret (true, set_supportedModes PortMode_DFP s)
              else
                let s := set_supportedModes_1_1
                           (Z.lor PortMode_1_1_DRP PortMode_1_1_AUDIO_ACCESSORY) s in
                let s := set_supportedModes PortMode_NONE s in
                let s := set_currentMode PortMode_NONE s in
                let s := set_supportedContaminantProtectionModes
                           (Z.lor ContaminantProtectionMode_FORCE_SINK
                                  ContaminantProtectionMode_FORCE_DISABLE) s in
                let s := set_supportsEnableContaminantPresenceProtection false s in
                let s := set_supportsEnableContaminantPresenceDetection false s in
                let s := set_contaminantProtectionStatus
                           ContaminantProtectionStatus_FORCE_SINK s in
                if negb (String.eqb portName "port0") then
                  (* moisture detection only on first port *)
                  ret (true, s)
                else
                  let* c := (if String.eqb contaminantStatusPath "" then ret None
                             else ReadFileToString contaminantStatusPath) in
                  match c with
                  | Some contaminantPresence =>
                      if Ascii.eqb (Str.front contaminantPresence) "1"
                      then ret (true, set_contaminantDetectionStatus DETECTED s)
                      else ret (true, set_contaminantDetectionStatus NOT_DETECTED s)
                  | None =>
                      let s := set_supportedContaminantProtectionModes
                                 (Z.lor ContaminantProtectionMode_NONE
                                        ContaminantProtectionMode_NONE) s in
                      ret (true, set_contaminantProtectionStatus
                                   ContaminantProtectionStatus_NONE s)
                  end
          | _ => ret (false, s)
          end
      | _ => ret (false, s)
      end
  | _ => ret (false, s)
  end.

(** The [for] loop of [getPortStatusHelper] over the enumerated ports,
    from index [i] of the vector on. *)
Fixpoint fillPorts (V1_0 : bool) (contaminantStatusPath : string)
    (names : list (string * bool)) (i : nat) (vec : list PortStatus)
    : M (Status * list PortStatus) :=
  match names with
  | [] => ret (SUCCESS, vec)
  | (portName, connected) :: names' =>
      let* r := fillPortStatus V1_0 contaminantStatusPath portName connected
                  (default PortStatus_zero (vec !! i)) in
      let vec := <[i := r.2]> vec in
      if r.1 then fillPorts V1_0 contaminantStatusPath names' (S i) vec
      else ret (ERROR, vec)
  end.

(** The vector is empty on entry at every call site; the ports are
    visited in the iteration order of the [unordered_map]. *)
Definition getPortStatusHelper (V1_0 : bool) (contaminantStatusPath : string)
    : M (Status * list PortStatus) :=
  let* names := getTypeCPortNamesHelper in
  if negb (bool_decide (names = ∅)) then
    fillPorts V1_0 contaminantStatusPath (map_to_list names) 0
              (replicate (size names) PortStatus_zero)
  else ret (ERROR, [])
  .

Definition queryPortStatus : M unit :=
  pthread_mutex_lock mLock >>
  let* u := get_usb in
  match mCallback_1_0 u with
  | Some Callback_V1_1 =>
      let* r := getPortStatusHelper false (mContaminantStatusPath u) in
      let currentPortStatus_1_1 :=
        (fun s => {| status := status (status_1_1 s);
                     supportedModes_1_1 := supportedModes_1_1 PortStatus_1_1_zero;
                     currentMode_1_1 := currentMode_1_1 PortStatus_1_1_zero |}) <$> r.2 in
      emit (EvNotifyPortStatusChange_1_1 currentPortStatus_1_1 r.1)
  | Some Callback_V1_2 =>
      let* r := getPortStatusHelper false (mContaminantStatusPath u) in
      emit (EvNotifyPortStatusChange_1_2 r.2 r.1)
  | Some Callback_V1_0 =>
      let* r := getPortStatusHelper true (mContaminantStatusPath u) in
      let currentPortStatus := (fun s => status (status_1_1 s)) <$> r.2 in
      emit (EvNotifyPortStatusChange currentPortStatus r.1)
  | None => ret tt
  end >>
  pthread_mutex_unlock mLock.

(** ** The uevent handlers of the monitor thread *)

Definition MaxPower_path : string := "/config/usb_gadget/g1/configs/b.1/MaxPower".
Definition bmAttributes_path : string := "/config/usb_gadget/g1/configs/b.1/bmAttributes".

(** [msg] is the first NUL-terminated string of the uevent. *)
Definition handle_typec_uevent (msg : string) : M unit :=
  when (Str.starts_with "add@" msg && Str.ends_with "-partner" msg)
    (pthread_mutex_lock mPartnerLock >>
     store_mPartnerUp true >>
     pthread_cond_signal >>
     pthread_mutex_unlock mPartnerLock) >>
  let* r := ReadFileToString "/sys/class/typec/port0/power_operation_mode" in
  match r with
  | Some power_operation_mode =>
      let power_operation_mode := Str.Trim power_operation_mode in
      let* u := get_usb in
      (if String.eqb (mPowerOpMode u) power_operation_mode then ret tt
       else if String.eqb power_operation_mode "usb_power_delivery" then
         let* m := ReadFileToString MaxPower_path in
         modify_usb (set_mMaxPower (default "" m)) >>
         let* a := ReadFileToString bmAttributes_path in
         modify_usb (set_mAttributes (default "" a)) >>
         WriteStringToFile "0" MaxPower_path >>
         WriteStringToFile "0xc0" bmAttributes_path >>
         ret tt
       else if negb (String.eqb (mMaxPower u) "") then
         WriteStringToFile (mMaxPower u) MaxPower_path >>
         WriteStringToFile (mAttributes u) bmAttributes_path >>
         modify_usb (set_mMaxPower "")
       else ret tt) >>
      modify_usb (set_mPowerOpMode power_operation_mode)
  | None => ret tt
  end >>
  queryPortStatus.

(** The scan of [handle_psy_uevent] for [POWER_SUPPLY_NAME=] over the
    NUL-terminated strings of the uevent, up to the empty one that ends
    it: [false] where the C++ code returns. *)
Fixpoint psy_is_usb (msg : list string) : bool :=
  match msg with
  | [] => true
  | s :: msg' =>
      if String.eqb s "" then true
      else if Str.starts_with "POWER_SUPPLY_NAME=" s then
        (* make sure we're looking at the correct uevent *)
        String.eqb (Str.drop 18 s) "usb"
      else psy_is_usb msg'
  end.

(** The loop of [handle_psy_uevent] under the role switch lock. *)
Fixpoint drpDisconnected (ports : list PortStatus) : M unit :=
  match ports with
  | [] => ret tt
  | p :: ports' =>
      let name := portName (status (status_1_1 p)) in
      let* dp := opendir (("/sys/class/typec/" +:+ Str.c_str name) +:+ "-partner") in
      match dp with
      | None => switchToDrp name
      | Some _ => ret tt
      end >>
      drpDisconnected ports'
  end.

(** [msg] is the list of the NUL-terminated strings that follow the
    first one in the uevent. *)
Definition handle_psy_uevent (msg : list string) : M unit :=
  let* u := get_usb in
  match mCallback_1_0 u with
  | Some Callback_V1_2 =>
      if negb (psy_is_usb msg) then ret tt
      else
        (* read moisture detection status from sysfs *)
        let* c := (if String.eqb (mContaminantStatusPath u) "" then ret None
                   else ReadFileToString (mContaminantStatusPath u)) in
        match c with
        | None => ret tt
        | Some contaminantPresence =>
            let moisture_detected := Ascii.eqb (Str.front contaminantPresence) "1" in
            let* currentPortStatus_1_2 :=
              (if negb (Bool.eqb (mContaminantPresence u) moisture_detected) then
                 modify_usb (set_mContaminantPresence moisture_detected) >>
                 let* r := getPortStatusHelper false (mContaminantStatusPath u) in
                 emit (EvNotifyPortStatusChange_1_2 r.2 r.1) >>
                 ret r.2
               else ret []) in
            (* role switch is not in progress and port is in disconnected state *)
            let* locked := pthread_mutex_trylock mRoleSwitchLock in
            if locked then
              drpDisconnected currentPortStatus_1_2 >>
              pthread_mutex_unlock mRoleSwitchLock
            else ret tt
        end
  | _ =>
      (* the caller doesn't support USB HAL 1.2 *)
      ret tt
  end.

(** ** Callback registration *)

(** [pthread_create(&mPoll, NULL, work, this) == 0]. *)
Definition pthread_create : M bool :=
  ask (fun tr => w_pthread_create W tr) EvPthreadCreate.

(** [pthread_kill(mPoll, SIGUSR1) == 0]. *)
Definition pthread_kill : M bool :=
  ask (fun tr => w_pthread_kill W tr) EvPthreadKill.

Definition pthread_join : M unit := emit EvPthreadJoin.

(** [access(path, R_OK) == 0]. *)
Definition access_R_OK (path : string) : M bool :=
  ask (fun tr => w_readable W tr path) (EvAccessR path).

(** An assignment to [mCallback_1_0]. *)
Definition store_mCallback_1_0 (cb : option callback) : M unit :=
  modify_usb (set_mCallback_1_0 cb) >> emit (EvStoreCallback cb).

(** The two platform probes that [setCallback] runs once it has released
    the lock are static functions over sysfs and the property store; they
    are taken as they come. *)
Variable checkUsbWakeupSupport : M bool.
Variable checkUsbInHostMode : M unit.

Definition setCallback (callback : option callback) : M unit :=
  pthread_mutex_lock mLock >>
  let* u := get_usb in
  match mCallback_1_0 u, callback with
  | None, None | Some _, Some _ =>
      (* no worker thread to start or stop: updating the callback suffices *)
      store_mCallback_1_0 callback >>
      pthread_mutex_unlock mLock
  | Some _, None =>
      store_mCallback_1_0 callback >>
      (* kill the worker thread if the new callback is NULL *)
      pthread_mutex_unlock mLock >>
      let* killed := pthread_kill in
      if killed then pthread_join else ret tt
  | None, Some _ =>
      store_mCallback_1_0 callback >>
      emit (EvStoreDestroyThread false) >>
      emit EvSignalHandler >>
      let* created := pthread_create in
      (if negb created then store_mCallback_1_0 None else ret tt) >>
      pthread_mutex_unlock mLock >>
      let* ignoreWakeup := checkUsbWakeupSupport in
      modify_usb (set_mIgnoreWakeup ignoreWakeup) >>
      checkUsbInHostMode >>
      let* moisture := access_R_OK "/sys/class/power_supply/usb/moisture_detected" in
      if moisture then
        modify_usb (set_mContaminantStatusPath
                      "/sys/class/power_supply/usb/moisture_detected")
      else
        let* qcom := access_R_OK "/sys/class/qcom-battery/moisture_detection_status" in
        if qcom then
          modify_usb (set_mContaminantStatusPath
                        "/sys/class/qcom-battery/moisture_detection_status")
        else
          let* iio := access_R_OK
                        "/sys/bus/iio/devices/iio:device4/in_index_usb_moisture_detected_input" in
          if iio then
            modify_usb (set_mContaminantStatusPath
                          "/sys/bus/iio/devices/iio:device4/in_index_usb_moisture_detected_input")
          else modify_usb (set_mContaminantStatusPath "")
  end.

End Service.

(** * The vocabulary of the properties *)

Section Vocabulary.

Context {codes : RoleCodes}.
Variable PORT_TYPE_TIMEOUT : Z.

(** ** Reading a trace *)

(** The writes of a trace, as (content, path), in order. *)
Definition writes (tr : list event) : list (string * string) :=
  omap (fun e => match e with EvWrite c p _ => Some (c, p) | _ => None end) tr.

(** The paths read, in order. *)
Definition reads (tr : list event) : list string :=
  omap (fun e => match e with EvRead p _ => Some p | _ => None end) tr.

(** The returns of [pthread_cond_timedwait]: [true] for [ETIMEDOUT]. *)
Definition waits (tr : list event) : list bool :=
  omap (fun e => match e with EvTimedWait _ t => Some t | _ => None end) tr.

(** The values assigned to [mPartnerUp]. *)
Definition stores (tr : list event) : list bool :=
  omap (fun e => match e with EvStorePartnerUp b => Some b | _ => None end) tr.

(** The outcomes passed to [notifyRoleSwitchStatus]. *)
Definition outcomes (tr : list event) : list Status :=
  omap (fun e => match e with EvNotifyRoleSwitchStatus _ _ s => Some s | _ => None end) tr.

(** The snapshots passed to [notifyPortStatusChange_1_2]. *)
Definition snapshots (tr : list event) : list (list PortStatus * Status) :=
  omap (fun e => match e with EvNotifyPortStatusChange_1_2 v s => Some (v, s) | _ => None end) tr.

(** A port name that path resolution refuses. *)
Definition bad_port_name (portName : string) : Prop :=
  portName = ".." \/ exists a b, portName = a +:+ "/" +:+ b.

(** The three axes of a port. *)
Definition is_axis (ty : PortRoleType) : Prop :=
  ty = DATA_ROLE \/ ty = POWER_ROLE \/ ty = MODE.

(** The sysfs nodes that path resolution can return for a port and axis. *)
Definition is_role_node (portName : string) (ty : PortRoleType) (filename : string) : Prop :=
  match ty with
  | DATA_ROLE => filename = ("/sys/class/typec/" +:+ portName) +:+ "/data_role"
  | POWER_ROLE => filename = ("/sys/class/typec/" +:+ portName) +:+ "/power_role"
  | MODE => filename = ("/sys/class/typec/" +:+ portName) +:+ "/port_type"
            \/ filename = ("/sys/class/typec/" +:+ portName) +:+ "/data_role"
  | PortRoleType_other _ => False
  end.

(** The six (type, role) pairs that [convertRoletoString] knows. *)
Definition recognized (r : PortRole) : Prop :=
  (type r = POWER_ROLE /\
     (role r = PortPowerRole_SOURCE \/ role r = PortPowerRole_SINK)) \/
  (type r = DATA_ROLE /\
     (role r = PortDataRole_HOST \/ role r = PortDataRole_DEVICE)) \/
  (type r = MODE /\
     (role r = PortMode_1_1_UFP \/ role r = PortMode_1_1_DFP)).

(** The deadline armed at time [now]. *)
Definition deadline (now : timespec) : timespec :=
  {| tv_sec := tv_sec now + PORT_TYPE_TIMEOUT; tv_nsec := tv_nsec now |}.

(** A wake-up without the confirmation. *)
Definition spurious (w : wake) : Prop := wk_partner w = false.

(** The returns of [pthread_cond_timedwait] with the deadline each one
    was given: [true] for [ETIMEDOUT]. *)
Definition timed_waits (tr : list event) : list (timespec * bool) :=
  omap (fun e => match e with EvTimedWait to t => Some (to, t) | _ => None end) tr.

Definition wait_event (x : timespec * bool) : event := EvTimedWait x.1 x.2.

(** The time at which a waiter that ran at [now] runs again after the
    wake-ups [ws]: the time of the last of them, as the clock never goes
    back. *)
Definition armed_at (now : timespec) (ws : list wake) : timespec :=
  foldl (fun t w => ts_max t (wk_time w)) now ws.

(** The timed waits that the wake-ups [ws] end, one after the other, for
    a waiter that starts at [now]: each wait is given the deadline of a
    full timeout after the time at which the waiter last ran. *)
Fixpoint rearmed (now : timespec) (ws : list wake) : list (timespec * bool) :=
  match ws with
  | [] => []
  | w :: ws' => (deadline now, false) :: rearmed (ts_max now (wk_time w)) ws'
  end.

(** Each of the wake-ups [ws] comes before the deadline in force when it
    comes: the one armed when the waiter last ran. *)
Fixpoint in_time (now : timespec) (ws : list wake) : Prop :=
  match ws with
  | [] => True
  | w :: ws' =>
      ts_ltb (wk_time w) (deadline now) = true /\
      in_time (ts_max now (wk_time w)) ws'
  end.

(** The wake-up that follows, if there is one, comes too late for the
    deadline armed at [now]. *)
Definition late (now : timespec) (rest : list wake) : Prop :=
  forall w, head rest = Some w -> ts_ltb (wk_time w) (deadline now) = false.

(** A return of the timed wait. *)
Definition is_wait (e : event) : Prop :=
  match e with EvTimedWait _ _ => True | _ => False end.

Definition port_type_node (portName : string) : string :=
  ("/sys/class/typec/" +:+ portName) +:+ "/port_type".

(** What path resolution adds to the trace: the probe of [port_type] on
    the Mode axis, nothing on the other two. *)
Definition is_probe (portName : string) (ty : PortRoleType) (pre : list event) : Prop :=
  match ty with
  | MODE => exists a, pre = [EvAccess (port_type_node portName) a]
  | _ => pre = []
  end.

(** What the DRP fallback adds to the trace. *)
Definition is_fallback (portName : string) (fb : list event) : Prop :=
  exists a filename ok,
    fb = [EvAccess (port_type_node portName) a; EvWrite "dual" filename ok] /\
    is_role_node portName MODE filename.

(** [st] with the events [d] added to its trace. *)
Definition log (d : list event) (st : State) : State :=
  {| usb := usb st; clock := clock st; wakes := wakes st; trace := trace st ++ d |}.

(** The state in which [switchMode] starts to wait or gives up waiting:
    path resolved, partner lock taken, flag cleared, role written. *)
Definition written (pre : list event) (content filename : string) (ok : bool)
    (st : State) : State :=
  {| usb := set_mPartnerUp false (usb st); clock := clock st; wakes := wakes st;
     trace := trace st ++ pre ++
              [EvLock mPartnerLock; EvStorePartnerUp false;
               EvWrite content filename ok] |}.

(** The node of the data or power role of a port. *)
Definition direct_node (portName : string) (ty : PortRoleType) : string :=
  ("/sys/class/typec/" +:+ portName) +:+
  match ty with POWER_ROLE => "/power_role" | _ => "/data_role" end.

(** What [notifyRoleSwitchStatus] adds to the trace. *)
Definition notification (u : Usb) (portName : string) (newRole : PortRole)
    (roleSwitch : bool) : list event :=
  match mCallback_1_0 u with
  | Some _ => [EvNotifyRoleSwitchStatus portName newRole
                 (if roleSwitch then SUCCESS else ERROR)]
  | None => []
  end.

(** The events of a switch proper: everything but taking or releasing a
    lock other than the partner lock, and notifying. *)
Definition in_switch (e : event) : Prop :=
  match e with
  | EvLock m | EvUnlock m => m = mPartnerLock
  | EvTrylock _ _ => False
  | EvSignal => False
  | EvNotifyRoleSwitchStatus _ _ _ => False
  | EvNotifyPortStatusChange _ _ => False
  | EvNotifyPortStatusChange_1_1 _ _ => False
  | EvNotifyPortStatusChange_1_2 _ _ => False
  | EvAccessR _ _ | EvStoreCallback _ | EvStoreDestroyThread _ | EvSignalHandler
  | EvPthreadCreate _ | EvPthreadKill _ | EvPthreadJoin => False
  | _ => True
  end.

(** [m] changes nothing but the trace, to which it adds events in [P]. *)
Definition quiet {A} (P : event -> Prop) (m : M A) : Prop :=
  forall st, exists d, (m st).2 = log d st /\ Forall P d.

(** [m] adds to the trace events in [P] only, whatever else it changes. *)
Definition traces {A} (P : event -> Prop) (m : M A) : Prop :=
  forall st, exists d, trace (m st).2 = trace st ++ d /\ Forall P d.

(** Looking at sysfs: [access], a read, a directory listing. *)
Definition is_query (e : event) : Prop :=
  match e with
  | EvAccess _ _ | EvRead _ _ | EvOpendir _ _ => True
  | _ => False
  end.

(** Looking at sysfs or writing to it. *)
Definition is_sysfs (e : event) : Prop :=
  match e with
  | EvAccess _ _ | EvRead _ _ | EvOpendir _ _ | EvWrite _ _ _ => True
  | _ => False
  end.

(** The code of "none" on each axis. *)
Definition none_code (ty : PortRoleType) : Z :=
  match ty with
  | POWER_ROLE => PortPowerRole_NONE
  | DATA_ROLE => PortDataRole_NONE
  | _ => PortMode_1_1_NONE
  end.

(** A status entry that reports "none" on the three axes. *)
Definition reports_none (s : PortStatus) : Prop :=
  currentPowerRole (status (status_1_1 s)) = PortPowerRole_NONE /\
  currentDataRole (status (status_1_1 s)) = PortDataRole_NONE /\
  currentMode_1_1 (status_1_1 s) = PortMode_1_1_NONE /\
  (currentMode (status (status_1_1 s)) = PortMode_1_1_NONE \/
   currentMode (status (status_1_1 s)) = PortMode_NONE).

(** Anything but an assignment to [mPartnerUp]. *)
Definition no_store (e : event) : Prop :=
  match e with EvStorePartnerUp _ => False | _ => True end.

(** The uevent is the addition of a partner. *)
Definition partner_added (msg : string) : bool :=
  Str.starts_with "add@" msg && Str.ends_with "-partner" msg.

End Vocabulary.

(** ** Threads and mutexes *)

(** Several threads run side by side; each has a sequence of events to
    perform, and the events of the threads interleave in any order that
    the mutexes allow. *)
Module Threads.

(** A thread: what it has done and what it still has to do. *)
Record thread := { performed : list event; pending : list event }.

(** The threads, and which of them owns each mutex. *)
Record config := { threads : list thread; owner : mutex -> option nat }.

Definition set_owner (m : mutex) (o : option nat) (own : mutex -> option nat)
    : mutex -> option nat :=
  fun m' => if decide (m' = m) then o else own m'.

(** Thread [i] can perform [e]: a mutex is locked only when free and
    unlocked only by its owner; [pthread_mutex_trylock] fails only on a
    locked mutex. *)
Definition enabled (own : mutex -> option nat) (i : nat) (e : event) : Prop :=
  match e with
  | EvLock m => own m = None
  | EvUnlock m => own m = Some i
  | EvTrylock m ok => if ok then own m = None else own m <> None
  | _ => True
  end.

(** The owners once thread [i] has performed [e]. *)
Definition after (own : mutex -> option nat) (i : nat) (e : event)
    : mutex -> option nat :=
  match e with
  | EvLock m => set_owner m (Some i) own
  | EvUnlock m => set_owner m None own
  | EvTrylock m ok => if ok then set_owner m (Some i) own else own
  | _ => own
  end.

(** One thread performs its next event. *)
Inductive step : config -> config -> Prop :=
| step_thread c i t e rest :
    threads c !! i = Some t ->
    pending t = e :: rest ->
    enabled (owner c) i e ->
    step c {| threads := <[i := {| performed := performed t ++ [e]; pending := rest |}]>
                           (threads c);
              owner := after (owner c) i e |}.

(** Nothing done yet, every mutex free. *)
Definition initial (programs : list (list event)) : config :=
  {| threads := (fun p => {| performed := []; pending := p |}) <$> programs;
     owner := fun _ => None |}.

(** Whether the thread that has performed [tr] holds [m], going by what it
    has locked and unlocked. *)
Definition holds_after (m : mutex) (h : bool) (e : event) : bool :=
  match e with
  | EvLock m' => if decide (m = m') then true else h
  | EvUnlock m' => if decide (m = m') then false else h
  | EvTrylock m' ok => if decide (m = m') then ok || h else h
  | _ => h
  end.

Definition held (m : mutex) (tr : list event) : bool :=
  foldl (holds_after m) false tr.

(** Every event of [tr] that is in [P] is performed with [m] held, when
    [h] tells whether [m] is held at the start. *)
Fixpoint guarded (m : mutex) (P : event -> Prop) (h : bool) (tr : list event) : Prop :=
  match tr with
  | [] => True
  | e :: tr' => (P e -> h = true) /\ guarded m P (holds_after m h e) tr'
  end.

(** Each thread is somewhere in its program, and owns exactly the mutexes
    it holds by its own account. *)
Definition invariant (programs : list (list event)) (c : config) : Prop :=
  (forall i t, threads c !! i = Some t ->
     programs !! i = Some (performed t ++ pending t)) /\
  (forall i t m, threads c !! i = Some t ->
     (owner c m = Some i <-> held m (performed t) = true)) /\
  (forall i m, owner c m = Some i -> is_Some (threads c !! i)).

End Threads.

(** The sequence of events of one call of [switchRole], in some world and
    from some state. *)
Definition is_switchRole_run (p : list event) : Prop :=
  exists (codes : RoleCodes) PORT_TYPE_TIMEOUT W name newRole st,
    trace (switchRole PORT_TYPE_TIMEOUT W name newRole st).2 = trace st ++ p.

(** The probe of path resolution. *)
Definition probe_event (e : event) : Prop :=
  match e with EvAccess _ _ => True | _ => False end.

(** A thread has a role switch in progress when it is past path resolution
    and has not returned yet. *)
Definition in_progress (t : Threads.thread) : Prop :=
  (exists e, e ∈ Threads.performed t /\ ~ probe_event e) /\ Threads.pending t <> [].

(** An event that does not touch the role switch lock. *)
Definition rsl_free (e : event) : Prop :=
  match e with
  | EvLock m | EvUnlock m | EvTrylock m _ => m <> mRoleSwitchLock
  | _ => True
  end.

(** What a switch does beyond probing the path and taking the role switch
    lock. *)
Definition switch_action (e : event) : Prop :=
  match e with
  | EvAccess _ _ => False
  | EvLock m => m <> mRoleSwitchLock
  | _ => True
  end.

(** A call of [notifyRoleSwitchStatus]. *)
Definition is_role_notification (e : event) : Prop :=
  match e with EvNotifyRoleSwitchStatus _ _ _ => True | _ => False end.

(** An assignment to [mCallback_1_0]. *)
Definition is_callback_store (e : event) : Prop :=
  match e with EvStoreCallback _ => True | _ => False end.

(** [mm] performs its events in [P] with [m] held, when [h] tells whether
    [m] is held before and [h'] after. *)
Definition locked_run {A} (m : mutex) (P : event -> Prop) (h h' : bool) (mm : M A)
    : Prop :=
  forall st, exists d,
    trace (mm st).2 = trace st ++ d /\ Threads.guarded m P h d /\
    foldl (Threads.holds_after m) h d = h'.

(** [mm] performs its events in [P] with [m] held, when [h] tells whether
    [m] is held before. *)
Definition guarded_run {A} (m : mutex) (P : event -> Prop) (h : bool) (mm : M A)
    : Prop :=
  forall st, exists d,
    trace (mm st).2 = trace st ++ d /\ Threads.guarded m P h d.

(** ** Concrete worlds, states and requests *)

(** The enumerator values of the AOSP interface definition
    (android.hardware.usb 1.0 to 1.2), used where a concrete run of the
    service is evaluated. *)
Definition aosp_codes : RoleCodes :=
  {| PortPowerRole_NONE := 0; PortPowerRole_SOURCE := 1; PortPowerRole_SINK := 2;
     PortDataRole_NONE := 0; PortDataRole_HOST := 1; PortDataRole_DEVICE := 2;
     PortMode_NONE := 0; PortMode_DFP := 2;
     PortMode_1_1_NONE := 0; PortMode_1_1_UFP := 1; PortMode_1_1_DFP := 2;
     PortMode_1_1_DRP := 3;
     PortMode_1_1_AUDIO_ACCESSORY := 4; PortMode_1_1_DEBUG_ACCESSORY := 8;
     ContaminantProtectionMode_NONE := 0;
     ContaminantProtectionMode_FORCE_SINK := 1;
     ContaminantProtectionMode_FORCE_DISABLE := 4 |}.

(** A world whose answers do not depend on what has happened. *)
Definition static_world (present writable : string -> bool)
    (content : string -> option string) (dirs : string -> option (list dirent))
    (lock_free : bool) : World :=
  {| w_access := fun _ p => present p;
     w_write := fun _ p _ => writable p;
     w_read := fun _ p => content p;
     w_opendir := fun _ p => dirs p;
     w_trylock := fun _ _ => lock_free;
     w_readable := fun _ p => present p;
     w_pthread_create := fun _ => true;
     w_pthread_kill := fun _ => true |}.

(** Every node exists and accepts writes; nothing can be read. *)
Definition accepting_world : World :=
  static_world (fun _ => true) (fun _ => true) (fun _ => None) (fun _ => None) true.

(** A fresh service object with the callback [cb] registered. *)
Definition usb0 (cb : option callback) : Usb :=
  {| mPartnerUp := false; mContaminantPresence := false;
     mContaminantStatusPath := ""; mCallback_1_0 := cb;
     mPowerOpMode := ""; mMaxPower := ""; mAttributes := "";
     mIgnoreWakeup := false |}.

(** The service at time 0 with an empty trace. *)
Definition state0 (cb : option callback) (ws : list wake) : State :=
  {| usb := usb0 cb; clock := {| tv_sec := 0; tv_nsec := 0 |};
     wakes := ws; trace := [] |}.

(** A port name with a '/' behind an embedded NUL. *)
Definition port0_nul_slash : string := "port0" +:+ String Ascii.zero "/x".

Definition mode_dfp : PortRole := {| type := MODE; role := 2 |}.
Definition data_device : PortRole := {| type := DATA_ROLE; role := 2 |}.
Definition data_unknown : PortRole := {| type := DATA_ROLE; role := 7 |}.

(** A wake-up [s] seconds after the start. *)
Definition at_time (s : Z) (partner : bool) : wake :=
  {| wk_time := {| tv_sec := s; tv_nsec := 0 |}; wk_partner := partner |}.

(** Every node accepts writes, and the data role node of port1 reads back
    "device" as the active role. *)
Definition readback_world : World :=
  static_world (fun _ => true) (fun _ => true)
    (fun p => if String.eqb p "/sys/class/typec/port1/data_role"
              then Some "host [device]" else None)
    (fun _ => None) true.

(** No node accepts a write. *)
Definition refusing_world : World :=
  static_world (fun _ => true) (fun _ => false) (fun _ => None) (fun _ => None) true.

(** The service with the partner flag left set by an earlier event. *)
Definition state_partner_up : State :=
  {| usb := set_mPartnerUp true (usb0 None);
     clock := {| tv_sec := 0; tv_nsec := 0 |}; wakes := []; trace := [] |}.

(** One connected port, port0, whose power role node reads a token that
    is not in the vocabulary. *)
Definition drifted_world : World :=
  static_world (fun _ => true) (fun _ => true)
    (fun p => if String.eqb p "/sys/class/typec/port0/power_role"
              then Some "source [charger] sink" else None)
    (fun p => if String.eqb p "/sys/class/typec"
              then Some [ {| d_name := "port0"; d_kind := DT_LNK |};
                          {| d_name := "port0-partner"; d_kind := DT_LNK |} ]
              else None)
    true.

(** Two ports, port0 with a partner and port1 without; the role nodes of
    port0 read source and host. *)
Definition two_port_world : World :=
  static_world (fun _ => false) (fun _ => true)
    (fun p => if String.eqb p "/sys/class/typec/port0/power_role"
              then Some "[source] sink"
              else if String.eqb p "/sys/class/typec/port0/data_role"
              then Some "[host] device"
              else if String.eqb p "/sys/class/typec/port0-partner/accessory_mode"
              then Some "none"
              else None)
    (fun p => if String.eqb p "/sys/class/typec"
              then Some [ {| d_name := "port0"; d_kind := DT_LNK |};
                          {| d_name := "port1"; d_kind := DT_LNK |};
                          {| d_name := "port0-partner"; d_kind := DT_LNK |} ]
              else None)
    true.

Definition moisture_path : string := "/sys/class/power_supply/usb/moisture_detected".

(** port0 alone, without a partner, and moisture detected. *)
Definition moist_world : World :=
  static_world (fun _ => false) (fun _ => true)
    (fun p => if String.eqb p moisture_path then Some "1" else None)
    (fun p => if String.eqb p "/sys/class/typec"
              then Some [ {| d_name := "port0"; d_kind := DT_LNK |} ]
              else None)
    true.

(** A 1.2 callback is registered and the contaminant path is configured;
    no contaminant has been recorded. *)
Definition state_dry : State :=
  {| usb := set_mContaminantStatusPath moisture_path (usb0 (Some Callback_V1_2));
     clock := {| tv_sec := 0; tv_nsec := 0 |}; wakes := []; trace := [] |}.

(** The events of a data role switch of port1, as [switchRole] performs
    them in a world that accepts every write. *)
Definition data_switch_run : list event :=
  trace (switchRole (codes := aosp_codes) 8 accepting_world "port1" data_device
           (state0 None [])).2.

(** Two threads switch the data role; the first has taken the role switch
    lock. *)
Definition first_thread_locked : Threads.config :=
  {| Threads.threads :=
       <[0%nat := {| Threads.performed := [] ++ [EvLock mRoleSwitchLock];
                     Threads.pending := tail data_switch_run |}]>
         (Threads.threads (Threads.initial [data_switch_run; data_switch_run]));
     Threads.owner :=
       Threads.after (Threads.owner (Threads.initial [data_switch_run; data_switch_run]))
         0 (EvLock mRoleSwitchLock) |}.

(** ** Enumerating the ports *)

(** The listing of /sys/class/typec has a symlink for a partner of port
    [p]: a name that contains "-partner", with [p] what comes before its
    first occurrence. *)
Definition partner_listed (p : string) (entries : list dirent) : Prop :=
  exists e n, e ∈ entries /\ d_kind e = DT_LNK /\
    Str.find "-partner" (d_name e) = Some n /\
    String.substring 0 n (d_name e) = p.

(** The listing has a symlink named [p], and [p] is no partner's name. *)
Definition port_listed (p : string) (entries : list dirent) : Prop :=
  exists e, e ∈ entries /\ d_kind e = DT_LNK /\ d_name e = p /\
    Str.find "-partner" p = None.

(** The key that names the power supply in a uevent. *)
Definition POWER_SUPPLY_NAME : string := "POWER_SUPPLY_NAME=".

(** A string of a uevent that the scan of [handle_psy_uevent] steps over. *)
Definition skipped (s : string) : Prop :=
  s <> "" /\ Str.starts_with POWER_SUPPLY_NAME s = false.

(** ** The entries of a snapshot *)

Section SnapshotVocabulary.

Context {codes : RoleCodes}.

(** The name an entry is filed under. *)
Definition entry_name (s : PortStatus) : string :=
  portName (status (status_1_1 s)).

(** What a snapshot for a callback of version 1.0 ([V1_0]) or later says a
    port can do, for a port enumerated with or without a partner. *)
Definition capabilities (V1_0 connected : bool) (s : PortStatus) : Prop :=
  canChangeMode (status (status_1_1 s)) = true /\
  (connected = false ->
   canChangeDataRole (status (status_1_1 s)) = false /\
   canChangePowerRole (status (status_1_1 s)) = false) /\
  if V1_0 then supportedModes (status (status_1_1 s)) = PortMode_DFP
  else
    supportedModes (status (status_1_1 s)) = PortMode_NONE /\
    currentMode (status (status_1_1 s)) = PortMode_NONE /\
    supportedModes_1_1 (status_1_1 s) =
      Z.lor PortMode_1_1_DRP PortMode_1_1_AUDIO_ACCESSORY /\
    supportsEnableContaminantPresenceProtection s = false /\
    supportsEnableContaminantPresenceDetection s = false.

(** The entry says nothing about contaminants: the fields of version 1.2
    are as the vector was created with. *)
Definition contaminant_blank (s : PortStatus) : Prop :=
  contaminantDetectionStatus s = NOT_SUPPORTED /\
  contaminantProtectionStatus s = ContaminantProtectionStatus_NONE /\
  supportedContaminantProtectionModes s = 0.

(** Protection is on offer, detection is not reported. *)
Definition contaminant_protected (s : PortStatus) : Prop :=
  contaminantDetectionStatus s = NOT_SUPPORTED /\
  contaminantProtectionStatus s = ContaminantProtectionStatus_FORCE_SINK /\
  supportedContaminantProtectionModes s =
    Z.lor ContaminantProtectionMode_FORCE_SINK
          ContaminantProtectionMode_FORCE_DISABLE.

(** Detection is reported, from what the status file reads. *)
Definition contaminant_detection (s : PortStatus) : Prop :=
  (contaminantDetectionStatus s = DETECTED \/
   contaminantDetectionStatus s = NOT_DETECTED) /\
  contaminantProtectionStatus s = ContaminantProtectionStatus_FORCE_SINK /\
  supportedContaminantProtectionModes s =
    Z.lor ContaminantProtectionMode_FORCE_SINK
          ContaminantProtectionMode_FORCE_DISABLE.

(** The status file is missing or unreadable: nothing is supported. *)
Definition contaminant_unsupported (s : PortStatus) : Prop :=
  contaminantDetectionStatus s = NOT_SUPPORTED /\
  contaminantProtectionStatus s = ContaminantProtectionStatus_NONE /\
  supportedContaminantProtectionModes s =
    Z.lor ContaminantProtectionMode_NONE ContaminantProtectionMode_NONE.

(** What an entry of a completed snapshot says about contaminants. *)
Definition contaminant_report (V1_0 : bool) (path : string) (s : PortStatus)
    : Prop :=
  if V1_0 then contaminant_blank s
  else if String.eqb (entry_name s) "port0" then
    (path <> "" /\ contaminant_detection s) \/ contaminant_unsupported s
  else contaminant_protected s.

(** The notification of a port status change that a callback of version
    [cb] is sent. *)
Definition is_port_notification (cb : callback) (e : event) : Prop :=
  match cb, e with
  | Callback_V1_0, EvNotifyPortStatusChange _ _ => True
  | Callback_V1_1, EvNotifyPortStatusChange_1_1 _ _ => True
  | Callback_V1_2, EvNotifyPortStatusChange_1_2 _ _ => True
  | _, _ => False
  end.

(** What [queryPortStatus] sends a callback of version [cb], given what
    [getPortStatusHelper] has returned. *)
Definition port_notification (cb : callback) (r : Status * list PortStatus)
    : event :=
  match cb with
  | Callback_V1_0 =>
      EvNotifyPortStatusChange ((fun s => status (status_1_1 s)) <$> r.2) r.1
  | Callback_V1_1 =>
      EvNotifyPortStatusChange_1_1
        ((fun s => {| status := status (status_1_1 s);
                      supportedModes_1_1 := 0; currentMode_1_1 := 0 |}) <$> r.2)
        r.1
  | Callback_V1_2 => EvNotifyPortStatusChange_1_2 r.2 r.1
  end.

(** Whether the snapshot is taken for a callback of version 1.0. *)
Definition is_V1_0 (cb : callback) : bool :=
  match cb with Callback_V1_0 => true | _ => false end.

End SnapshotVocabulary.

(** ** Reading a role back *)

(** The node that tells in which accessory mode the partner of a port is. *)
Definition accessory_node (portName : string) : string :=
  ("/sys/class/typec/" +:+ portName) +:+ "-partner/accessory_mode".

(** The words that the service writes to a role node. *)
Definition role_words : list string :=
  ["source"; "sink"; "host"; "device"; "none"; "dual"].

(** A write of [e], if it is one, puts a role word into one of the role
    nodes of the port [portName], whose name path resolution accepts. *)
Definition confined (portName : string) (e : event) : Prop :=
  match e with
  | EvWrite content filename _ =>
      content ∈ role_words /\ ~ bad_port_name portName /\
      exists ty, is_role_node portName ty filename
  | _ => True
  end.

(** ** Locks *)

(** The lock operations of a trace, in order. *)
Definition locks (tr : list event) : list event :=
  omap (fun e => match e with
                 | EvLock _ | EvUnlock _ | EvTrylock _ _ => Some e
                 | _ => None
                 end) tr.

(** An event that is no lock operation. *)
Definition lock_free (e : event) : Prop :=
  match e with
  | EvLock _ | EvUnlock _ | EvTrylock _ _ => False
  | _ => True
  end.

(** ** The parts of the typec uevent handler *)

Section HandlerParts.

Context {codes : RoleCodes}.
Variable W : World.

Definition power_operation_mode_path : string :=
  "/sys/class/typec/port0/power_operation_mode".

(** The first part of [handle_typec_uevent]: the partner flag. *)
Definition partner_part (msg : string) : M unit :=
  when (Str.starts_with "add@" msg && Str.ends_with "-partner" msg)
    (pthread_mutex_lock mPartnerLock >>
     store_mPartnerUp true >>
     pthread_cond_signal >>
     pthread_mutex_unlock mPartnerLock).

(** Its second part: the power of the gadget configuration. *)
Definition power_part : M unit :=
  let* r := ReadFileToString W power_operation_mode_path in
  match r with
  | Some power_operation_mode =>
      let power_operation_mode := Str.Trim power_operation_mode in
      let* u := get_usb in
      (if String.eqb (mPowerOpMode u) power_operation_mode then ret tt
       else if String.eqb power_operation_mode "usb_power_delivery" then
         let* m := ReadFileToString W MaxPower_path in
         modify_usb (set_mMaxPower (default "" m)) >>
         let* a := ReadFileToString W bmAttributes_path in
         modify_usb (set_mAttributes (default "" a)) >>
         WriteStringToFile W "0" MaxPower_path >>
         WriteStringToFile W "0xc0" bmAttributes_path >>
         ret tt
       else if negb (String.eqb (mMaxPower u) "") then
         WriteStringToFile W (mMaxPower u) MaxPower_path >>
         WriteStringToFile W (mAttributes u) bmAttributes_path >>
         modify_usb (set_mMaxPower "")
       else ret tt) >>
      modify_usb (set_mPowerOpMode power_operation_mode)
  | None => ret tt
  end.

End HandlerParts.

(** The lock operations that [m] performs from [st]. *)
Definition script {A} (m : M A) (st : State) (l : list event) : Prop :=
  exists d : list event, trace (m st).2 = trace st ++ d /\ locks d = l.

(** A notification of the callback, of any kind. *)
Definition is_notification (e : event) : Prop :=
  match e with
  | EvNotifyRoleSwitchStatus _ _ _ | EvNotifyPortStatusChange _ _
  | EvNotifyPortStatusChange_1_1 _ _ | EvNotifyPortStatusChange_1_2 _ _ => True
  | _ => False
  end.

(** What the fallback to dual role does to sysfs: it looks, and what it
    writes is "dual". *)
Definition is_drp (e : event) : Prop :=
  match e with
  | EvWrite content _ _ => content = "dual"
  | _ => is_sysfs e
  end.

(** ** The worker thread *)

(** The life of the worker thread as a trace tells it: [true] for a
    thread that [pthread_create] has started, [false] for a signal sent
    with [pthread_kill] to stop it. *)
Definition workers (tr : list event) : list bool :=
  omap (fun e => match e with
                 | EvPthreadCreate true => Some true
                 | EvPthreadKill _ => Some false
                 | _ => None
                 end) tr.

(** Starts and stops take turns: a worker is started only when none runs
    and stopped only when one does. [plays running l] is whether a worker
    runs after [l], when [running] tells whether one runs before; [None]
    when [l] starts a second worker or stops one that is not there. *)
Fixpoint plays (running : bool) (l : list bool) : option bool :=
  match l with
  | [] => Some running
  | b :: l' => if Bool.eqb b running then None else plays b l'
  end.

(** A probe of the platform that leaves the callback and the worker
    alone. *)
Definition is_probe_run {A} (m : M A) : Prop :=
  forall st,
    mCallback_1_0 (usb (m st).2) = mCallback_1_0 (usb st) /\
    exists d : list event, trace (m st).2 = trace st ++ d /\ workers d = [].

Section Registration.

Variable W : World.
Variable wakeup : M bool.
Variable host : M unit.

(** What [setCallback] does for a first callback once it has released
    the lock: the two probes, and the choice of the contaminant status
    path. *)
Definition probe_platform : M unit :=
  let* ignoreWakeup := wakeup in
  modify_usb (set_mIgnoreWakeup ignoreWakeup) >>
  host >>
  let* moisture := access_R_OK W "/sys/class/power_supply/usb/moisture_detected" in
  if moisture then
    modify_usb (set_mContaminantStatusPath
                  "/sys/class/power_supply/usb/moisture_detected")
  else
    let* qcom := access_R_OK W "/sys/class/qcom-battery/moisture_detection_status" in
    if qcom then
      modify_usb (set_mContaminantStatusPath
                    "/sys/class/qcom-battery/moisture_detection_status")
    else
      let* iio := access_R_OK W
                    "/sys/bus/iio/devices/iio:device4/in_index_usb_moisture_detected_input" in
      if iio then
        modify_usb (set_mContaminantStatusPath
                      "/sys/bus/iio/devices/iio:device4/in_index_usb_moisture_detected_input")
      else modify_usb (set_mContaminantStatusPath "").

(** One call of [setCallback] after the other. *)
Fixpoint setCallbacks (cbs : list (option callback)) : M unit :=
  match cbs with
  | [] => ret tt
  | cb :: cbs' =>
      setCallback W wakeup host cb >>
      setCallbacks cbs'
  end.

End Registration.

(** * Contaminant presence: the two enable calls *)

Section EnableContaminant.

Context {codes : RoleCodes}.
Variable W : World.

(** [callbackNotifyPortStatusChangeHelper] casts the registered callback
    to version 1.2 before it takes the lock, and calls through the result
    without a test: the outcome is [None] where that call goes through a
    null pointer, which happens with mLock held. *)
Definition callbackNotifyPortStatusChangeHelper : M (option unit) :=
  let* u := get_usb in
  let callback_V1_2 :=
    match mCallback_1_0 u with
    | Some Callback_V1_2 => true
    | _ => false
    end in
  pthread_mutex_lock mLock >>
  let* u := get_usb in
  let* r := getPortStatusHelper W false (mContaminantStatusPath u) in
  if callback_V1_2 then
    emit (EvNotifyPortStatusChange_1_2 r.2 r.1) >>
    pthread_mutex_unlock mLock >>
    ret (Some tt)
  else ret None.

Definition enableContaminantPresenceDetection (portName : string) (enable : bool)
    : M (option unit) :=
  (* contaminant presence detection should always be in enable mode *)
  callbackNotifyPortStatusChangeHelper.

Definition enableContaminantPresenceProtection (portName : string) (enable : bool)
    : M (option unit) :=
  (* contaminant presence protection should always be in enable mode *)
  callbackNotifyPortStatusChangeHelper.

End EnableContaminant.

(** * Autosuspend of USB devices and interfaces *)

(** What [std::stoi] does with its argument. *)
Inductive stoi_result :=
| stoi_value (n : Z)
| stoi_invalid_argument
| stoi_out_of_range.

Module Stoi.

(** The value of a digit in base 16. *)
Definition hex_digit (a : ascii) : option Z :=
  let n := Z.of_N (N_of_ascii a) in
  if (48 <=? n) && (n <=? 57) then Some (n - 48)
  else if (97 <=? n) && (n <=? 102) then Some (n - 87)
  else if (65 <=? n) && (n <=? 70) then Some (n - 55)
  else None.

(** The digits at the start of [s], most significant first, with the
    value [acc] of those before; [None] when there is none. *)
Fixpoint digits (s : string) (acc : option Z) : option Z :=
  match s with
  | EmptyString => acc
  | String a s' =>
      match hex_digit a with
      | Some d => digits s' (Some (16 * default 0 acc + d))
      | None => acc
      end
  end.

(** An "0x" or "0X" before a digit is skipped. *)
Definition skip_prefix (s : string) : string :=
  match s with
  | String "0" (String x (String a s')) =>
      if (Ascii.eqb x "x" || Ascii.eqb x "X") && bool_decide (is_Some (hex_digit a))
      then String a s' else s
  | _ => s
  end.

(** A sign, and what follows it. *)
Definition sign (s : string) : bool * string :=
  match s with
  | String "-" s' => (true, s')
  | String "+" s' => (false, s')
  | _ => (false, s)
  end.

Definition INT_MIN : Z := - 2 ^ 31.
Definition INT_MAX : Z := 2 ^ 31 - 1.

(** [std::stoi(s, 0, 16)]: [strtol] in base 16 on the text after the
    leading white space, with both of its failures. *)
Definition stoi16 (s : string) : stoi_result :=
  let (negative, body) := sign (Str.ltrim s) in
  match digits (skip_prefix body) None with
  | None => stoi_invalid_argument
  | Some n =>
      let v := if negative then - n else n in
      if (INT_MIN <=? v) && (v <=? INT_MAX) then stoi_value v
      else stoi_out_of_range
  end.

End Stoi.

(** An exception that leaves a function of the service. *)
Inductive thrown := invalid_argument | out_of_range.

Section Autosuspend.

Variable W : World.
(** [USB_CLASS_AUDIO] and [USB_CLASS_HUB] are macros of linux/usb/ch9.h. *)
Variable USB_CLASS_AUDIO : Z.
Variable USB_CLASS_HUB : Z.

Definition GOOGLE_USB_VENDOR_ID_STR : string := "18d1".
Definition GOOGLE_USBC_35_ADAPTER_UNPLUGGED_ID_STR : string := "5029".

(** Allow specific USB device idProduct and idVendor to auto suspend. *)
Definition canProductAutoSuspend (deviceIdVendor deviceIdProduct : string) : bool :=
  String.eqb deviceIdVendor GOOGLE_USB_VENDOR_ID_STR &&
  String.eqb deviceIdProduct GOOGLE_USBC_35_ADAPTER_UNPLUGGED_ID_STR.

Definition canUsbDeviceAutoSuspend (devicePath : string) : M bool :=
  let* deviceIdVendor := ReadFileToString W (devicePath +:+ "/idVendor") in
  let* deviceIdProduct := ReadFileToString W (devicePath +:+ "/idProduct") in
  (* the two are empty strings if ReadFileToString fails *)
  ret (canProductAutoSuspend (Str.Trim (default "" deviceIdVendor))
                             (Str.Trim (default "" deviceIdProduct))).

Definition checkUsbDeviceAutoSuspend (devicePath : string) : M unit :=
  let* can := canUsbDeviceAutoSuspend devicePath in
  if can then
    WriteStringToFile W "auto" (devicePath +:+ "/power/control") >>
    WriteStringToFile W "enabled" (devicePath +:+ "/power/wakeup") >>
    ret tt
  else ret tt.

(** The [do ... while] loop of [checkUsbInterfaceAutoSuspend]; [retry] is
    the value of the counter on entry to the body. *)
Fixpoint read_bInterfaceClass (retry : nat) (path : string) : M string :=
  let* r := ReadFileToString W path in
  let bInterfaceClass := default "" r in
  match retry with
  | S (S _ as retry') =>
      if (String.length bInterfaceClass =? 0)%nat
      then read_bInterfaceClass retry' path
      else ret bInterfaceClass
  | _ => ret bInterfaceClass
  end.

(** The result is [inl] of the exception where [std::stoi] throws: the
    function does not catch it. *)
Definition checkUsbInterfaceAutoSuspend (devicePath intf : string)
    : M (thrown + bool) :=
  let* bInterfaceClass :=
    read_bInterfaceClass 3 (((devicePath +:+ "/") +:+ intf) +:+ "/bInterfaceClass") in
  if (String.length bInterfaceClass =? 0)%nat then ret (inr false)
  else
    match Stoi.stoi16 bInterfaceClass with
    | stoi_invalid_argument => ret (inl invalid_argument)
    | stoi_out_of_range => ret (inl out_of_range)
    | stoi_value interfaceClass =>
        (* allow autosuspend for certain class devices *)
        if (interfaceClass =? USB_CLASS_AUDIO) || (interfaceClass =? USB_CLASS_HUB)
        then
          let* ok := WriteStringToFile W "auto" (devicePath +:+ "/power/control") in
          if negb ok then ret (inr false)
          else
            let* ok := WriteStringToFile W "enabled" (devicePath +:+ "/power/wakeup") in
            ret (inr ok)
        else ret (inr false)
    end.

End Autosuspend.

(** What the kernel puts in bInterfaceClass for the class [c]: two
    hexadecimal digits and a newline. *)
Definition hex_char (d : Z) : ascii :=
  ascii_of_N (Z.to_N (if d <? 10 then 48 + d else 87 + d)).

Definition bInterfaceClass_text (c : Z) : string :=
  String (hex_char (c / 16)) (String (hex_char (c mod 16)) (String "010" "")).

(** * The probes of the platform *)

(** The system properties, the store behind [GetProperty] and
    [SetProperty], are a map from names to values. *)

(** [android::base::GetProperty]: the default stands in for a property
    that is missing or empty. *)
Definition GetProperty (key default_value : string) (p : gmap string string) : string :=
  match p !! key with
  | Some value => if String.eqb value "" then default_value else value
  | None => default_value
  end.

Definition SetProperty (key value : string) (p : gmap string string) : gmap string string :=
  <[key := value]> p.

Definition VENDOR_USB_ADB_DISABLED_PROP : string := "vendor.sys.usb.adb.disabled".
Definition USB_CONTROLLER_PROP : string := "vendor.usb.controller".

(** [strstr(haystack, needle) != NULL]. *)
Definition strstr (haystack needle : string) : bool :=
  bool_decide (is_Some (Str.find needle haystack)).

(** [strchr(s, c) != NULL]. *)
Definition strchr (s : string) (c : ascii) : bool :=
  bool_decide (is_Some (Str.find_char c s)).

Section PlatformProbes.

Variable W : World.
Variable USB_CLASS_AUDIO : Z.
Variable USB_CLASS_HUB : Z.
(** [realpath]: the resolved path, [None] where it fails. It is a matter
    of the file system alone and is taken as it comes. *)
Variable realpath : string -> option string.

(** The [readdir] loop of [checkUsbInHostMode]: whether it leaves by the
    [return] inside. *)
Fixpoint host_controller_listed (entries : list dirent) : bool :=
  match entries with
  | [] => false
  | gadgetDir :: entries' =>
      if strstr (d_name gadgetDir) "xhci-hcd" then true
      else host_controller_listed entries'
  end.

(** The property store is passed in and returned. *)
Definition checkUsbInHostMode (p : gmap string string) : M (gmap string string) :=
  let gadgetName :=
    "/sys/bus/platform/devices/" +:+ GetProperty USB_CONTROLLER_PROP "" p in
  let* gd := opendir W gadgetName in
  match gd with
  | Some entries =>
      if host_controller_listed entries
      then ret (SetProperty VENDOR_USB_ADB_DISABLED_PROP "1" p)
      else ret (SetProperty VENDOR_USB_ADB_DISABLED_PROP "0" p)
  | None => ret (SetProperty VENDOR_USB_ADB_DISABLED_PROP "0" p)
  end.

(** The first [readdir] loop of [checkUsbWakeupSupport]: the scan for the
    USB controller ("susb" takes care of both hsusb and ssusb), which ends
    at the first one. [faccessat] on the open directory is [access] on the
    path below it. *)
Fixpoint scan_controllers (platdevices : string) (entries : list dirent) : M bool :=
  match entries with
  | [] => ret true
  | platDir :: entries' =>
      let cname := d_name platDir in
      if strstr cname "susb" then
        let* ok := access W (platdevices +:+ (cname +:+ "/power/wakeup")) in
        if negb ok then ret true   (* the platform doesn't support wakeup *)
        else ret false
      else scan_controllers platdevices entries'
  end.

(** The loop over the interfaces of one device; it ends at the first
    interface for which autosuspend is enabled. *)
Fixpoint scan_interfaces (buf : string) (intfs : list dirent) : M (thrown + unit) :=
  match intfs with
  | [] => ret (inr tt)
  | intfDir :: intfs' =>
      if match d_kind intfDir with DT_DIR => true | _ => false end &&
         strchr (d_name intfDir) ":"
      then
        let* r := checkUsbInterfaceAutoSuspend W USB_CLASS_AUDIO USB_CLASS_HUB
                    buf (d_name intfDir) in
        match r with
        | inl e => ret (inl e)
        | inr true => ret (inr tt)
        | inr false => scan_interfaces buf intfs'
        end
      else scan_interfaces buf intfs'
  end.

(** The loop over the devices connected over USB, skipping the
    interfaces. *)
Fixpoint scan_devices (usbdevices : string) (devices : list dirent)
    : M (thrown + unit) :=
  match devices with
  | [] => ret (inr tt)
  | deviceDir :: devices' =>
      let* r :=
        (if match d_kind deviceDir with DT_LNK => true | _ => false end &&
            negb (strchr (d_name deviceDir) ":")
         then
           match realpath (usbdevices +:+ d_name deviceDir) with
           | Some buf =>
               let* ip := opendir W buf in
               match ip with
               | None => ret (inr tt)
               | Some intfs => scan_interfaces buf intfs
               end
           | None => ret (inr tt)
           end
         else ret (inr tt)) in
      match r with
      | inl e => ret (inl e)
      | inr _ => scan_devices usbdevices devices'
      end
  end.

Definition checkUsbWakeupSupport : M (thrown + bool) :=
  let platdevices := "/sys/bus/platform/devices/" in
  let* pd := opendir W platdevices in
  let* ignoreWakeup :=
    match pd with
    | Some entries => scan_controllers platdevices entries
    | None => ret true
    end in
  if ignoreWakeup then ret (inr true)
  else
    (* wakeup is supported: scan the enumerated USB devices and enable
       autosuspend *)
    let usbdevices := "/sys/bus/usb/devices/" in
    let* dp := opendir W usbdevices in
    match dp with
    | Some devices =>
        let* r := scan_devices usbdevices devices in
        match r with
        | inl e => ret (inl e)
        | inr _ => ret (inr false)
        end
    | None => ret (inr false)
    end.

End PlatformProbes.

(** ** Further concrete worlds *)

(** The line feed that ends the text of a sysfs attribute. *)
Definition newline : string := String "010" "".

(** port0 has a partner that is no accessory; its port_type node is there
    and shows source as the active role. *)
Definition sourcing_world : World :=
  static_world (fun _ => true) (fun _ => true)
    (fun p => if String.eqb p "/sys/class/typec/port0-partner/accessory_mode"
              then Some "none"
              else if String.eqb p "/sys/class/typec/port0/port_type"
              then Some "dual [source] sink"
              else None)
    (fun _ => None) true.

(** port0 has negotiated USB power delivery; the gadget configuration asks
    for 500 mA and is bus powered. *)
Definition power_delivery_world : World :=
  static_world (fun _ => true) (fun _ => true)
    (fun p => if String.eqb p "/sys/class/typec/port0/power_operation_mode"
              then Some ("usb_power_delivery" +:+ newline)
              else if String.eqb p MaxPower_path then Some "500"
              else if String.eqb p bmAttributes_path then Some "0x80"
              else None)
    (fun _ => None) true.

(** port0 is back in the default power operation mode. *)
Definition default_power_world : World :=
  static_world (fun _ => true) (fun _ => true)
    (fun p => if String.eqb p "/sys/class/typec/port0/power_operation_mode"
              then Some ("default" +:+ newline)
              else None)
    (fun _ => None) true.

(** No thread can be created. *)
Definition threadless_world : World :=
  {| w_access := fun _ _ => true;
     w_write := fun _ _ _ => true;
     w_read := fun _ _ => None;
     w_opendir := fun _ _ => None;
     w_trylock := fun _ _ => true;
     w_readable := fun _ _ => true;
     w_pthread_create := fun _ => false;
     w_pthread_kill := fun _ => true |}.

(** The first interface of the device 1-1 has the class [c]. *)
Definition interface_world (text : string) : World :=
  static_world (fun _ => true) (fun _ => true)
    (fun p => if String.eqb p "/sys/bus/usb/devices/1-1/1-1:1.0/bInterfaceClass"
              then Some text else None)
    (fun _ => None) true.

(** The entry for the port [name] in a snapshot. *)
Definition entry_of (name : string) (vec : list PortStatus) : PortStatus :=
  default PortStatus_zero
    (List.find (fun s => String.eqb (portName (status (status_1_1 s))) name) vec).

(** The snapshot of the board with two ports, for a callback of version
    1.2 and no contaminant status path. *)
Definition two_port_snapshot : list PortStatus :=
  (getPortStatusHelper (codes := aosp_codes) two_port_world false ""
     (state0 (Some Callback_V1_2) [])).1.2.

(** The snapshot of the board with moisture on port0. *)
Definition moist_snapshot : list PortStatus :=
  (getPortStatusHelper (codes := aosp_codes) moist_world false moisture_path
     state_dry).1.2.

(** The probes of the platform on a board where neither directory can be
    opened, with the results that [setCallback] keeps. *)
Definition wakeup_probe_run : M bool :=
  let* r := checkUsbWakeupSupport accepting_world 1 9 (fun _ => None) in
  ret (match r with inr b => b | inl _ => false end).

Definition host_probe_run : M unit :=
  checkUsbInHostMode accepting_world ∅ >> ret tt.

(** * Proofs *)

(** ** Lemmas on strings *)

Lemma find_char_append c a b : is_Some (Str.find_char c (a +:+ String c b)).
Proof.
  induction a as [|x a IH]; simpl.
  - rewrite Ascii.eqb_refl. eauto.
  - destruct (Ascii.eqb x c); [eauto|].
    destruct IH as [n ->]. eauto.
Qed.

Lemma find_char_None_append c a b :
  Str.find_char c (a +:+ b) = None -> Str.find_char c a = None.
Proof.
  induction a as [|x a IH]; simpl; [done|].
  destruct (Ascii.eqb x c); [done|].
  destruct (Str.find_char c (a +:+ b)); [done|].
  intros _. by rewrite IH.
Qed.

Lemma find_char_Some c s :
  is_Some (Str.find_char c s) -> exists a b, s = a +:+ String c b.
Proof.
  induction s as [|x s IH]; simpl.
  - by intros [? ?].
  - destruct (Ascii.eqb_spec x c) as [->|Hne].
    + intros _. by exists EmptyString, s.
    + destruct (Str.find_char c s); [|by intros [? ?]].
      intros _. destruct IH as (a & b & ->); [eauto|].
      by exists (String x a), b.
Qed.

(** A name without a NUL is passed on as it is. *)
Lemma c_str_whole s : Str.find_char Ascii.zero s = None -> Str.c_str s = s.
Proof.
  induction s as [|a s IH]; [done|]. simpl.
  destruct (Ascii.eqb a Ascii.zero); [done|].
  destruct (Str.find_char Ascii.zero s); [done|]. intros _. by rewrite IH.
Qed.

(** What is passed on has no NUL; cutting twice changes nothing. *)
Lemma c_str_no_nul s : Str.find_char Ascii.zero (Str.c_str s) = None.
Proof.
  induction s as [|a s IH]; [done|]. simpl.
  destruct (Ascii.eqb a Ascii.zero) eqn:E; [done|]. simpl. by rewrite E, IH.
Qed.

Lemma bad_port_name_check portName :
  bad_port_name portName <->
  String.eqb portName ".." || bool_decide (is_Some (Str.find_char "/" portName)) = true.
Proof.
  rewrite orb_true_iff, bool_decide_eq_true. unfold bad_port_name. split.
  - intros [-> | (a & b & ->)]; [by left|right]. apply find_char_append.
  - intros [H|H]; [left; by apply String.eqb_eq|right].
    destruct (find_char_Some _ _ H) as (a & b & ->). by exists a, b.
Qed.

Lemma prefix_nonempty a b : String.eqb (("/sys/class/typec/" +:+ a) +:+ b) "" = false.
Proof. done. Qed.

(** ** Path resolution and role strings *)

Local Arguments String.append : simpl never.

Ltac run :=
  unfold switchRole, switchMode, switchToDrp, notifyRoleSwitchStatus,
    appendRoleNodeHelper, WriteStringToFile, ReadFileToString, access, opendir,
    pthread_mutex_lock, pthread_mutex_unlock, pthread_mutex_trylock,
    pthread_cond_signal, store_mPartnerUp, when, get_usb, modify_usb, emit, ask,
    bind, ret; simpl.

Section Coordinator.

Context {codes : RoleCodes}.
Variable PORT_TYPE_TIMEOUT : Z.
Variable W : World.

Lemma appendRoleNodeHelper_bad portName ty st :
  bad_port_name portName -> appendRoleNodeHelper W portName ty st = ("", st).
Proof.
  intros H%bad_port_name_check. unfold appendRoleNodeHelper. by rewrite H.
Qed.

(** Path resolution on a good name and an axis: a role node of that
    port, after at most one [access] and nothing else. *)
Lemma appendRoleNodeHelper_good portName ty st :
  ~ bad_port_name portName -> is_axis ty ->
  exists filename,
    is_role_node portName ty filename /\
    String.eqb filename "" = false /\
    ((ty = MODE /\
      appendRoleNodeHelper W portName ty st =
        (filename,
         {| usb := usb st; clock := clock st; wakes := wakes st;
            trace := trace st ++
              [EvAccess (("/sys/class/typec/" +:+ portName) +:+ "/port_type")
                 (w_access W (trace st)
                    (("/sys/class/typec/" +:+ portName) +:+ "/port_type"))] |}))
     \/ (ty <> MODE /\ appendRoleNodeHelper W portName ty st = (filename, st))).
Proof.
  intros Hgood Hax. unfold appendRoleNodeHelper.
  destruct (String.eqb portName ".." ||
            bool_decide (is_Some (Str.find_char "/" portName))) eqn:E.
  { by apply bad_port_name_check in E. }
  destruct Hax as [-> | [-> | ->]].
  - eexists; split; [done|]. split; [done|]. by right.
  - eexists; split; [done|]. split; [done|]. by right.
  - run. destruct (w_access W (trace st) _).
    + eexists; split; [by left|]. split; [done|]. by left.
    + eexists; split; [by right|]. split; [done|]. by left.
Qed.

Lemma convertRoletoString_none r :
  ~ recognized r -> convertRoletoString r = "none".
Proof.
  unfold recognized, convertRoletoString. intros H.
  destruct (type r); [| | |done];
    repeat match goal with
           | |- context [?a =? ?b] => destruct (Z.eqb_spec a b)
           end; try done; exfalso; apply H; tauto.
Qed.

(** ** The timed wait *)

Lemma ts_ltb_deadline_mono t a b :
  ts_ltb t (deadline PORT_TYPE_TIMEOUT a) = true ->
  ts_ltb t (deadline PORT_TYPE_TIMEOUT (ts_max a b)) = true.
Proof.
  unfold ts_max. destruct (ts_ltb a b) eqn:E; [|done].
  unfold ts_ltb, deadline in *; simpl in *. lia.
Qed.

Lemma waits_only d :
  Forall is_wait d ->
  writes d = [] /\ reads d = [] /\ stores d = [] /\ outcomes d = [] /\
  snapshots d = [].
Proof.
  induction 1 as [|e d He _ IH]; [done|].
  by destruct e.
Qed.

(** What the loop adds to the trace: timed waits only, one per wake-up
    it consumes, and a last one that times out exactly when it gives up. *)
Lemma wait_again_trace ws st :
  exists (n : nat) (d : list event),
    trace (wait_again PORT_TYPE_TIMEOUT ws st).2 = trace st ++ d /\
    Forall is_wait d /\
    waits d = replicate n false ++
              (if (wait_again PORT_TYPE_TIMEOUT ws st).1 then [] else [true]) /\
    (wakes st = ws -> wakes (wait_again PORT_TYPE_TIMEOUT ws st).2 = drop n ws) /\
    (n <= length ws)%nat.
Proof.
  revert st. induction ws as [|w ws IH]; intros st; simpl.
  - exists O. eexists. split; [done|]. split; [by repeat constructor|].
    split; [done|]. split; [done|lia].
  - destruct (ts_ltb (wk_time w) _) eqn:Hlt; simpl.
    + destruct (negb _) eqn:Hup.
      * destruct (IH (woken {| tv_sec := tv_sec (clock st) + PORT_TYPE_TIMEOUT;
                               tv_nsec := tv_nsec (clock st) |} w ws st))
          as (n & d & Htr & Hd & Hw & Hwk & Hn).
        exists (S n), (EvTimedWait (deadline PORT_TYPE_TIMEOUT (clock st)) false :: d).
        split; [by rewrite Htr; simpl; rewrite <- app_assoc|].
        split; [by constructor|].
        split; [exact (f_equal (cons false) Hw)|].
        split; [intros _; by apply Hwk|lia].
      * exists 1%nat. eexists. split; [done|]. split; [by repeat constructor|].
        split; [done|]. split; [done|lia].
    + exists O. eexists. split; [done|]. split; [by repeat constructor|].
      split; [done|]. split; [done|lia].
Qed.

(** The loop leaves every member but [mPartnerUp] alone. *)
Lemma wait_again_usb ws st :
  let u' := usb (wait_again PORT_TYPE_TIMEOUT ws st).2 in
  mCallback_1_0 u' = mCallback_1_0 (usb st) /\
  mContaminantPresence u' = mContaminantPresence (usb st) /\
  mContaminantStatusPath u' = mContaminantStatusPath (usb st).
Proof.
  revert st. induction ws as [|w ws IH]; intros st; simpl; [done|].
  destruct (ts_ltb (wk_time w) _); simpl; [|done].
  destruct (negb _).
  - destruct (IH (woken {| tv_sec := tv_sec (clock st) + PORT_TYPE_TIMEOUT;
                           tv_nsec := tv_nsec (clock st) |} w ws st))
      as (-> & -> & ->).
    simpl. by destruct (wk_partner w).
  - simpl. by destruct (wk_partner w).
Qed.

(** The loop reports success only with the flag set. *)
Lemma wait_again_true ws st :
  (wait_again PORT_TYPE_TIMEOUT ws st).1 = true ->
  mPartnerUp (usb (wait_again PORT_TYPE_TIMEOUT ws st).2) = true.
Proof.
  revert st. induction ws as [|w ws IH]; intros st; simpl; [done|].
  destruct (ts_ltb (wk_time w) _); simpl; [|done].
  destruct (negb _) eqn:Hup; [by apply IH|].
  intros _. simpl. by apply negb_false_iff in Hup.
Qed.


(** A confirmation that comes before the first deadline is seen, however
    many spurious wake-ups come before it. *)
Lemma wait_again_confirmed sp w rest st :
  Forall spurious sp -> wk_partner w = true ->
  Forall (fun x => ts_ltb (wk_time x) (deadline PORT_TYPE_TIMEOUT (clock st)) = true)
         (sp ++ [w]) ->
  mPartnerUp (usb st) = false ->
  (wait_again PORT_TYPE_TIMEOUT (sp ++ w :: rest) st).1 = true.
Proof.
  intros Hsp Hw. revert st.
  induction Hsp as [|x sp Hx _ IH]; intros st Hbefore Hup; simpl.
  - apply Forall_cons in Hbefore as [Hlt _]. unfold deadline in Hlt.
    rewrite Hlt. simpl. by rewrite Hw.
  - apply Forall_cons in Hbefore as [Hlt Hbefore]. unfold deadline in Hlt.
    rewrite Hlt. simpl. unfold spurious in Hx. rewrite Hx, Hup. simpl.
    apply IH; simpl; [|by rewrite Hx].
    eapply Forall_impl; [exact Hbefore|]. intros y Hy.
    by apply ts_ltb_deadline_mono.
Qed.

(** ** The deadline in force *)

Lemma timed_waits_app a b : timed_waits (a ++ b) = timed_waits a ++ timed_waits b.
Proof. apply omap_app. Qed.

Lemma timed_waits_events l : timed_waits (wait_event <$> l) = l.
Proof. induction l as [|[to r] l IH]; [done|]. exact (f_equal (cons (to, r)) IH). Qed.

Lemma waits_events l : waits (wait_event <$> l) = l.*2.
Proof. induction l as [|[to r] l IH]; [done|]. exact (f_equal (cons r) IH). Qed.


Lemma rearmed_woken now ws : (rearmed PORT_TYPE_TIMEOUT now ws).*2 = replicate (length ws) false.
Proof.
  revert now. induction ws as [|w ws IH]; intros now; [done|].
  simpl. by rewrite IH.
Qed.


(** The deadline of the wait that follows the [i]-th wake-up is a full
    timeout after the time of that wake-up. *)
Lemma rearmed_lookup now ws last i w :
  ws !! i = Some w ->
  exists r,
    (rearmed PORT_TYPE_TIMEOUT now ws ++
     [(deadline PORT_TYPE_TIMEOUT (armed_at now ws), last)]) !! S i =
    Some (deadline PORT_TYPE_TIMEOUT (ts_max (armed_at now (take i ws)) (wk_time w)), r).
Proof.
  revert now i. induction ws as [|x ws IH]; intros now i Hi; [done|].
  destruct i as [|i]; simpl in *.
  - injection Hi as ->. destruct ws as [|y ws]; simpl; by eexists.
  - by apply IH.
Qed.

(** Wake-ups without the confirmation that come in time are consumed one
    by one; each leaves the loop to start afresh at the time of the
    wake-up. *)
Lemma wait_again_in_time sp ws st :
  Forall spurious sp -> in_time PORT_TYPE_TIMEOUT (clock st) sp ->
  mPartnerUp (usb st) = false ->
  exists st1,
    wait_again PORT_TYPE_TIMEOUT (sp ++ ws) st = wait_again PORT_TYPE_TIMEOUT ws st1 /\
    trace st1 = trace st ++ (wait_event <$> rearmed PORT_TYPE_TIMEOUT (clock st) sp) /\
    clock st1 = armed_at (clock st) sp /\
    mPartnerUp (usb st1) = false.
Proof.
  intros Hsp. revert st. induction Hsp as [|w sp Hw _ IH]; intros st Hin Hup.
  - exists st. simpl. by rewrite app_nil_r.
  - destruct Hin as [Hlt Hin].
    destruct (IH (woken (deadline PORT_TYPE_TIMEOUT (clock st)) w (sp ++ ws) st))
      as (st1 & Hrun & Htr & Hck & Hup1).
    { exact Hin. }
    { simpl. unfold spurious in Hw. by rewrite Hw. }
    exists st1. split; [|split; [|split; [|done]]].
    + rewrite <- Hrun. simpl. unfold deadline in Hlt. rewrite Hlt. simpl.
      unfold spurious in Hw. by rewrite Hw, Hup.
    + rewrite Htr. simpl. by rewrite <- app_assoc.
    + exact Hck.
Qed.

(** The loop gives up at the first deadline that no wake-up comes before,
    confirmation or not. *)
Lemma wait_again_late ws st :
  late PORT_TYPE_TIMEOUT (clock st) ws ->
  wait_again PORT_TYPE_TIMEOUT ws st =
    (false, timed_out (deadline PORT_TYPE_TIMEOUT (clock st)) st).
Proof.
  intros Hlate. destruct ws as [|w ws]; [done|].
  simpl. specialize (Hlate w eq_refl). unfold deadline in Hlate. by rewrite Hlate.
Qed.


(** The two ways a wait can go: a confirmation comes in time, after
    wake-ups without it that came in time as well; or, after such
    wake-ups, nothing comes before the deadline in force. *)
Lemma wakes_cases now ws :
  (exists sp w rest,
     ws = sp ++ w :: rest /\ Forall spurious sp /\ wk_partner w = true /\
     in_time PORT_TYPE_TIMEOUT now (sp ++ [w])) \/
  (exists sp rest,
     ws = sp ++ rest /\ Forall spurious sp /\ in_time PORT_TYPE_TIMEOUT now sp /\
     late PORT_TYPE_TIMEOUT (armed_at now sp) rest).
Proof.
  revert now. induction ws as [|w ws IH]; intros now.
  - right. exists [], []. split; [done|]. split; [done|]. split; [done|]. by intros w.
  - destruct (ts_ltb (wk_time w) (deadline PORT_TYPE_TIMEOUT now)) eqn:Hlt.
    + destruct (wk_partner w) eqn:Hw.
      * left. exists [], w, ws. simpl. by repeat split.
      * destruct (IH (ts_max now (wk_time w)))
          as [(sp & x & rest & -> & Hsp & Hx & Hin) | (sp & rest & -> & Hsp & Hin & Hl)].
        -- left. exists (w :: sp), x, rest. split; [done|].
           split; [by constructor|]. split; [done|]. simpl. by split.
        -- right. exists (w :: sp), rest. split; [done|].
           split; [by constructor|]. split; [simpl; by split|done].
    + right. exists [], (w :: ws). split; [done|]. split; [done|]. split; [done|].
      intros x [= <-]. done.
Qed.


Lemma wait_again_expired sp rest st :
  Forall spurious sp -> in_time PORT_TYPE_TIMEOUT (clock st) sp ->
  late PORT_TYPE_TIMEOUT (armed_at (clock st) sp) rest ->
  mPartnerUp (usb st) = false ->
  (wait_again PORT_TYPE_TIMEOUT (sp ++ rest) st).1 = false /\
  trace (wait_again PORT_TYPE_TIMEOUT (sp ++ rest) st).2 =
    trace st ++
    (wait_event <$> rearmed PORT_TYPE_TIMEOUT (clock st) sp ++
       [(deadline PORT_TYPE_TIMEOUT (armed_at (clock st) sp), true)]) /\
  clock (wait_again PORT_TYPE_TIMEOUT (sp ++ rest) st).2 =
    ts_max (armed_at (clock st) sp)
           (deadline PORT_TYPE_TIMEOUT (armed_at (clock st) sp)).
Proof.
  intros Hsp Hin Hlate Hup.
  destruct (wait_again_in_time sp rest st Hsp Hin Hup)
    as (st1 & -> & Htr & Hck & Hup1).
  rewrite <- Hck in Hlate. rewrite (wait_again_late rest st1 Hlate). simpl.
  split; [done|]. split.
  - rewrite Htr, fmap_app, <- app_assoc, <- Hck. done.
  - by rewrite Hck.
Qed.

(** ** One run of [switchMode] *)

Lemma appendRoleNodeHelper_run portName ty st :
  ~ bad_port_name portName -> is_axis ty ->
  exists filename pre,
    is_role_node portName ty filename /\ is_probe portName ty pre /\
    String.eqb filename "" = false /\
    appendRoleNodeHelper W portName ty st = (filename, log pre st).
Proof.
  intros Hgood Hax.
  destruct (appendRoleNodeHelper_good portName ty st Hgood Hax)
    as (filename & Hnode & Hne & [[-> ->] | [Hty ->]]).
  - eexists _, _. split; [done|]. split; [by eexists|]. done.
  - exists filename, []. split; [done|]. split.
    + destruct Hax as [-> | [-> | ->]]; done.
    + split; [done|]. unfold log. destruct st; simpl. by rewrite app_nil_r.
Qed.

Lemma switchToDrp_run portName st :
  ~ bad_port_name portName ->
  exists fb, is_fallback portName fb /\ switchToDrp W portName st = (tt, log fb st).
Proof.
  intros Hgood.
  destruct (appendRoleNodeHelper_run portName MODE st Hgood)
    as (filename & pre & Hnode & [a ->] & _ & Hrun); [unfold is_axis; tauto|].
  unfold switchToDrp, bind. rewrite Hrun. run.
  eexists. split; [by eexists _, _, _|].
  unfold log; simpl. by rewrite <- app_assoc.
Qed.

Lemma switchMode_run portName newRole st :
  ~ bad_port_name (Str.c_str portName) -> is_axis (type newRole) ->
  exists filename pre ok fb,
    is_role_node (Str.c_str portName) (type newRole) filename /\
    is_probe (Str.c_str portName) (type newRole) pre /\
    ok = w_write W (trace st ++ pre ++ [EvLock mPartnerLock; EvStorePartnerUp false])
           filename (convertRoletoString newRole) /\
    let st1 := written pre (convertRoletoString newRole) filename ok st in
    let w := if ok then wait_again PORT_TYPE_TIMEOUT (wakes st) st1 else (false, st1) in
    (if w.1 then fb = [] else is_fallback (Str.c_str portName) fb) /\
    switchMode PORT_TYPE_TIMEOUT W portName newRole st =
      (w.1, log (EvUnlock mPartnerLock :: fb) w.2).
Proof.
  intros Hgood Hax.
  destruct (appendRoleNodeHelper_run (Str.c_str portName) (type newRole) st Hgood Hax)
    as (filename & pre & Hnode & Hpre & Hne & Hrun).
  set (ok := w_write W (trace st ++ pre ++ [EvLock mPartnerLock; EvStorePartnerUp false])
               filename (convertRoletoString newRole)).
  assert (Hw : exists fb,
    let st1 := written pre (convertRoletoString newRole) filename ok st in
    let w := if ok then wait_again PORT_TYPE_TIMEOUT (wakes st) st1 else (false, st1) in
    (if w.1 then fb = [] else is_fallback (Str.c_str portName) fb) /\
    switchMode PORT_TYPE_TIMEOUT W portName newRole st =
      (w.1, log (EvUnlock mPartnerLock :: fb) w.2)).
  { unfold switchMode, bind at 1. rewrite Hrun, Hne.
    unfold bind, pthread_mutex_lock, pthread_mutex_unlock, store_mPartnerUp,
      WriteStringToFile, emit, ask, modify_usb, ret, when, log, written; simpl.
    rewrite <- !app_assoc; simpl. fold ok.
    assert (Hfb : forall st2 : State, exists fb,
              is_fallback (Str.c_str portName) fb /\
              (let (_, st'0) :=
                 switchToDrp W (Str.c_str portName)
                   {| usb := usb st2; clock := clock st2; wakes := wakes st2;
                      trace := trace st2 ++ [EvUnlock mPartnerLock] |} in
               (false, st'0)) =
              (false, {| usb := usb st2; clock := clock st2; wakes := wakes st2;
                         trace := trace st2 ++ EvUnlock mPartnerLock :: fb |})).
    { intros st2.
      destruct (switchToDrp_run (Str.c_str portName)
                  {| usb := usb st2; clock := clock st2; wakes := wakes st2;
                     trace := trace st2 ++ [EvUnlock mPartnerLock] |} Hgood)
        as (fb & Hfb & ->).
      exists fb. split; [done|]. unfold log; simpl. by rewrite <- app_assoc. }
    destruct ok; simpl.
    - destruct (wait_again _ _ _) as [[] st2]; simpl.
      + by exists [].
      + apply Hfb.
    - apply (Hfb {| usb := set_mPartnerUp false (usb st); clock := clock st;
                    wakes := wakes st;
                    trace := trace st ++ pre ++
                      [EvLock mPartnerLock; EvStorePartnerUp false;
                       EvWrite (convertRoletoString newRole) filename false] |}). }
  destruct Hw as (fb & Hfb & Hsw).
  by exists filename, pre, ok, fb.
Qed.

(** The whole trace of a run of [switchMode] on a good port name, and
    how its result, clock and flag relate to those of the wait loop. *)
Lemma switchMode_trace portName newRole st :
  ~ bad_port_name (Str.c_str portName) -> is_axis (type newRole) ->
  exists filename pre ok n d fb,
    let res := switchMode PORT_TYPE_TIMEOUT W portName newRole st in
    let st1 := written pre (convertRoletoString newRole) filename ok st in
    is_role_node (Str.c_str portName) (type newRole) filename /\
    is_probe (Str.c_str portName) (type newRole) pre /\
    ok = w_write W (trace st ++ pre ++ [EvLock mPartnerLock; EvStorePartnerUp false])
           filename (convertRoletoString newRole) /\
    trace res.2 =
      trace st ++ pre ++
      [EvLock mPartnerLock; EvStorePartnerUp false;
       EvWrite (convertRoletoString newRole) filename ok] ++
      d ++ [EvUnlock mPartnerLock] ++ fb /\
    Forall is_wait d /\
    (if res.1 then fb = [] else is_fallback (Str.c_str portName) fb) /\
    (if ok
     then res.1 = (wait_again PORT_TYPE_TIMEOUT (wakes st) st1).1 /\
          waits d = replicate n false ++ (if res.1 then [] else [true]) /\
          (n <= length (wakes st))%nat /\
          wakes res.2 = drop n (wakes st) /\
          clock res.2 = clock (wait_again PORT_TYPE_TIMEOUT (wakes st) st1).2 /\
          usb res.2 = usb (wait_again PORT_TYPE_TIMEOUT (wakes st) st1).2 /\
          trace (wait_again PORT_TYPE_TIMEOUT (wakes st) st1).2 = trace st1 ++ d
     else res.1 = false /\ d = [] /\ wakes res.2 = wakes st /\
          clock res.2 = clock st /\ usb res.2 = set_mPartnerUp false (usb st)).
Proof.
  intros Hgood Hax.
  destruct (switchMode_run portName newRole st Hgood Hax)
    as (filename & pre & ok & fb & Hnode & Hpre & Hok & Hfb & Hrun).
  simpl in Hfb, Hrun.
  destruct ok eqn:Eok.
  - destruct (wait_again_trace (wakes st)
                (written pre (convertRoletoString newRole) filename true st))
      as (n & d & Htr & Hd & Hw & Hwk & Hn).
    exists filename, pre, true, n, d, fb. simpl.
    rewrite Hrun; simpl. rewrite Htr.
    split; [done|]. split; [done|]. split; [done|].
    split; [by unfold written; simpl; rewrite <- !app_assoc|].
    split; [done|]. split; [done|].
    split; [done|]. split; [done|]. split; [done|].
    split; [by apply Hwk|]. done.
  - exists filename, pre, false, O, [], fb. simpl.
    rewrite Hrun; simpl.
    split; [done|]. split; [done|]. split; [done|].
    split; [by rewrite <- !app_assoc|].
    split; [done|]. split; [done|]. done.
Qed.

Lemma writes_app a b : writes (a ++ b) = writes a ++ writes b.
Proof. apply omap_app. Qed.
Lemma waits_app a b : waits (a ++ b) = waits a ++ waits b.
Proof. apply omap_app. Qed.
Lemma stores_app a b : stores (a ++ b) = stores a ++ stores b.
Proof. apply omap_app. Qed.
Lemma reads_app a b : reads (a ++ b) = reads a ++ reads b.
Proof. apply omap_app. Qed.
Lemma outcomes_app a b : outcomes (a ++ b) = outcomes a ++ outcomes b.
Proof. apply omap_app. Qed.
Lemma snapshots_app a b : snapshots (a ++ b) = snapshots a ++ snapshots b.
Proof. apply omap_app. Qed.

Lemma is_probe_quiet portName ty pre :
  is_probe portName ty pre ->
  writes pre = [] /\ waits pre = [] /\ stores pre = [] /\ reads pre = [] /\
  outcomes pre = [].
Proof. destruct ty; simpl; try (by intros ->). by intros [a ->]. Qed.

Lemma is_fallback_writes portName fb :
  is_fallback portName fb ->
  waits fb = [] /\ stores fb = [] /\ reads fb = [] /\ outcomes fb = [] /\
  exists filename,
    is_role_node portName MODE filename /\ writes fb = [("dual", filename)].
Proof. intros (a & filename & ok & -> & Hnode). repeat split. by exists filename. Qed.

Lemma is_probe_no_wait portName ty pre :
  is_probe portName ty pre -> timed_waits pre = [].
Proof. destruct ty; simpl; try (by intros ->). by intros [a ->]. Qed.

Lemma is_fallback_no_wait portName fb :
  is_fallback portName fb -> timed_waits fb = [].
Proof. by intros (a & filename & ok & -> & _). Qed.

(** The timed waits of a Mode-axis switch whose write is accepted are
    those of the wait loop. *)
Lemma switchMode_timed_waits portName newRole st tw :
  ~ bad_port_name (Str.c_str portName) -> type newRole = MODE ->
  (forall tr f, is_role_node (Str.c_str portName) MODE f ->
                w_write W tr f (convertRoletoString newRole) = true) ->
  (forall st1,
     clock st1 = clock st -> mPartnerUp (usb st1) = false ->
     trace (wait_again PORT_TYPE_TIMEOUT (wakes st) st1).2 =
       trace st1 ++ (wait_event <$> tw)) ->
  timed_waits (trace (switchMode PORT_TYPE_TIMEOUT W portName newRole st).2) =
    timed_waits (trace st) ++ tw /\
  waits (trace (switchMode PORT_TYPE_TIMEOUT W portName newRole st).2) =
    waits (trace st) ++ tw.*2 /\
  exists st1,
    clock st1 = clock st /\ mPartnerUp (usb st1) = false /\
    (switchMode PORT_TYPE_TIMEOUT W portName newRole st).1 =
      (wait_again PORT_TYPE_TIMEOUT (wakes st) st1).1 /\
    clock (switchMode PORT_TYPE_TIMEOUT W portName newRole st).2 =
      clock (wait_again PORT_TYPE_TIMEOUT (wakes st) st1).2.
Proof.
  intros Hgood Hty Hacc Hloop.
  assert (Hax : is_axis (type newRole)) by (unfold is_axis; tauto).
  destruct (switchMode_trace portName newRole st Hgood Hax)
    as (filename & pre & ok & n & d & fb & Hnode & Hpre & Hok & Htr & Hd & Hfb & Hres).
  cbv zeta in Htr, Hfb, Hres. rewrite Hty in Hnode.
  rewrite (Hacc _ _ Hnode) in Hok. subst ok.
  destruct Hres as (Hr & Hw & Hn & Hwk & Hck & Hu & Htw).
  set (st1 := written pre (convertRoletoString newRole) filename true st) in *.
  rewrite (Hloop st1 eq_refl eq_refl) in Htw. apply app_inv_head in Htw. subst d.
  assert (Hfbw : timed_waits fb = [] /\ waits fb = []).
  { destruct (switchMode _ _ _ _ _).1; [by subst fb|].
    split; [by eapply is_fallback_no_wait|].
    by destruct (is_fallback_writes _ _ Hfb) as (-> & _). }
  destruct Hfbw as [Hf1 Hf2].
  destruct (is_probe_quiet _ _ _ Hpre) as (_ & Hp2 & _).
  split; [|split].
  - rewrite Htr, !timed_waits_app, (is_probe_no_wait _ _ _ Hpre), timed_waits_events, Hf1.
    simpl. by rewrite !app_nil_r.
  - rewrite Htr, !waits_app, Hp2, waits_events, Hf2. simpl. by rewrite !app_nil_r.
  - exists st1. done.
Qed.


(** ** How long the wait lasts *)

Lemma ts_max_sec a b : tv_sec a <= tv_sec (ts_max a b).
Proof.
  unfold ts_max. destruct (ts_ltb a b) eqn:E; [|lia].
  unfold ts_ltb in E. lia.
Qed.

Lemma ts_max_deadline now :
  0 <= PORT_TYPE_TIMEOUT ->
  tv_sec (ts_max now (deadline PORT_TYPE_TIMEOUT now)) = tv_sec now + PORT_TYPE_TIMEOUT /\
  tv_nsec (ts_max now (deadline PORT_TYPE_TIMEOUT now)) = tv_nsec now.
Proof.
  intros HT. unfold ts_max.
  destruct (ts_ltb now (deadline PORT_TYPE_TIMEOUT now)) eqn:E; [done|].
  unfold ts_ltb, deadline in E; simpl in E. lia.
Qed.

Lemma ts_max_woken now t :
  0 <= PORT_TYPE_TIMEOUT ->
  ts_ltb t (deadline PORT_TYPE_TIMEOUT now) = true ->
  tv_sec (ts_max now t) <= tv_sec now + PORT_TYPE_TIMEOUT.
Proof.
  intros HT Hlt. unfold ts_max. destruct (ts_ltb now t); [|lia].
  unfold ts_ltb, deadline in Hlt; simpl in Hlt. lia.
Qed.

(** A wake-up that finds the flag unset starts the loop afresh at the time
    of that wake-up: the next deadline is a full timeout later. *)
Lemma wait_again_restart w ws st :
  spurious w -> mPartnerUp (usb st) = false ->
  ts_ltb (wk_time w) (deadline PORT_TYPE_TIMEOUT (clock st)) = true ->
  wait_again PORT_TYPE_TIMEOUT (w :: ws) st =
    wait_again PORT_TYPE_TIMEOUT ws
      (woken (deadline PORT_TYPE_TIMEOUT (clock st)) w ws st) /\
  clock (woken (deadline PORT_TYPE_TIMEOUT (clock st)) w ws st) =
    ts_max (clock st) (wk_time w).
Proof.
  intros Hw Hup Hlt. split; [|done]. simpl. unfold deadline in Hlt.
  rewrite Hlt. simpl. unfold spurious in Hw. by rewrite Hw, Hup.
Qed.

(** With [n] spurious wake-ups delivered, the loop times out between one
    and [n + 1] timeouts after it was entered. *)
Lemma wait_again_clock ws st :
  0 <= PORT_TYPE_TIMEOUT ->
  Forall spurious ws -> mPartnerUp (usb st) = false ->
  exists (n : nat) (d : list event),
    trace (wait_again PORT_TYPE_TIMEOUT ws st).2 = trace st ++ d /\
    waits d = replicate n false ++ [true] /\
    (n <= length ws)%nat /\
    tv_sec (clock st) + PORT_TYPE_TIMEOUT
      <= tv_sec (clock (wait_again PORT_TYPE_TIMEOUT ws st).2)
      <= tv_sec (clock st) + (Z.of_nat n + 1) * PORT_TYPE_TIMEOUT.
Proof.
  intros HT Hsp. revert st.
  induction Hsp as [|w ws Hw Hsp IH]; intros st Hup.
  - exists O. eexists. simpl. split; [done|]. split; [done|]. split; [done|].
    destruct (ts_max_deadline (clock st) HT) as [Hs _]. unfold deadline in Hs.
    rewrite Hs. lia.
  - destruct (ts_ltb (wk_time w) (deadline PORT_TYPE_TIMEOUT (clock st))) eqn:Hlt.
    + destruct (wait_again_restart w ws st Hw Hup Hlt) as [-> Hck].
      destruct (IH (woken (deadline PORT_TYPE_TIMEOUT (clock st)) w ws st))
        as (n & d & Htr & Hwd & Hn & Hb).
      { simpl. unfold spurious in Hw. by rewrite Hw. }
      exists (S n), (EvTimedWait (deadline PORT_TYPE_TIMEOUT (clock st)) false :: d).
      split; [by rewrite Htr; simpl; rewrite <- app_assoc|].
      split; [exact (f_equal (cons false) Hwd)|].
      split; [simpl; lia|].
      rewrite Hck in Hb.
      pose proof (ts_max_sec (clock st) (wk_time w)).
      pose proof (ts_max_woken (clock st) (wk_time w) HT Hlt).
      nia.
    + exists O. eexists. simpl. unfold deadline in Hlt. rewrite Hlt. simpl.
      split; [done|]. split; [done|]. split; [lia|].
      destruct (ts_max_deadline (clock st) HT) as [Hs _]. unfold deadline in Hs.
      rewrite Hs. lia.
Qed.

(** C1, as the code has it. On a Mode-axis switch whose write is accepted
    and whose confirmation flag is never set, every wake-up that finds the
    flag unset restarts the full timeout from the time of that wake-up:
    the timed waits of the switch are given, one after the other, the
    deadline of PORT_TYPE_TIMEOUT seconds after the time at which the
    waiter last ran, and not the deadline of the first wait. The switch
    reports failure when the last of these deadlines passes, which is
    PORT_TYPE_TIMEOUT seconds after the last wake-up that came in time;
    with [n] such wake-ups the time spent waiting lies between
    PORT_TYPE_TIMEOUT and (n + 1) * PORT_TYPE_TIMEOUT seconds. *)
Theorem switchMode_timeout_restarts portName newRole st :
  ~ bad_port_name (Str.c_str portName) -> type newRole = MODE ->
  0 <= PORT_TYPE_TIMEOUT ->
  (forall tr f, is_role_node (Str.c_str portName) MODE f ->
                w_write W tr f (convertRoletoString newRole) = true) ->
  Forall spurious (wakes st) ->
  let res := switchMode PORT_TYPE_TIMEOUT W portName newRole st in
  res.1 = false /\
  exists n : nat,
    let served := take n (wakes st) in
    let last := armed_at (clock st) served in
    let tw := rearmed PORT_TYPE_TIMEOUT (clock st) served ++
              [(deadline PORT_TYPE_TIMEOUT last, true)] in
    (n <= length (wakes st))%nat /\
    in_time PORT_TYPE_TIMEOUT (clock st) served /\
    late PORT_TYPE_TIMEOUT last (drop n (wakes st)) /\
    timed_waits (trace res.2) = timed_waits (trace st) ++ tw /\
    (forall i w,
       served !! i = Some w ->
       exists r,
         tw !! S i =
         Some (deadline PORT_TYPE_TIMEOUT
                 (ts_max (armed_at (clock st) (take i served)) (wk_time w)), r)) /\
    clock res.2 = ts_max last (deadline PORT_TYPE_TIMEOUT last) /\
    tv_sec (clock res.2) = tv_sec last + PORT_TYPE_TIMEOUT /\
    waits (trace res.2) = waits (trace st) ++ replicate n false ++ [true] /\
    tv_sec (clock st) + PORT_TYPE_TIMEOUT
      <= tv_sec (clock res.2)
      <= tv_sec (clock st) + (Z.of_nat n + 1) * PORT_TYPE_TIMEOUT.
Proof.
  intros Hgood Hty HT Hacc Hsp res.
  destruct (wakes_cases (clock st) (wakes st))
    as [(sp & w & rest & Hwakes & _ & Hw & _) | (sp & rest & Hwakes & Hsp' & Hin & Hlate)].
  { rewrite Hwakes in Hsp. apply Forall_app in Hsp as [_ Hsp].
    apply Forall_cons in Hsp as [Hsp _]. unfold spurious in Hsp. congruence. }
  destruct (switchMode_timed_waits portName newRole st
              (rearmed PORT_TYPE_TIMEOUT (clock st) sp ++
               [(deadline PORT_TYPE_TIMEOUT (armed_at (clock st) sp), true)])
              Hgood Hty Hacc)
    as (Htw & Hws & st1 & Hc1 & Hu1 & Hr1 & Hk1).
  { intros st1 Hc1 Hu1. rewrite Hwakes, <- Hc1.
    apply wait_again_expired; [done|by rewrite Hc1|by rewrite Hc1|done]. }
  fold res in Htw, Hws, Hr1, Hk1.
  destruct (wait_again_expired sp rest st1 Hsp') as (Hfalse & _ & Hclock);
    [by rewrite Hc1|by rewrite Hc1|done|].
  rewrite <- Hwakes in Hfalse, Hclock. rewrite Hc1 in Hclock.
  destruct (wait_again_clock (wakes st) st1 HT Hsp Hu1)
    as (n' & d' & Htr' & Hwd' & Hn' & Hb).
  destruct (wait_again_expired sp rest st1 Hsp') as (_ & Htr1 & _);
    [by rewrite Hc1|by rewrite Hc1|done|].
  rewrite <- Hwakes in Htr1. rewrite Htr1 in Htr'. apply app_inv_head in Htr'.
  subst d'. rewrite waits_events, fmap_app, rearmed_woken in Hwd'. simpl in Hwd'.
  assert (n' = length sp) as ->.
  { apply (f_equal length) in Hwd'.
    rewrite !length_app, !length_replicate in Hwd'. simpl in Hwd'. lia. }
  split; [by rewrite Hr1|].
  exists (length sp).
  assert (Htake : take (length sp) (wakes st) = sp).
  { rewrite Hwakes. by rewrite take_app_length. }
  assert (Hdrop : drop (length sp) (wakes st) = rest).
  { rewrite Hwakes. by rewrite drop_app_length. }
  cbv zeta. rewrite Htake, Hdrop.
  split; [rewrite Hwakes, length_app; lia|].
  split; [done|]. split; [done|]. split; [done|].
  split; [intros i w Hi; by apply rearmed_lookup|].
  split; [by rewrite Hk1|].
  split.
  { rewrite Hk1, Hclock.
    by destruct (ts_max_deadline (armed_at (clock st) sp) HT) as [-> _]. }
  split.
  { rewrite Hws, fmap_app, rearmed_woken. done. }
  rewrite Hk1. rewrite Hc1 in Hb. exact Hb.
Qed.

(** ** One run of [switchRole] *)

(** The whole run of a data or power role switch: write, read back,
    compare, notify. *)
Lemma switchRole_direct portName newRole st :
  ~ bad_port_name (Str.c_str portName) ->
  type newRole = DATA_ROLE \/ type newRole = POWER_ROLE ->
  let filename := direct_node (Str.c_str portName) (type newRole) in
  let s := convertRoletoString newRole in
  let ok := w_write W (trace st ++ [EvLock mRoleSwitchLock]) filename s in
  let r := w_read W (trace st ++ [EvLock mRoleSwitchLock; EvWrite s filename true])
             filename in
  let roleSwitch :=
    ok && match r with
          | Some written => String.eqb (extractRole written) s
          | None => false
          end in
  switchRole PORT_TYPE_TIMEOUT W portName newRole st =
    (tt, log ([EvLock mRoleSwitchLock; EvWrite s filename ok] ++
              (if ok then [EvRead filename r] else []) ++
              [EvLock mLock] ++ notification (usb st) portName newRole roleSwitch ++
              [EvUnlock mLock; EvUnlock mRoleSwitchLock]) st).
Proof.
  intros Hgood Hty. rewrite bad_port_name_check in Hgood.
  apply not_true_is_false in Hgood.
  unfold switchRole, appendRoleNodeHelper, notification, direct_node. rewrite Hgood.
  destruct Hty as [-> | ->]; run; rewrite <- ?app_assoc; simpl;
    destruct (w_write W _ _ _); simpl; rewrite <- ?app_assoc; simpl;
    [destruct (w_read W _ _) as [written|]; simpl| |
     destruct (w_read W _ _) as [written|]; simpl|];
    destruct (mCallback_1_0 (usb st)); unfold log; simpl;
    rewrite <- ?app_assoc; done.
Qed.

(** C2, as the code has it. A DataRole switch whose write is accepted
    never waits for a partner-added event: the outcome is decided at once
    by reading the node back, success exactly when the bracketed token
    read back is the requested role string and failure otherwise; the
    clock does not advance, no wake-up is consumed, and the role string is
    the only write (no fallback). *)
Theorem switchRole_data_role_reads_back portName newRole st :
  ~ bad_port_name (Str.c_str portName) -> type newRole = DATA_ROLE ->
  let filename := direct_node (Str.c_str portName) DATA_ROLE in
  let s := convertRoletoString newRole in
  w_write W (trace st ++ [EvLock mRoleSwitchLock]) filename s = true ->
  let st' := (switchRole PORT_TYPE_TIMEOUT W portName newRole st).2 in
  let readback :=
    w_read W (trace st ++ [EvLock mRoleSwitchLock; EvWrite s filename true]) filename in
  let agreed :=
    match readback with
    | Some written => String.eqb (extractRole written) s
    | None => false
    end in
  outcomes (trace st') =
    outcomes (trace st) ++
    match mCallback_1_0 (usb st) with
    | Some _ => [if agreed then SUCCESS else ERROR]
    | None => []
    end /\
  writes (trace st') = writes (trace st) ++ [(s, filename)] /\
  waits (trace st') = waits (trace st) /\
  clock st' = clock st /\ wakes st' = wakes st.
Proof.
  intros Hgood Hty filename s Hok st' readback agreed. subst st'.
  rewrite (switchRole_direct portName newRole st Hgood (or_introl Hty)).
  rewrite Hty. fold filename s. rewrite Hok. fold readback. simpl.
  unfold notification.
  rewrite outcomes_app, writes_app, waits_app.
  destruct (mCallback_1_0 (usb st)); simpl; by rewrite ?app_nil_r.
Qed.

Lemma is_wait_in_switch d : Forall is_wait d -> Forall in_switch d.
Proof. intros H. eapply Forall_impl; [exact H|]. by intros []. Qed.

Lemma is_probe_in_switch portName ty pre :
  is_probe portName ty pre -> Forall in_switch pre.
Proof.
  destruct ty; simpl; try (intros ->; constructor).
  intros [a ->]. by repeat constructor.
Qed.

Lemma is_fallback_in_switch portName fb :
  is_fallback portName fb -> Forall in_switch fb.
Proof. intros (a & f & ok & -> & _). by repeat constructor. Qed.

(** The shape of every run of [switchRole] that gets past path resolution:
    the probe, then the switch proper between taking the role switch lock
    and taking the callback lock, then the notification under both. *)
Lemma switchRole_trace portName newRole st :
  ~ bad_port_name (Str.c_str portName) -> is_axis (type newRole) ->
  exists pre body roleSwitch,
    is_probe (Str.c_str portName) (type newRole) pre /\
    Forall in_switch body /\
    (exists f rest, is_role_node (Str.c_str portName) (type newRole) f /\
                    writes body = (convertRoletoString newRole, f) :: rest) /\
    stores body = (if decide (type newRole = MODE) then [false] else []) /\
    trace (switchRole PORT_TYPE_TIMEOUT W portName newRole st).2 =
      trace st ++ pre ++ [EvLock mRoleSwitchLock] ++ body ++ [EvLock mLock] ++
      notification (usb st) portName newRole roleSwitch ++
      [EvUnlock mLock; EvUnlock mRoleSwitchLock].
Proof.
  intros Hgood Hax.
  destruct (decide (type newRole = MODE)) as [Hty|Hty].
  - destruct (appendRoleNodeHelper_run (Str.c_str portName) (type newRole) st Hgood Hax)
      as (filename & pre & Hnode & Hpre & Hne & Hrun).
    set (st1 := log [EvLock mRoleSwitchLock] (log pre st)).
    destruct (switchMode_trace portName newRole st1 Hgood Hax)
      as (f' & pre' & ok & n & d & fb & Hnode' & Hpre' & Hok & Htr & Hd & Hfb & Hres).
    destruct (switchMode PORT_TYPE_TIMEOUT W portName newRole st1) as [r st2] eqn:Hsw.
    simpl in Htr, Hfb, Hres.
    exists pre,
      (pre' ++ [EvLock mPartnerLock; EvStorePartnerUp false;
                EvWrite (convertRoletoString newRole) f' ok] ++
       d ++ [EvUnlock mPartnerLock] ++ fb), r.
    assert (Hfb' : Forall in_switch fb /\ stores fb = [] /\ writes fb = writes fb).
    { destruct r; [by subst fb|].
      split; [by eapply is_fallback_in_switch|].
      by destruct (is_fallback_writes _ _ Hfb) as (_ & -> & _). }
    destruct Hfb' as (Hfb1 & Hfb2 & _).
    destruct (is_probe_quiet _ _ _ Hpre') as (Hq1 & _ & Hq3 & _).
    destruct (waits_only d Hd) as (Hd1 & _ & Hd3 & _).
    split; [done|]. split.
    { rewrite !Forall_app. split; [by eapply is_probe_in_switch|].
      split; [by repeat constructor|]. split; [by apply is_wait_in_switch|].
      split; [by repeat constructor|done]. }
    split.
    { exists f'. eexists. split; [done|].
      rewrite !writes_app, Hq1. simpl. reflexivity. }
    split.
    { rewrite !stores_app, Hq3, Hd3, Hfb2. done. }
    assert (Hcb : mCallback_1_0 (usb st2) = mCallback_1_0 (usb st)).
    { destruct ok.
      - destruct Hres as (_ & _ & _ & _ & _ & -> & _).
        pose proof (wait_again_usb (wakes st1)
                      (written pre' (convertRoletoString newRole) f' true st1)) as Hu.
        simpl in Hu. by destruct Hu as (-> & _).
      - by destruct Hres as (_ & _ & _ & _ & ->). }
    unfold switchRole, bind at 1. rewrite Hrun, Hne.
    unfold bind at 1, pthread_mutex_lock at 1, emit at 1.
    fold (log [EvLock mRoleSwitchLock] (log pre st)).
    fold st1. rewrite Hty. unfold bind at 1. rewrite Hsw.
    unfold notifyRoleSwitchStatus, notification. run. rewrite Hcb.
    destruct (mCallback_1_0 (usb st)); simpl; rewrite Htr; unfold st1, log; simpl;
      rewrite <- !app_assoc; simpl; done.
  - assert (Hd : type newRole = DATA_ROLE \/ type newRole = POWER_ROLE)
      by (destruct Hax as [?|[?|?]]; tauto).
    rewrite (switchRole_direct portName newRole st Hgood Hd). simpl.
    set (f := direct_node (Str.c_str portName) (type newRole)).
    set (s := convertRoletoString newRole).
    set (ok := w_write W (trace st ++ [EvLock mRoleSwitchLock]) f s).
    set (r := w_read W (trace st ++ [EvLock mRoleSwitchLock; EvWrite s f true]) f).
    exists [], ([EvWrite s f ok] ++ (if ok then [EvRead f r] else [])).
    eexists.
    split; [by destruct Hd as [-> | ->]|].
    split; [|split; [|split; [|simpl; reflexivity]]].
    + destruct ok; by repeat constructor.
    + exists f. eexists. split.
      * subst f. by destruct Hd as [-> | ->].
      * simpl. reflexivity.
    + by destruct ok.
Qed.

(** A request that path resolution refuses changes nothing. *)
Lemma switch_refused portName newRole st :
  bad_port_name (Str.c_str portName) \/ ~ is_axis (type newRole) ->
  switchMode PORT_TYPE_TIMEOUT W portName newRole st = (false, st) /\
  switchRole PORT_TYPE_TIMEOUT W portName newRole st = (tt, st).
Proof.
  intros [Hbad|Hax].
  - unfold switchMode, switchRole, bind.
    by rewrite !appendRoleNodeHelper_bad.
  - assert (H : appendRoleNodeHelper W (Str.c_str portName) (type newRole) st = ("", st)).
    { unfold appendRoleNodeHelper. destruct (_ || _); [done|].
      destruct (type newRole); try done; exfalso; apply Hax; unfold is_axis; tauto. }
    unfold switchMode, switchRole, bind. by rewrite H.
Qed.

(** C6, as the code has it. Path resolution returns the empty (invalid)
    path for every name that contains '/' or is "..", on every axis,
    without touching a file. The two role-switch entry points hand it the
    port name cut at its first NUL, [std::string(portName.c_str())]: when
    that part of the name contains '/' or is "..", they give up at once
    (switchMode returns false, switchRole returns) with the state and the
    trace untouched, so no file is accessed, read or written, no lock is
    taken and nothing is notified. When that part is acceptable the switch
    goes ahead on the port it names, whatever follows the NUL. *)
Theorem invalid_port_name_no_io ty newRole st :
  (forall name,
     bad_port_name name -> appendRoleNodeHelper W name ty st = ("", st)) /\
  (forall portName,
     bad_port_name (Str.c_str portName) ->
     switchMode PORT_TYPE_TIMEOUT W portName newRole st = (false, st) /\
     switchRole PORT_TYPE_TIMEOUT W portName newRole st = (tt, st)) /\
  (forall portName,
     ~ bad_port_name (Str.c_str portName) -> is_axis (type newRole) ->
     exists d f rest,
       trace (switchRole PORT_TYPE_TIMEOUT W portName newRole st).2 = trace st ++ d /\
       EvLock mRoleSwitchLock ∈ d /\
       is_role_node (Str.c_str portName) (type newRole) f /\
       writes d = (convertRoletoString newRole, f) :: rest).
Proof.
  split; [intros name Hbad; by apply appendRoleNodeHelper_bad|]. split.
  - intros portName Hbad. apply switch_refused. by left.
  - intros portName Hgood Hax.
    destruct (switchRole_trace portName newRole st Hgood Hax)
      as (pre & body & r & Hpre & _ & (f & rest & Hnode & Hw) & _ & Htr).
    destruct (is_probe_quiet _ _ _ Hpre) as (Hq & _).
    eexists _, f, _. split; [exact Htr|]. split; [|split; [exact Hnode|]].
    + apply elem_of_app. right. apply list_elem_of_here.
    + rewrite !writes_app, Hq, Hw. simpl. reflexivity.
Qed.

(** C10. [convertRoletoString] maps every (type, role) pair outside the
    six recognised combinations to "none"; a request for such a role on a
    resolvable port and one of the three axes is therefore not refused:
    the first thing that [switchRole] and [switchMode] write is the string
    "none", to the role node of the port. *)
Theorem unrecognized_role_written_as_none newRole :
  ~ recognized newRole ->
  convertRoletoString newRole = "none" /\
  forall portName st,
    ~ bad_port_name (Str.c_str portName) -> is_axis (type newRole) ->
    (exists f rest,
       is_role_node (Str.c_str portName) (type newRole) f /\
       writes (trace (switchRole PORT_TYPE_TIMEOUT W portName newRole st).2) =
         writes (trace st) ++ ("none", f) :: rest) /\
    (exists f rest,
       is_role_node (Str.c_str portName) (type newRole) f /\
       writes (trace (switchMode PORT_TYPE_TIMEOUT W portName newRole st).2) =
         writes (trace st) ++ ("none", f) :: rest).
Proof.
  intros Hun. pose proof (convertRoletoString_none newRole Hun) as Hnone.
  split; [done|]. intros portName st Hgood Hax. split.
  - destruct (switchRole_trace portName newRole st Hgood Hax)
      as (pre & body & r & Hpre & _ & (f & rest & Hnode & Hw) & _ & ->).
    destruct (is_probe_quiet _ _ _ Hpre) as (Hq & _).
    exists f. eexists. split; [done|].
    rewrite !writes_app, Hq, Hw, Hnone. simpl. reflexivity.
  - destruct (switchMode_trace portName newRole st Hgood Hax)
      as (f & pre & ok & n & d & fb & Hnode & Hpre & _ & Htr & _).
    simpl in Htr. destruct (is_probe_quiet _ _ _ Hpre) as (Hq & _).
    exists f. eexists. split; [done|].
    rewrite Htr, !writes_app, Hq, Hnone. simpl. reflexivity.
Qed.

End Coordinator.

(** ** What an operation may add to the trace *)

Lemma log_nil st : log [] st = st.
Proof. destruct st. unfold log. simpl. by rewrite app_nil_r. Qed.

Lemma log_log d1 d2 st : log d2 (log d1 st) = log (d1 ++ d2) st.
Proof. unfold log. simpl. by rewrite app_assoc. Qed.

Lemma quiet_traces {A} P (m : M A) : quiet P m -> traces P m.
Proof. intros H st. destruct (H st) as (d & -> & Hd). by exists d. Qed.

Lemma quiet_ret {A} P (x : A) : quiet P (ret x).
Proof. intros st. exists []. by rewrite log_nil. Qed.

Lemma quiet_bind {A B} P (m : M A) (f : A -> M B) :
  quiet P m -> (forall a, quiet P (f a)) -> quiet P (bind m f).
Proof.
  intros Hm Hf st. unfold bind.
  destruct (Hm st) as (d1 & E1 & H1). destruct (m st) as [a st1]. simpl in E1. subst st1.
  destruct (Hf a (log d1 st)) as (d2 & E2 & H2).
  exists (d1 ++ d2). rewrite E2, log_log. split; [done|]. by apply Forall_app.
Qed.

Lemma quiet_ask {A} (P : event -> Prop) (q : list event -> A) (e : A -> event) :
  (forall a, P (e a)) -> quiet P (ask q e).
Proof. intros H st. eexists [_]. split; [done|]. by repeat constructor. Qed.

Lemma quiet_emit (P : event -> Prop) e : P e -> quiet P (emit e).
Proof. intros H st. exists [e]. split; [done|]. by repeat constructor. Qed.

Lemma quiet_get_usb P : quiet P get_usb.
Proof. intros st. exists []. by rewrite log_nil. Qed.

Lemma quiet_weaken {A} (P Q : event -> Prop) (m : M A) :
  (forall e, P e -> Q e) -> quiet P m -> quiet Q m.
Proof.
  intros HPQ H st. destruct (H st) as (d & E & Hd). exists d. split; [done|].
  eapply Forall_impl; [exact Hd|done].
Qed.

Lemma traces_ret {A} P (x : A) : traces P (ret x).
Proof. apply quiet_traces, quiet_ret. Qed.

Lemma traces_bind {A B} P (m : M A) (f : A -> M B) :
  traces P m -> (forall a, traces P (f a)) -> traces P (bind m f).
Proof.
  intros Hm Hf st. unfold bind.
  destruct (Hm st) as (d1 & E1 & H1). destruct (m st) as [a st1]. simpl in E1.
  destruct (Hf a st1) as (d2 & E2 & H2).
  exists (d1 ++ d2). rewrite E2, E1, app_assoc. split; [done|]. by apply Forall_app.
Qed.

Lemma traces_modify_usb P f : traces P (modify_usb f).
Proof. intros st. exists []. simpl. by rewrite app_nil_r. Qed.

Lemma traces_weaken {A} (P Q : event -> Prop) (m : M A) :
  (forall e, P e -> Q e) -> traces P m -> traces Q m.
Proof.
  intros HPQ H st. destruct (H st) as (d & E & Hd). exists d. split; [done|].
  eapply Forall_impl; [exact Hd|done].
Qed.

Lemma is_query_sysfs e : is_query e -> is_sysfs e.
Proof. by destruct e. Qed.

Lemma sysfs_only d :
  Forall is_sysfs d ->
  waits d = [] /\ stores d = [] /\ outcomes d = [] /\ snapshots d = [].
Proof. induction 1 as [|e d He _ IH]; [done|]. by destruct e. Qed.

Lemma query_only d :
  Forall is_query d ->
  writes d = [] /\ waits d = [] /\ stores d = [] /\ outcomes d = [] /\
  snapshots d = [].
Proof. induction 1 as [|e d He _ IH]; [done|]. by destruct e. Qed.

Create HintDb quiet.
#[local] Hint Resolve quiet_ret quiet_get_usb : quiet.
#[local] Hint Extern 2 (quiet _ (bind _ _)) => apply quiet_bind; [|intros ?] : quiet.
#[local] Hint Extern 1 (quiet _ (ask _ _)) => apply quiet_ask; intros ?; exact I : quiet.
#[local] Hint Extern 3 (quiet _ (match ?x with _ => _ end)) => destruct x : quiet.
#[local] Hint Extern 3 (quiet _ (if ?x then _ else _)) => destruct x : quiet.

Section Aggregator.

Context {codes : RoleCodes}.
Variable W : World.

Lemma appendRoleNodeHelper_quiet portName ty :
  quiet is_query (appendRoleNodeHelper W portName ty).
Proof.
  unfold appendRoleNodeHelper, access. destruct (_ || _); auto 10 with quiet.
Qed.

Lemma getAccessoryConnected_quiet portName :
  quiet is_query (getAccessoryConnected W portName).
Proof. unfold getAccessoryConnected, ReadFileToString. auto 10 with quiet. Qed.

Lemma getCurrentRoleHelper_quiet portName connected ty cur :
  quiet is_query (getCurrentRoleHelper W portName connected ty cur).
Proof.
  pose proof appendRoleNodeHelper_quiet. pose proof getAccessoryConnected_quiet.
  unfold getCurrentRoleHelper, ReadFileToString.
  destruct ty; auto with quiet; destruct connected; simpl; auto 20 with quiet.
Qed.

Lemma canSwitchRoleHelper_quiet portName :
  quiet is_query (canSwitchRoleHelper W portName).
Proof. unfold canSwitchRoleHelper, ReadFileToString. auto 10 with quiet. Qed.

Lemma getTypeCPortNamesHelper_run st :
  getTypeCPortNamesHelper W st =
    (match w_opendir W (trace st) "/sys/class/typec" with
     | Some entries => foldl addTypeCEntry ∅ entries
     | None => ∅
     end,
     log [EvOpendir "/sys/class/typec" (w_opendir W (trace st) "/sys/class/typec")] st).
Proof.
  unfold getTypeCPortNamesHelper, opendir, ask, bind, ret, log. simpl.
  by destruct (w_opendir W (trace st) _).
Qed.

Lemma fillPortStatus_quiet V1_0 path portName connected s :
  quiet is_query (fillPortStatus W V1_0 path portName connected s).
Proof.
  pose proof getCurrentRoleHelper_quiet. pose proof canSwitchRoleHelper_quiet.
  unfold fillPortStatus, ReadFileToString.
  apply quiet_bind; [done|]. intros r1. destruct (r1.1); try apply quiet_ret.
  apply quiet_bind; [done|]. intros r2. destruct (r2.1); try apply quiet_ret.
  apply quiet_bind; [done|]. intros r3. destruct (r3.1); try apply quiet_ret.
  apply quiet_bind; [destruct connected; [done|apply quiet_ret]|]. intros cd.
  apply quiet_bind; [destruct connected; [done|apply quiet_ret]|]. intros cp.
  destruct V1_0; [apply quiet_ret|].
  destruct (negb _); [apply quiet_ret|].
  apply quiet_bind.
  - destruct (String.eqb path ""); [apply quiet_ret|]. by apply quiet_ask.
  - intros [c|]; [|apply quiet_ret]. destruct (Ascii.eqb _ _); apply quiet_ret.
Qed.

Lemma fillPorts_quiet V1_0 path names i vec :
  quiet is_query (fillPorts W V1_0 path names i vec).
Proof.
  revert i vec. induction names as [|[portName connected] names IH]; intros i vec; simpl.
  - apply quiet_ret.
  - apply quiet_bind; [apply fillPortStatus_quiet|]. intros r.
    destruct (r.1); [apply IH|apply quiet_ret].
Qed.

Lemma getPortStatusHelper_quiet V1_0 path :
  quiet is_query (getPortStatusHelper W V1_0 path).
Proof.
  unfold getPortStatusHelper. apply quiet_bind.
  - intros st. rewrite getTypeCPortNamesHelper_run. eexists. split; [done|].
    by repeat constructor.
  - intros names. destruct (negb _); [apply fillPorts_quiet|apply quiet_ret].
Qed.

(** ** Disconnected ports *)

Lemma getCurrentRoleHelper_disconnected portName ty cur st :
  is_axis ty ->
  getCurrentRoleHelper W portName false ty cur st = ((SUCCESS, none_code ty), st).
Proof. by intros [-> | [-> | ->]]. Qed.

(** The loop body on a disconnected port: it cannot fail, it reports
    "none" on the three axes, and the only file it may read is the
    contaminant status. *)
Lemma fillPortStatus_disconnected V1_0 path name s st :
  exists s' d,
    fillPortStatus W V1_0 path name false s st = ((true, s'), log d st) /\
    portName (status (status_1_1 s')) = name /\ reports_none s' /\
    (d = [] \/ exists r, d = [EvRead path r]).
Proof.
  unfold fillPortStatus, getCurrentRoleHelper. simpl.
  unfold bind at 1, ret at 1. unfold bind at 1, ret at 1. unfold bind at 1, ret at 1.
  simpl. unfold bind at 1, ret at 1. unfold bind at 1, ret at 1.
  destruct V1_0.
  - eexists _, []. rewrite log_nil. split; [done|]. unfold reports_none. simpl. tauto.
  - destruct (negb (String.eqb name "port0")).
    + eexists _, []. rewrite log_nil. split; [done|]. unfold reports_none. simpl. tauto.
    + destruct (String.eqb path "").
      * unfold bind, ret. eexists _, []. rewrite log_nil. split; [done|].
        unfold reports_none. simpl. tauto.
      * unfold bind, ReadFileToString, ask. simpl.
        destruct (w_read W (trace st) path) as [c|].
        -- destruct (Ascii.eqb _ _); eexists _, [_]; (split; [done|]);
             unfold reports_none; simpl; eauto 10.
        -- eexists _, [_]; (split; [done|]); unfold reports_none; simpl; eauto 10.
Qed.

(** A successful loop leaves the elements below its start index alone and
    fills one element per port, in order. *)
Lemma fillPorts_disconnected V1_0 path names : forall i vec st vec' st',
  fillPorts W V1_0 path names i vec st = ((SUCCESS, vec'), st') ->
  (i + length names <= length vec)%nat ->
  length vec' = length vec /\
  (forall j, (j < i)%nat -> vec' !! j = vec !! j) /\
  (forall k name, names !! k = Some (name, false) ->
     exists s, vec' !! (i + k)%nat = Some s /\
               portName (status (status_1_1 s)) = name /\ reports_none s).
Proof.
  induction names as [|[name connected] names IH]; intros i vec st vec' st' Hrun Hlen.
  - simpl in Hrun. injection Hrun as <- <-. split; [done|]. split; [done|].
    intros k name Hk. by rewrite lookup_nil in Hk.
  - simpl in Hrun, Hlen. unfold bind in Hrun.
    destruct (fillPortStatus W V1_0 path name connected _ st) as [[b s1] st1] eqn:E.
    simpl in Hrun. destruct b; [|discriminate Hrun].
    destruct (IH _ _ _ _ _ Hrun) as (Hl & Hlow & Hfill).
    { rewrite length_insert. lia. }
    rewrite length_insert in Hl. split; [done|]. split.
    + intros j Hj. rewrite Hlow by lia. apply list_lookup_insert_ne. lia.
    + intros [|k] name' Hk; simpl in Hk.
      * injection Hk as -> ->. exists s1.
        rewrite Nat.add_0_r, Hlow by lia.
        rewrite list_lookup_insert_eq by lia. split; [done|].
        destruct (fillPortStatus_disconnected V1_0 path name'
                    (default PortStatus_zero (vec !! i)) st)
          as (s' & d & E' & Hname & Hnone & _).
        rewrite E' in E. by injection E as <- _.
      * destruct (Hfill k name' Hk) as (s & Hs & Hn & Hr).
        exists s. by rewrite <- Nat.add_succ_comm.
Qed.

(** C7. For a disconnected port [getCurrentRoleHelper] answers "none" on
    each of the three axes before it touches anything: the state, and so
    the trace, is unchanged (no file is accessed or read). In every
    snapshot that [getPortStatusHelper] completes, each port that the
    enumeration of /sys/class/typec found without a partner has an entry
    with its name that reports PowerRole, DataRole and Mode as "none". *)
Theorem disconnected_port_reports_none :
  (forall name ty cur st,
     is_axis ty ->
     getCurrentRoleHelper W name false ty cur st = ((SUCCESS, none_code ty), st)) /\
  (forall V1_0 path st vec entries name,
     (getPortStatusHelper W V1_0 path st).1 = (SUCCESS, vec) ->
     w_opendir W (trace st) "/sys/class/typec" = Some entries ->
     foldl addTypeCEntry ∅ entries !! name = Some false ->
     exists s, s ∈ vec /\ portName (status (status_1_1 s)) = name /\ reports_none s).
Proof.
  split; [apply getCurrentRoleHelper_disconnected|].
  intros V1_0 path st vec entries name Hrun Hdir Hname.
  unfold getPortStatusHelper, bind in Hrun.
  rewrite getTypeCPortNamesHelper_run, Hdir in Hrun.
  set (names := foldl addTypeCEntry ∅ entries) in *.
  destruct (negb (bool_decide (names = ∅))); [|discriminate Hrun].
  destruct (fillPorts W V1_0 path (map_to_list names) 0 _ _) as [[r vec'] st'] eqn:E.
  simpl in Hrun. injection Hrun as -> ->.
  apply fillPorts_disconnected in E as (_ & _ & Hfill).
  - apply elem_of_map_to_list, list_elem_of_lookup in Hname as [k Hk].
    destruct (Hfill k name Hk) as (s & Hs & Hn & Hr).
    exists s. split; [|done]. apply list_elem_of_lookup. by exists k.
  - rewrite length_replicate, length_map_to_list. simpl. lia.
Qed.

(** ** The contaminant uevent *)

Lemma switchToDrp_quiet name : quiet is_sysfs (switchToDrp W name).
Proof.
  unfold switchToDrp, WriteStringToFile. apply quiet_bind.
  - eapply quiet_weaken; [apply is_query_sysfs|apply appendRoleNodeHelper_quiet].
  - intros f. apply quiet_bind; [by apply quiet_ask|]. intros _. apply quiet_ret.
Qed.

Lemma drpDisconnected_quiet ports : quiet is_sysfs (drpDisconnected W ports).
Proof.
  induction ports as [|p ports IH]; simpl; [apply quiet_ret|].
  apply quiet_bind; [by apply quiet_ask|]. intros dp.
  apply quiet_bind; [|done].
  destruct dp; [apply quiet_ret|apply switchToDrp_quiet].
Qed.

(** What the handler does once it holds a fresh reading [c] of the
    contaminant status: [snap] is what it notifies if the reading differs
    from the recorded one. *)
Lemma handle_psy_uevent_reading msg st c :
  mCallback_1_0 (usb st) = Some Callback_V1_2 ->
  psy_is_usb msg = true ->
  String.eqb (mContaminantStatusPath (usb st)) "" = false ->
  w_read W (trace st) (mContaminantStatusPath (usb st)) = Some c ->
  let moisture := Ascii.eqb (Str.front c) "1" in
  let st' := (handle_psy_uevent W msg st).2 in
  exists snap,
    snapshots (trace st') =
      snapshots (trace st) ++
      (if Bool.eqb (mContaminantPresence (usb st)) moisture then [] else [snap]) /\
    usb st' = (if Bool.eqb (mContaminantPresence (usb st)) moisture then usb st
               else set_mContaminantPresence moisture (usb st)).
Proof.
  intros Hcb Husb Hpath Hread moisture st'. subst st'.
  unfold handle_psy_uevent, bind, get_usb, ReadFileToString, ask, modify_usb, emit,
    ret, pthread_mutex_trylock, pthread_mutex_unlock.
  rewrite Hcb, Husb. simpl. rewrite Hpath, Hread. fold moisture.
  destruct (Bool.eqb (mContaminantPresence (usb st)) moisture); simpl.
  - exists ([], SUCCESS).
    destruct (w_trylock W _ _); simpl; rewrite !snapshots_app; simpl;
      by rewrite !app_nil_r.
  - set (st2 := {| usb := set_mContaminantPresence moisture (usb st);
                   clock := clock st; wakes := wakes st;
                   trace := trace st ++
                     [EvRead (mContaminantStatusPath (usb st)) (Some c)] |}).
    destruct (getPortStatusHelper_quiet false (mContaminantStatusPath (usb st)) st2)
      as (d & E & Hd).
    destruct (getPortStatusHelper W false (mContaminantStatusPath (usb st)) st2)
      as [r st3].
    simpl in E. subst st3. simpl.
    exists (r.2, r.1).
    destruct (query_only d Hd) as (_ & _ & _ & _ & Hsd).
    destruct (w_trylock W _ _); simpl.
    + match goal with
      | |- context [drpDisconnected W r.2 ?s0] =>
          destruct (drpDisconnected_quiet r.2 s0) as (d2 & E2 & Hd2);
          destruct (drpDisconnected W r.2 s0) as [u st4]
      end.
      simpl in E2. subst st4. simpl.
      destruct (sysfs_only d2 Hd2) as (_ & _ & _ & Hsd2).
      rewrite !snapshots_app, Hsd, Hsd2. simpl. by rewrite !app_nil_r.
    + rewrite !snapshots_app, Hsd. simpl. by rewrite !app_nil_r.
Qed.

(** C8. On a power-supply uevent for the "usb" supply, with a callback of
    version 1.2 registered and the contaminant status readable, a status
    snapshot is pushed to the callback if and only if the value just read
    differs from the recorded [mContaminantPresence]: exactly one
    notification when it differs, none when it is the same. The recorded
    value is the value read afterwards, so a second uevent with the same
    reading notifies nothing. *)
Theorem contaminant_notified_on_change msg st c :
  mCallback_1_0 (usb st) = Some Callback_V1_2 ->
  psy_is_usb msg = true ->
  String.eqb (mContaminantStatusPath (usb st)) "" = false ->
  w_read W (trace st) (mContaminantStatusPath (usb st)) = Some c ->
  let moisture := Ascii.eqb (Str.front c) "1" in
  let st' := (handle_psy_uevent W msg st).2 in
  (exists snap,
     snapshots (trace st') =
       snapshots (trace st) ++
       (if Bool.eqb (mContaminantPresence (usb st)) moisture then [] else [snap])) /\
  mContaminantPresence (usb st') = moisture /\
  (forall msg' c',
     psy_is_usb msg' = true ->
     w_read W (trace st') (mContaminantStatusPath (usb st)) = Some c' ->
     Ascii.eqb (Str.front c') "1" = moisture ->
     snapshots (trace (handle_psy_uevent W msg' st').2) = snapshots (trace st')).
Proof.
  intros Hcb Husb Hpath Hread moisture st'.
  destruct (handle_psy_uevent_reading msg st c Hcb Husb Hpath Hread)
    as (snap & Hsnap & Hu).
  fold moisture st' in Hsnap, Hu.
  assert (Hrec : mContaminantPresence (usb st') = moisture).
  { rewrite Hu. destruct (Bool.eqb _ moisture) eqn:E; [|done].
    by apply eqb_prop in E. }
  assert (Hcb' : mCallback_1_0 (usb st') = Some Callback_V1_2).
  { rewrite Hu. by destruct (Bool.eqb _ moisture). }
  assert (Hp' : mContaminantStatusPath (usb st') = mContaminantStatusPath (usb st)).
  { rewrite Hu. by destruct (Bool.eqb _ moisture). }
  split; [by exists snap|]. split; [done|].
  intros msg' c' Husb' Hread' Hsame.
  rewrite <- Hp' in Hread', Hpath.
  destruct (handle_psy_uevent_reading msg' st' c' Hcb' Husb' Hpath Hread')
    as (snap' & -> & _).
  rewrite Hsame, Hrec, eqb_reflx. by rewrite app_nil_r.
Qed.

(** ** Who assigns the partner flag *)

Lemma no_store_only d : Forall no_store d -> stores d = [].
Proof. induction 1 as [|e d He _ IH]; [done|]. by destruct e. Qed.

Lemma is_query_no_store e : is_query e -> no_store e.
Proof. by destruct e. Qed.

Lemma is_sysfs_no_store e : is_sysfs e -> no_store e.
Proof. by destruct e. Qed.

Lemma traces_after {A B} P (m : M A) (f : A -> M B) :
  (forall a, traces P (f a)) ->
  forall st, exists d, trace (bind m f st).2 = trace (m st).2 ++ d /\ Forall P d.
Proof.
  intros Hf st. unfold bind. destruct (m st) as [a st1]. simpl. apply Hf.
Qed.

Lemma traces_ask {A} (P : event -> Prop) (q : list event -> A) (e : A -> event) :
  (forall a, P (e a)) -> traces P (ask q e).
Proof. intros H. by apply quiet_traces, quiet_ask. Qed.

Lemma traces_emit (P : event -> Prop) e : P e -> traces P (emit e).
Proof. intros H. by apply quiet_traces, quiet_emit. Qed.

Lemma getPortStatusHelper_no_store V1_0 path :
  traces no_store (getPortStatusHelper W V1_0 path).
Proof.
  apply quiet_traces. eapply quiet_weaken; [apply is_query_no_store|].
  apply getPortStatusHelper_quiet.
Qed.

Lemma queryPortStatus_no_store : traces no_store (queryPortStatus W).
Proof.
  pose proof getPortStatusHelper_no_store as Hg.
  unfold queryPortStatus, pthread_mutex_lock, pthread_mutex_unlock.
  apply traces_bind; [by apply traces_emit|]. intros _.
  apply traces_bind; [apply quiet_traces, quiet_get_usb|]. intros u.
  apply traces_bind; [|intros _; by apply traces_emit].
  destruct (mCallback_1_0 u) as [[]|]; try apply traces_ret;
    (apply traces_bind; [apply Hg|]; intros r; by apply traces_emit).
Qed.

(** The typec uevent handler assigns the flag only for a partner-added
    event, then to [true], under the partner lock and before it signals. *)
Lemma handle_typec_uevent_stores msg st :
  let st' := (handle_typec_uevent W msg st).2 in
  if partner_added msg then
    exists rest,
      trace st' = trace st ++
        [EvLock mPartnerLock; EvStorePartnerUp true; EvSignal;
         EvUnlock mPartnerLock] ++ rest /\
      stores rest = []
  else stores (trace st') = stores (trace st).
Proof.
  simpl. unfold handle_typec_uevent. fold (partner_added msg).
  match goal with
  | |- context [bind ?m ?f st] =>
      destruct (traces_after no_store m f) with (st := st) as (d & -> & Hd)
  end.
  { intros _. unfold ReadFileToString, WriteStringToFile.
    apply traces_bind; [by apply traces_ask|]. intros r.
    apply traces_bind; [|intros _; apply queryPortStatus_no_store].
    destruct r as [pom|]; [|apply traces_ret].
    apply traces_bind; [apply quiet_traces, quiet_get_usb|]. intros u.
    apply traces_bind; [|intros _; apply traces_modify_usb].
    destruct (String.eqb _ _); [apply traces_ret|].
    destruct (String.eqb _ _).
    - repeat (apply traces_bind;
                [first [by apply traces_ask|apply traces_modify_usb]|intros ?]).
      apply traces_ret.
    - destruct (negb _); [|apply traces_ret].
      repeat (apply traces_bind; [by apply traces_ask|intros ?]).
      apply traces_modify_usb. }
  apply no_store_only in Hd.
  destruct (partner_added msg); simpl.
  - exists d. split; [|done]. run. by rewrite <- !app_assoc.
  - by rewrite stores_app, Hd, app_nil_r.
Qed.

End Aggregator.

Section PartnerFlag.

Context {codes : RoleCodes}.
Variable PORT_TYPE_TIMEOUT : Z.
Variable W : World.

Lemma handle_psy_uevent_no_store msg : traces no_store (handle_psy_uevent W msg).
Proof.
  unfold handle_psy_uevent, ReadFileToString, pthread_mutex_trylock,
    pthread_mutex_unlock.
  apply traces_bind; [apply quiet_traces, quiet_get_usb|]. intros u.
  destruct (mCallback_1_0 u) as [[]|]; try apply traces_ret.
  destruct (negb _); [apply traces_ret|].
  apply traces_bind.
  { destruct (String.eqb _ _); [apply traces_ret|by apply traces_ask]. }
  intros [c|]; [|apply traces_ret].
  apply traces_bind.
  { destruct (negb _); [|apply traces_ret].
    apply traces_bind; [apply traces_modify_usb|]. intros _.
    apply traces_bind; [apply getPortStatusHelper_no_store|]. intros r.
    apply traces_bind; [by apply traces_emit|]. intros _. apply traces_ret. }
  intros ports. apply traces_bind; [by apply traces_ask|]. intros [|]; [|apply traces_ret].
  apply traces_bind; [|intros _; by apply traces_emit].
  apply quiet_traces. eapply quiet_weaken; [apply is_sysfs_no_store|].
  apply drpDisconnected_quiet.
Qed.

(** C4, as the code has it. Every Mode-axis attempt ([switchMode] past
    path resolution) clears [mPartnerUp] right after taking the partner
    lock and before it writes the role, and assigns the flag nowhere else.
    [switchRole] never assigns [true]: it assigns [false] once on the Mode
    axis, and on the data and power axes it does not assign the flag at
    all (it leaves it as it finds it). On the monitor side,
    [handle_typec_uevent] assigns [true] exactly for a partner-added
    event, under the partner lock, and [handle_psy_uevent] never assigns
    the flag. *)
Theorem partner_flag_discipline :
  (forall name newRole st,
     ~ bad_port_name (Str.c_str name) -> is_axis (type newRole) ->
     exists pre f ok post,
       is_probe (Str.c_str name) (type newRole) pre /\
       trace (switchMode PORT_TYPE_TIMEOUT W name newRole st).2 =
         trace st ++ pre ++
         [EvLock mPartnerLock; EvStorePartnerUp false;
          EvWrite (convertRoletoString newRole) f ok] ++ post /\
       stores post = []) /\
  (forall name newRole st,
     let st' := (switchRole PORT_TYPE_TIMEOUT W name newRole st).2 in
     exists l,
       stores (trace st') = stores (trace st) ++ l /\
       Forall (fun b => b = false) l /\
       (type newRole <> MODE -> l = [] /\ mPartnerUp (usb st') = mPartnerUp (usb st))) /\
  (forall msg st,
     let st' := (handle_typec_uevent W msg st).2 in
     if partner_added msg then
       exists rest,
         trace st' = trace st ++
           [EvLock mPartnerLock; EvStorePartnerUp true; EvSignal;
            EvUnlock mPartnerLock] ++ rest /\
         stores rest = []
     else stores (trace st') = stores (trace st)) /\
  (forall msg st,
     stores (trace (handle_psy_uevent W msg st).2) = stores (trace st)).
Proof.
  split; [|split; [|split]].
  - intros name newRole st Hgood Hax.
    destruct (switchMode_trace PORT_TYPE_TIMEOUT W name newRole st Hgood Hax)
      as (f & pre & ok & n & d & fb & _ & Hpre & _ & Htr & Hd & Hfb & _).
    simpl in Htr, Hfb.
    exists pre, f, ok, (d ++ [EvUnlock mPartnerLock] ++ fb).
    split; [done|]. split; [by rewrite Htr|].
    destruct (waits_only d Hd) as (_ & _ & Hs & _).
    rewrite !stores_app, Hs. simpl.
    destruct (switchMode _ _ _ _ _).1; [by subst fb|].
    by destruct (is_fallback_writes _ _ Hfb) as (_ & -> & _).
  - intros name newRole st st'. subst st'.
    destruct (String.eqb (Str.c_str name) ".." ||
              bool_decide (is_Some (Str.find_char "/" (Str.c_str name)))) eqn:Hname.
    { apply bad_port_name_check in Hname.
      destruct (switch_refused PORT_TYPE_TIMEOUT W name newRole st (or_introl Hname))
        as [_ ->].
      exists []. simpl. by rewrite app_nil_r. }
    assert (Hgood : ~ bad_port_name (Str.c_str name)).
    { rewrite bad_port_name_check, Hname. done. }
    destruct (type newRole) as [| | |raw] eqn:Hty.
    + rewrite (switchRole_direct PORT_TYPE_TIMEOUT W name newRole st Hgood)
        by (left; done).
      exists []. simpl. rewrite !stores_app. unfold notification. simpl.
      split; [|done].
      destruct (w_write W _ _ _), (mCallback_1_0 (usb st)); simpl;
        by rewrite ?app_nil_r.
    + rewrite (switchRole_direct PORT_TYPE_TIMEOUT W name newRole st Hgood)
        by (right; done).
      exists []. simpl. rewrite !stores_app. unfold notification. simpl.
      split; [|done].
      destruct (w_write W _ _ _), (mCallback_1_0 (usb st)); simpl;
        by rewrite ?app_nil_r.
    + destruct (switchRole_trace PORT_TYPE_TIMEOUT W name newRole st Hgood)
        as (pre & body & r & Hpre & _ & _ & Hst & ->).
      { rewrite Hty. unfold is_axis. tauto. }
      rewrite Hty in Hst, Hpre. simpl in Hst. destruct Hpre as [a ->].
      exists [false]. rewrite !stores_app, Hst. unfold notification.
      split; [|split; [by repeat constructor|done]].
      destruct (mCallback_1_0 (usb st)); simpl; by rewrite ?app_nil_r.
    + destruct (switch_refused PORT_TYPE_TIMEOUT W name newRole st) as [_ ->].
      { right. rewrite Hty. unfold is_axis. intros [?|[?|?]]; discriminate. }
      exists []. simpl. by rewrite app_nil_r.
  - apply handle_typec_uevent_stores.
  - intros msg st. destruct (handle_psy_uevent_no_store msg st) as (d & -> & Hd).
    by rewrite stores_app, (no_store_only d Hd), app_nil_r.
Qed.

End PartnerFlag.

(** ** Threads and mutexes *)

Module ThreadsFacts.

Import Threads.

Lemma held_snoc m tr e : held m (tr ++ [e]) = holds_after m (held m tr) e.
Proof. unfold held. by rewrite foldl_app. Qed.

Lemma invariant_initial programs : invariant programs (initial programs).
Proof.
  split; [|split].
  - intros i t Ht. simpl in Ht. rewrite list_lookup_fmap in Ht.
    destruct (programs !! i) as [p|]; [|done]. simpl in Ht. by injection Ht as <-.
  - intros i t m Ht. simpl in Ht. rewrite list_lookup_fmap in Ht.
    destruct (programs !! i) as [p|]; [|done]. simpl in Ht. by injection Ht as <-.
  - done.
Qed.

Lemma after_self own i e m h :
  enabled own i e -> (own m = Some i <-> h = true) ->
  (after own i e m = Some i <-> holds_after m h e = true).
Proof.
  intros Hen Hown.
  destruct e as [| | | |m'|m'|m' ok| | | | | | | | | | | | | |]; simpl in *; try done.
  - unfold set_owner. case_decide; [done|done].
  - unfold set_owner. case_decide; [done|done].
  - destruct ok; unfold set_owner; case_decide; subst; simpl; try done.
Qed.

Lemma after_other own i j e m h :
  i <> j -> enabled own i e -> (own m = Some j <-> h = true) ->
  (after own i e m = Some j <-> h = true).
Proof.
  intros Hne Hen Hown.
  destruct e as [| | | |m'|m'|m' ok| | | | | | | | | | | | | |]; simpl in *; try done.
  - unfold set_owner. case_decide; [subst|done].
    rewrite Hen in Hown. split; [intros [= ?]; done|]. intros H. by apply Hown in H.
  - unfold set_owner. case_decide; [subst|done].
    rewrite Hen in Hown. split; [done|]. intros H. apply Hown in H. by injection H.
  - destruct ok; [|done]. unfold set_owner. case_decide; [subst|done].
    rewrite Hen in Hown. split; [intros [= ?]; done|]. intros H. by apply Hown in H.
Qed.

Lemma after_owner own i j e m :
  after own i e m = Some j -> j = i \/ own m = Some j.
Proof.
  destruct e as [| | | |m'|m'|m' ok| | | | | | | | | | | | | |]; simpl; try (by right).
  - unfold set_owner. case_decide; [intros [= ->]; by left|by right].
  - unfold set_owner. case_decide; [done|by right].
  - destruct ok; [|by right]. unfold set_owner.
    case_decide; [intros [= ->]; by left|by right].
Qed.

Lemma invariant_step programs c c' :
  invariant programs c -> step c c' -> invariant programs c'.
Proof.
  intros (Hprog & Hown & Hdom) Hstep.
  destruct Hstep as [c i t e rest Ht Hpend Hen].
  assert (Hi : (i < length (threads c))%nat) by (by eapply lookup_lt_Some).
  split; [|split]; simpl.
  - intros j tj Hj. destruct (decide (i = j)) as [<-|Hne].
    + rewrite list_lookup_insert_eq in Hj by done. injection Hj as <-. simpl.
      rewrite <- app_assoc. simpl. rewrite <- Hpend. by apply Hprog.
    + rewrite list_lookup_insert_ne in Hj by done. by apply Hprog.
  - intros j tj m Hj. destruct (decide (i = j)) as [<-|Hne].
    + rewrite list_lookup_insert_eq in Hj by done. injection Hj as <-. simpl.
      rewrite held_snoc. apply after_self; [done|]. by apply Hown.
    + rewrite list_lookup_insert_ne in Hj by done.
      apply after_other; [done|done|]. by apply Hown.
  - intros j m Hj. destruct (decide (i = j)) as [<-|Hne].
    + rewrite list_lookup_insert_eq by done. eauto.
    + rewrite list_lookup_insert_ne by done.
      destruct (after_owner _ _ _ _ _ Hj) as [->|Hj']; [done|]. by eapply Hdom.
Qed.

Lemma invariant_reachable programs c :
  rtc step (initial programs) c -> invariant programs c.
Proof.
  intros H. apply (rtc_ind_r (R := step) (invariant programs) (initial programs));
    [| |exact H].
  - apply invariant_initial.
  - intros y z _ Hstep Hy. by eapply invariant_step.
Qed.

(** Mutual exclusion: a mutex is held by one thread at most. *)
Lemma held_exclusive programs c m i j ti tj :
  rtc step (initial programs) c ->
  threads c !! i = Some ti -> threads c !! j = Some tj ->
  held m (performed ti) = true -> held m (performed tj) = true ->
  i = j.
Proof.
  intros Hreach Hi Hj Hhi Hhj.
  destruct (invariant_reachable programs c Hreach) as (_ & Hown & _).
  apply (Hown i ti m Hi) in Hhi. apply (Hown j tj m Hj) in Hhj.
  rewrite Hhi in Hhj. by injection Hhj.
Qed.

End ThreadsFacts.

(** ** Role switches are serialized *)

Lemma guarded_app m P h d1 d2 :
  Threads.guarded m P h (d1 ++ d2) <->
  Threads.guarded m P h d1 /\
  Threads.guarded m P (foldl (Threads.holds_after m) h d1) d2.
Proof.
  revert h. induction d1 as [|e d1 IH]; intros h; simpl; [tauto|].
  rewrite IH. tauto.
Qed.

Lemma guarded_none m (P : event -> Prop) h d :
  Forall (fun e => ~ P e) d -> Threads.guarded m P h d.
Proof.
  intros H. revert h. induction H as [|e d He _ IH]; intros h; simpl; [done|].
  split; [done|apply IH].
Qed.

Lemma guarded_held m (P : event -> Prop) d :
  Forall (fun e => Threads.holds_after m true e = true) d ->
  Threads.guarded m P true d /\ foldl (Threads.holds_after m) true d = true.
Proof.
  induction 1 as [|e d He _ IH]; simpl; [done|]. rewrite He. tauto.
Qed.

Lemma rsl_free_keeps h e :
  rsl_free e -> Threads.holds_after mRoleSwitchLock h e = h.
Proof.
  destruct e; simpl; try done; intros H; case_decide; congruence.
Qed.

Lemma rsl_free_foldl h d :
  Forall rsl_free d -> foldl (Threads.holds_after mRoleSwitchLock) h d = h.
Proof.
  intros H. revert h. induction H as [|e d He _ IH]; intros h; simpl; [done|].
  by rewrite rsl_free_keeps, IH.
Qed.

Lemma in_switch_rsl_free e : in_switch e -> rsl_free e.
Proof. destruct e; simpl; try done; by intros ->. Qed.

Lemma notification_rsl_free u name newRole r :
  Forall rsl_free (notification u name newRole r).
Proof. unfold notification. destruct (mCallback_1_0 u); by repeat constructor. Qed.

Lemma probe_rsl_free e : probe_event e -> rsl_free e.
Proof. by destruct e. Qed.

Lemma is_probe_probe name ty pre : is_probe name ty pre -> Forall probe_event pre.
Proof.
  destruct ty; simpl; try (intros ->; constructor).
  intros [a ->]. by repeat constructor.
Qed.

(** A run of [switchRole] either does nothing or is a probe-only prefix,
    then everything else between taking and releasing the role switch
    lock. *)
Lemma switchRole_program p :
  is_switchRole_run p ->
  p = [] \/
  exists pre mid,
    p = pre ++ [EvLock mRoleSwitchLock] ++ mid ++ [EvUnlock mRoleSwitchLock] /\
    Forall probe_event pre /\ Forall rsl_free mid.
Proof.
  intros (codes & T & W & name & newRole & st & Hrun).
  destruct (String.eqb (Str.c_str name) ".." ||
            bool_decide (is_Some (Str.find_char "/" (Str.c_str name)))) eqn:Hname.
  { apply bad_port_name_check in Hname.
    destruct (switch_refused T W name newRole st (or_introl Hname)) as [_ E].
    rewrite E in Hrun. simpl in Hrun. left.
    apply (f_equal length) in Hrun. rewrite length_app in Hrun.
    destruct p; [done|simpl in Hrun; lia]. }
  assert (Hgood : ~ bad_port_name (Str.c_str name)) by (rewrite bad_port_name_check, Hname; done).
  destruct (decide (is_axis (type newRole))) as [Hax|Hax].
  - right.
    destruct (switchRole_trace T W name newRole st Hgood Hax)
      as (pre & body & r & Hpre & Hbody & _ & _ & Htr).
    rewrite Htr in Hrun. apply app_inv_head in Hrun. subst p.
    exists pre, (body ++ [EvLock mLock] ++ notification (usb st) name newRole r ++
                 [EvUnlock mLock]).
    split; [by rewrite <- !app_assoc|]. split; [by eapply is_probe_probe|].
    rewrite !Forall_app. split.
    + eapply Forall_impl; [exact Hbody|]. apply in_switch_rsl_free.
    + split; [by repeat constructor|]. split; [apply notification_rsl_free|].
      by repeat constructor.
  - left. destruct (switch_refused T W name newRole st (or_intror Hax)) as [_ E].
    rewrite E in Hrun. simpl in Hrun.
    apply (f_equal length) in Hrun. rewrite length_app in Hrun.
    destruct p; [done|simpl in Hrun; lia].
Qed.

Lemma probe_prefix (pre k tr : list event) e :
  Forall probe_event pre -> ~ probe_event e -> e ∈ tr -> pre = tr ++ k -> False.
Proof.
  intros Hpre He Hin ->. apply Forall_app in Hpre as [Hpre _].
  rewrite Forall_forall in Hpre. by apply He, Hpre.
Qed.

(** A thread that is in progress in a run of [switchRole] holds the role
    switch lock. *)
Lemma in_progress_held p t :
  is_switchRole_run p ->
  Threads.performed t ++ Threads.pending t = p ->
  in_progress t ->
  Threads.held mRoleSwitchLock (Threads.performed t) = true.
Proof.
  intros Hrun Hsplit [(e & Hin & He) Hpend].
  destruct (switchRole_program p Hrun) as [->|(pre & mid & -> & Hpre & Hmid)].
  { apply app_eq_nil in Hsplit as [Hperf _]. rewrite Hperf in Hin.
    by apply not_elem_of_nil in Hin. }
  apply app_eq_inv in Hsplit as [(k & Hperf & Hk)|(k & Hpre' & _)].
  2:{ exfalso. by eapply probe_prefix. }
  destruct k as [|x k].
  { exfalso. rewrite app_nil_r in Hperf. subst pre.
    rewrite Forall_forall in Hpre. by apply He, Hpre. }
  simpl in Hk. injection Hk as <- Hk.
  assert (Hfree : Forall rsl_free k).
  { symmetry in Hk. apply app_eq_inv in Hk as [(k' & -> & Hk')|(k' & -> & _)].
    - destruct k' as [|y k']; [by rewrite app_nil_r|].
      simpl in Hk'. injection Hk' as _ Hk'. symmetry in Hk'.
      apply app_eq_nil in Hk' as [_ Hk']. done.
    - by apply Forall_app in Hmid as [? _]. }
  rewrite Hperf. unfold Threads.held. rewrite foldl_app. simpl.
  by rewrite rsl_free_foldl.
Qed.

Section Serialization.

Context {codes : RoleCodes}.
Variable PORT_TYPE_TIMEOUT : Z.
Variable W : World.

(** Every run of [switchRole]: all it does beyond probing the path is done
    with the role switch lock held, and the notification with the callback
    lock held as well. *)
Lemma switchRole_guarded name newRole st :
  exists d,
    trace (switchRole PORT_TYPE_TIMEOUT W name newRole st).2 = trace st ++ d /\
    Threads.guarded mRoleSwitchLock switch_action false d /\
    Threads.guarded mLock is_role_notification false d.
Proof.
  destruct (String.eqb (Str.c_str name) ".." ||
            bool_decide (is_Some (Str.find_char "/" (Str.c_str name)))) eqn:Hname.
  { apply bad_port_name_check in Hname.
    destruct (switch_refused PORT_TYPE_TIMEOUT W name newRole st (or_introl Hname))
      as [_ ->].
    exists []. simpl. by rewrite app_nil_r. }
  assert (Hgood : ~ bad_port_name (Str.c_str name)) by (rewrite bad_port_name_check, Hname; done).
  destruct (decide (is_axis (type newRole))) as [Hax|Hax].
  2:{ destruct (switch_refused PORT_TYPE_TIMEOUT W name newRole st (or_intror Hax))
        as [_ ->].
      exists []. simpl. by rewrite app_nil_r. }
  destruct (switchRole_trace PORT_TYPE_TIMEOUT W name newRole st Hgood Hax)
    as (pre & body & r & Hpre & Hbody & _ & _ & ->).
  eexists. split; [reflexivity|].
  apply is_probe_probe in Hpre.
  assert (Hnote : Forall is_role_notification (notification (usb st) name newRole r)).
  { unfold notification. destruct (mCallback_1_0 (usb st)); by repeat constructor. }
  split.
  - rewrite guarded_app. split.
    { apply guarded_none. eapply Forall_impl; [exact Hpre|].
      intros e He. destruct e; simpl in *; tauto. }
    rewrite rsl_free_foldl by (eapply Forall_impl; [exact Hpre|apply probe_rsl_free]).
    simpl. split; [by intros ?|].
    replace (body ++ EvLock mLock :: notification (usb st) name newRole r ++
             [EvUnlock mLock; EvUnlock mRoleSwitchLock])
      with ((body ++ [EvLock mLock] ++ notification (usb st) name newRole r ++
             [EvUnlock mLock]) ++ [EvUnlock mRoleSwitchLock])
      by (rewrite <- !app_assoc; simpl; rewrite <- ?app_assoc; done).
    rewrite guarded_app.
    destruct (guarded_held mRoleSwitchLock switch_action
                (body ++ [EvLock mLock] ++ notification (usb st) name newRole r ++
                 [EvUnlock mLock])) as [Hg ->]; [|by split].
    rewrite !Forall_app. split; [|split; [|split]].
    + eapply Forall_impl; [exact Hbody|]. intros e He.
      by apply rsl_free_keeps, in_switch_rsl_free.
    + by repeat constructor.
    + eapply Forall_impl; [exact Hnote|]. by intros [].
    + by repeat constructor.
  - replace (pre ++ [EvLock mRoleSwitchLock] ++ body ++ [EvLock mLock] ++
             notification (usb st) name newRole r ++
             [EvUnlock mLock; EvUnlock mRoleSwitchLock])
      with ((pre ++ [EvLock mRoleSwitchLock] ++ body) ++ [EvLock mLock] ++
            notification (usb st) name newRole r ++
            [EvUnlock mLock; EvUnlock mRoleSwitchLock])
      by (by rewrite <- !app_assoc).
    rewrite guarded_app. split.
    { apply guarded_none. rewrite !Forall_app. split; [|split].
      - eapply Forall_impl; [exact Hpre|]. intros e He. destruct e; simpl in *; tauto.
      - constructor; [simpl; tauto|constructor].
      - eapply Forall_impl; [exact Hbody|]. intros e He. destruct e; simpl in *; tauto. }
    simpl. split; [by intros ?|].
    rewrite guarded_app.
    destruct (guarded_held mLock is_role_notification
                (notification (usb st) name newRole r)) as [Hg ->].
    { eapply Forall_impl; [exact Hnote|]. by intros []. }
    split; [done|]. apply guarded_none.
    constructor; [simpl; tauto|]. constructor; [simpl; tauto|constructor].
Qed.

Lemma locked_bind {A B} m P h h1 h2 (mm : M A) (f : A -> M B) :
  locked_run m P h h1 mm -> (forall a, locked_run m P h1 h2 (f a)) ->
  locked_run m P h h2 (bind mm f).
Proof.
  intros Hm Hf st. unfold bind.
  destruct (Hm st) as (d1 & E1 & G1 & F1). destruct (mm st) as [a st1]. simpl in E1.
  destruct (Hf a st1) as (d2 & E2 & G2 & F2).
  exists (d1 ++ d2). rewrite E2, E1, app_assoc. split; [done|].
  rewrite guarded_app, foldl_app, F1. done.
Qed.

Lemma locked_emit m (P : event -> Prop) h e :
  (P e -> h = true) -> locked_run m P h (Threads.holds_after m h e) (emit e).
Proof. intros H st. exists [e]. simpl. done. Qed.

Lemma locked_ask {A} m (P : event -> Prop) h (q : list event -> A) (e : A -> event) :
  (forall a, ~ P (e a)) -> (forall a, Threads.holds_after m h (e a) = h) ->
  locked_run m P h h (ask q e).
Proof.
  intros HP Hh st. eexists [_]. simpl. rewrite Hh.
  split; [done|]. split; [|done]. split; [|done].
  intros H. by apply HP in H.
Qed.

Lemma locked_ret {A} m P h (x : A) : locked_run m P h h (ret x).
Proof. intros st. exists []. simpl. by rewrite app_nil_r. Qed.

Lemma locked_get_usb m P h : locked_run m P h h get_usb.
Proof. intros st. exists []. simpl. by rewrite app_nil_r. Qed.

Lemma locked_modify_usb m P h f : locked_run m P h h (modify_usb f).
Proof. intros st. exists []. simpl. by rewrite app_nil_r. Qed.

Lemma locked_store_mCallback_1_0 cb :
  locked_run mLock is_callback_store true true (store_mCallback_1_0 cb).
Proof.
  unfold store_mCallback_1_0. eapply locked_bind; [apply locked_modify_usb|].
  intros _. by apply (locked_emit mLock is_callback_store true).
Qed.

Lemma guarded_bind {A B} m P h h1 (mm : M A) (f : A -> M B) :
  locked_run m P h h1 mm -> (forall a, guarded_run m P h1 (f a)) ->
  guarded_run m P h (bind mm f).
Proof.
  intros Hm Hf st. unfold bind.
  destruct (Hm st) as (d1 & E1 & G1 & F1). destruct (mm st) as [a st1]. simpl in E1.
  destruct (Hf a st1) as (d2 & E2 & G2).
  exists (d1 ++ d2). rewrite E2, E1, app_assoc. split; [done|].
  rewrite guarded_app, F1. done.
Qed.

Lemma guarded_traces {A} m (P : event -> Prop) h (mm : M A) :
  traces (fun e => ~ P e) mm -> guarded_run m P h mm.
Proof.
  intros H st. destruct (H st) as (d & E & Hd). exists d. split; [done|].
  by apply guarded_none.
Qed.

(** Callback registration: every assignment to [mCallback_1_0] is made
    with the callback lock held, as long as the two platform probes, which
    run after the lock is released, do not assign it. *)
Lemma setCallback_guarded (wake : M bool) (host : M unit) cb :
  traces (fun e => ~ is_callback_store e) wake ->
  traces (fun e => ~ is_callback_store e) host ->
  guarded_run mLock is_callback_store false (setCallback W wake host cb).
Proof.
  intros Hwake Hhost. unfold setCallback.
  assert (Hlock : locked_run mLock is_callback_store false true
                    (pthread_mutex_lock mLock)).
  { by apply (locked_emit mLock is_callback_store false). }
  assert (Hunlock : locked_run mLock is_callback_store true false
                      (pthread_mutex_unlock mLock)).
  { by apply (locked_emit mLock is_callback_store true). }
  assert (Hmod : forall f, traces (fun e => ~ is_callback_store e) (modify_usb f)).
  { intros f. apply traces_modify_usb. }
  assert (Hacc : forall path, traces (fun e => ~ is_callback_store e) (access_R_OK W path)).
  { intros path. apply traces_ask. by intros a []. }
  assert (Hstore : forall c (k : M unit),
    guarded_run mLock is_callback_store true k ->
    guarded_run mLock is_callback_store true (store_mCallback_1_0 c >> k)).
  { intros c k Hk.
    apply (guarded_bind mLock is_callback_store true true (store_mCallback_1_0 c));
      [apply locked_store_mCallback_1_0|by intros _]. }
  assert (Hrelease : forall (k : M unit),
    traces (fun e => ~ is_callback_store e) k ->
    guarded_run mLock is_callback_store true (pthread_mutex_unlock mLock >> k)).
  { intros k Hk.
    apply (guarded_bind mLock is_callback_store true false (pthread_mutex_unlock mLock));
      [done|intros _; by apply guarded_traces]. }
  apply (guarded_bind mLock is_callback_store false true (pthread_mutex_lock mLock));
    [done|]. intros _.
  apply (guarded_bind mLock is_callback_store true true get_usb);
    [apply locked_get_usb|]. intros u.
  destruct (mCallback_1_0 u) as [old|], cb as [new|].
  - apply Hstore, Hrelease with (k := ret tt), traces_ret.
  - apply Hstore, Hrelease. unfold pthread_kill, pthread_join.
    apply traces_bind; [apply traces_ask; by intros a []|].
    intros [|]; [apply traces_emit; by intros []|apply traces_ret].
  - apply Hstore.
    apply (guarded_bind mLock is_callback_store true true
             (emit (EvStoreDestroyThread false)));
      [by apply (locked_emit mLock is_callback_store true)|]. intros _.
    apply (guarded_bind mLock is_callback_store true true (emit EvSignalHandler));
      [by apply (locked_emit mLock is_callback_store true)|]. intros _.
    apply (guarded_bind mLock is_callback_store true true (pthread_create W)).
    { unfold pthread_create. apply locked_ask; [by intros a []|done]. }
    intros created.
    apply (guarded_bind mLock is_callback_store true true
             (if negb created then store_mCallback_1_0 None else ret tt)).
    { destruct (negb created); [apply locked_store_mCallback_1_0|apply locked_ret]. }
    intros _. apply Hrelease.
    apply traces_bind; [done|]. intros iw.
    apply traces_bind; [done|]. intros _.
    apply traces_bind; [done|]. intros _.
    apply traces_bind; [done|]. intros [|]; [done|].
    apply traces_bind; [done|]. intros [|]; [done|].
    apply traces_bind; [done|]. intros [|]; done.
  - apply Hstore, Hrelease with (k := ret tt), traces_ret.
Qed.

(** C5. Every call of [switchRole] does all it does beyond probing the
    path with the single role switch lock held, which is not the partner
    lock that the switch takes inside, and notifies with the callback lock
    held as well. So however the events of concurrent calls of
    [switchRole] (any ports, any axes) interleave under the mutexes, two
    threads are never both past path resolution and not yet returned: at
    most one role switch is in progress. The callback lock is also the one
    under which [setCallback] makes every assignment to the registered
    callback. *)
Theorem role_switches_serialized :
  (forall name newRole st,
     exists d,
       trace (switchRole PORT_TYPE_TIMEOUT W name newRole st).2 = trace st ++ d /\
       Threads.guarded mRoleSwitchLock switch_action false d /\
       Threads.guarded mLock is_role_notification false d) /\
  (forall programs c i j ti tj,
     Forall is_switchRole_run programs ->
     rtc Threads.step (Threads.initial programs) c ->
     Threads.threads c !! i = Some ti -> Threads.threads c !! j = Some tj ->
     in_progress ti -> in_progress tj -> i = j) /\
  (forall (wake : M bool) (host : M unit) cb,
     traces (fun e => ~ is_callback_store e) wake ->
     traces (fun e => ~ is_callback_store e) host ->
     guarded_run mLock is_callback_store false (setCallback W wake host cb)) /\
  mRoleSwitchLock <> mPartnerLock /\ mRoleSwitchLock <> mLock.
Proof.
  split; [apply switchRole_guarded|]. split; [|split; [apply setCallback_guarded|done]].
  intros programs c i j ti tj Hprog Hreach Hi Hj Hpi Hpj.
  destruct (ThreadsFacts.invariant_reachable programs c Hreach) as (Hp & _ & _).
  rewrite Forall_lookup in Hprog.
  apply (ThreadsFacts.held_exclusive programs c mRoleSwitchLock i j ti tj Hreach Hi Hj).
  - eapply in_progress_held; [|reflexivity|done]. eapply Hprog. by apply Hp.
  - eapply in_progress_held; [|reflexivity|done]. eapply Hprog. by apply Hp.
Qed.

End Serialization.

Lemma port0_good : ~ bad_port_name "port0".
Proof. rewrite bad_port_name_check. vm_compute. discriminate. Qed.

Lemma port1_good : ~ bad_port_name "port1".
Proof. rewrite bad_port_name_check. vm_compute. discriminate. Qed.

(** C1: a counterexample to the bound by the original deadline. With a
    timeout of 8 s and one spurious wake-up 7 s into the wait, the flag is
    never set and the switch times out 15 s after the wait began. *)
Lemma spurious_wake_postpones_timeout :
  Forall spurious (wakes (state0 None [at_time 7 false])) /\
  (switchMode (codes := aosp_codes) 8 accepting_world "port0" mode_dfp
     (state0 None [at_time 7 false])).1 = false /\
  clock (state0 None [at_time 7 false]) = {| tv_sec := 0; tv_nsec := 0 |} /\
  clock (switchMode (codes := aosp_codes) 8 accepting_world "port0" mode_dfp
           (state0 None [at_time 7 false])).2 = {| tv_sec := 15; tv_nsec := 0 |}.
Proof. split; [by repeat constructor|]. vm_compute. done. Qed.

(** C6: a counterexample. The name port0<NUL>/x contains '/', yet a
    switch of its data role is not refused: the name is cut at the NUL,
    path resolution returns the data role node of port0, and the switch
    takes the locks, writes the role, reads it back and notifies. *)
Lemma port_name_cut_at_nul_is_switched :
  bad_port_name port0_nul_slash /\
  (appendRoleNodeHelper accepting_world (Str.c_str port0_nul_slash) DATA_ROLE
     (state0 (Some Callback_V1_0) [])).1 = "/sys/class/typec/port0/data_role" /\
  trace (switchRole (codes := aosp_codes) 8 accepting_world port0_nul_slash data_device
           (state0 (Some Callback_V1_0) [])).2 =
    [EvLock mRoleSwitchLock;
     EvWrite "device" "/sys/class/typec/port0/data_role" true;
     EvRead "/sys/class/typec/port0/data_role" None;
     EvLock mLock;
     EvNotifyRoleSwitchStatus port0_nul_slash data_device ERROR;
     EvUnlock mLock; EvUnlock mRoleSwitchLock].
Proof.
  split; [right; by exists ("port0" +:+ String Ascii.zero ""), "x"|].
  vm_compute. done.
Qed.

(** C2: a counterexample. A switch of the data role of port1 to device is
    accepted and read back; no partner-added event ever arrives (there is
    no wake-up at all), yet the outcome is success, and it is delivered
    without any wait: the clock has not moved. *)
Lemma data_role_switch_succeeds_without_partner_event :
  wakes (state0 (Some Callback_V1_0) []) = [] /\
  outcomes (trace (switchRole (codes := aosp_codes) 8 readback_world "port1" data_device
                     (state0 (Some Callback_V1_0) [])).2) = [SUCCESS] /\
  waits (trace (switchRole (codes := aosp_codes) 8 readback_world "port1" data_device
                  (state0 (Some Callback_V1_0) [])).2) = [] /\
  clock (switchRole (codes := aosp_codes) 8 readback_world "port1" data_device
           (state0 (Some Callback_V1_0) [])).2 = {| tv_sec := 0; tv_nsec := 0 |}.
Proof. vm_compute. done. Qed.

(** C4: a counterexample. A data role switch attempt does not reset the
    partner flag: entered with the flag set, it never assigns it and
    leaves it set. *)
Lemma data_role_switch_leaves_partner_flag :
  mPartnerUp (usb state_partner_up) = true /\
  stores (trace (switchRole (codes := aosp_codes) 8 accepting_world "port1" data_device
                   state_partner_up).2) = [] /\
  writes (trace (switchRole (codes := aosp_codes) 8 accepting_world "port1" data_device
                   state_partner_up).2) = [("device", "/sys/class/typec/port1/data_role")] /\
  mPartnerUp (usb (switchRole (codes := aosp_codes) 8 accepting_world "port1" data_device
                     state_partner_up).2) = true.
Proof. vm_compute. done. Qed.

(** ** The status of a snapshot *)

Lemma fillPorts_status {codes : RoleCodes} W V1_0 path names : forall i vec st,
  (fillPorts W V1_0 path names i vec st).1.1 = SUCCESS \/
  (fillPorts W V1_0 path names i vec st).1.1 = ERROR.
Proof.
  induction names as [|[name connected] names IH]; intros i vec st; simpl; [by left|].
  unfold bind. destruct (fillPortStatus W V1_0 path name connected _ st) as [[b s] st1].
  simpl. destruct b; [apply IH|by right].
Qed.

(** The aggregator knows two statuses only. *)
Lemma getPortStatusHelper_status {codes : RoleCodes} W V1_0 path st :
  (getPortStatusHelper W V1_0 path st).1.1 = SUCCESS \/
  (getPortStatusHelper W V1_0 path st).1.1 = ERROR.
Proof.
  unfold getPortStatusHelper, bind. rewrite getTypeCPortNamesHelper_run.
  destruct (negb _); [apply fillPorts_status|by right].
Qed.

(** C9: the code at the failing input. The power role node of the
    connected port0 reads a token outside the vocabulary:
    [getCurrentRoleHelper] answers UNRECOGNIZED_ROLE, but the snapshot
    built from it has status ERROR, and ERROR is what the callback is
    given; whatever the world, [getPortStatusHelper] returns SUCCESS or
    ERROR and nothing else. *)
Theorem unrecognized_role_reported_as_error :
  (forall (codes : RoleCodes) W V1_0 path st,
     (getPortStatusHelper W V1_0 path st).1.1 = SUCCESS \/
     (getPortStatusHelper W V1_0 path st).1.1 = ERROR) /\
  (getCurrentRoleHelper (codes := aosp_codes) drifted_world "port0" true POWER_ROLE 0
     (state0 (Some Callback_V1_2) [])).1.1 = UNRECOGNIZED_ROLE /\
  (getPortStatusHelper (codes := aosp_codes) drifted_world false ""
     (state0 (Some Callback_V1_2) [])).1.1 = ERROR /\
  (snapshots (trace (queryPortStatus (codes := aosp_codes) drifted_world
                       (state0 (Some Callback_V1_2) [])).2)).*2 = [ERROR].
Proof.
  split; [intros; apply getPortStatusHelper_status|]. vm_compute. done.
Qed.

(** ** The theorems at concrete inputs *)

(** C6 at the port name "../port0". *)
Lemma invalid_port_name_no_io_witness :
  bad_port_name (Str.c_str "../port0") /\
  switchRole (codes := aosp_codes) 8 accepting_world "../port0" mode_dfp (state0 None [])
    = (tt, state0 None []).
Proof.
  assert (H : bad_port_name (Str.c_str "../port0")) by (right; by exists "..", "port0").
  split; [exact H|].
  exact (proj2 (proj1 (proj2 (invalid_port_name_no_io 8 accepting_world MODE mode_dfp
                                (state0 None []))) "../port0" H)).
Defined.


(** C1 (amended) with two spurious wake-ups. *)
Lemma switchMode_timeout_restarts_witness :
  (switchMode (codes := aosp_codes) 8 accepting_world "port0" mode_dfp
     (state0 None [at_time 7 false; at_time 14 false])).1 = false.
Proof.
  refine (proj1 (switchMode_timeout_restarts (codes := aosp_codes) 8 accepting_world
                   "port0" mode_dfp (state0 None [at_time 7 false; at_time 14 false])
                   port0_good eq_refl _ _ _)).
  - lia.
  - reflexivity.
  - by repeat constructor.
Defined.

(** C2 (amended) on port1. *)
Lemma switchRole_data_role_reads_back_witness :
  outcomes (trace (switchRole (codes := aosp_codes) 8 readback_world "port1" data_device
                     (state0 (Some Callback_V1_0) [])).2) = [SUCCESS].
Proof.
  exact (proj1 (switchRole_data_role_reads_back (codes := aosp_codes) 8 readback_world
                  "port1" data_device (state0 (Some Callback_V1_0) [])
                  port1_good eq_refl eq_refl)).
Defined.

(** C10 on the data role 7, which is neither host nor device. *)
Lemma unrecognized_role_written_as_none_witness :
  ~ recognized (codes := aosp_codes) data_unknown /\
  convertRoletoString (codes := aosp_codes) data_unknown = "none".
Proof.
  assert (H : ~ recognized (codes := aosp_codes) data_unknown).
  { unfold recognized. simpl. intros [[? _]|[[_ [?|?]]|[? _]]]; discriminate. }
  split; [exact H|].
  exact (proj1 (unrecognized_role_written_as_none (codes := aosp_codes) 8 accepting_world
                  data_unknown H)).
Defined.

(** C7 on a board with port0 attached and port1 free. *)
Lemma disconnected_port_reports_none_witness :
  exists s,
    s ∈ (getPortStatusHelper (codes := aosp_codes) two_port_world false ""
           (state0 (Some Callback_V1_2) [])).1.2 /\
    portName (status (status_1_1 s)) = "port1" /\
    reports_none (codes := aosp_codes) s.
Proof.
  refine (proj2 (disconnected_port_reports_none (codes := aosp_codes) two_port_world)
            false "" (state0 (Some Callback_V1_2) []) _
            [ {| d_name := "port0"; d_kind := DT_LNK |};
              {| d_name := "port1"; d_kind := DT_LNK |};
              {| d_name := "port0-partner"; d_kind := DT_LNK |} ]
            "port1" _ _ _).
  - vm_compute. reflexivity.
  - reflexivity.
  - vm_compute. reflexivity.
Defined.

(** C8 on the first uevent after moisture appears. *)
Lemma contaminant_notified_on_change_witness :
  mContaminantPresence
    (usb (handle_psy_uevent (codes := aosp_codes) moist_world
            ["POWER_SUPPLY_NAME=usb"; ""] state_dry).2) = true.
Proof.
  exact (proj1 (proj2 (contaminant_notified_on_change (codes := aosp_codes) moist_world
                         ["POWER_SUPPLY_NAME=usb"; ""] state_dry "1"
                         eq_refl eq_refl eq_refl eq_refl))).
Defined.

(** C4 (amended) on the uevent that adds the partner of port0. *)
Lemma partner_flag_discipline_witness :
  exists rest,
    trace (handle_typec_uevent (codes := aosp_codes) accepting_world
             "add@/devices/platform/soc/a600000.ssusb/typec/port0/port0-partner"
             (state0 None [])).2 =
      [EvLock mPartnerLock; EvStorePartnerUp true; EvSignal; EvUnlock mPartnerLock] ++ rest /\
    stores rest = [].
Proof.
  exact (proj1 (proj2 (proj2 (partner_flag_discipline (codes := aosp_codes) 8
                                accepting_world)))
           "add@/devices/platform/soc/a600000.ssusb/typec/port0/port0-partner"
           (state0 None [])).
Defined.

Lemma data_switch_is_run : is_switchRole_run data_switch_run.
Proof.
  exists aosp_codes, 8, accepting_world, "port1", data_device, (state0 None []).
  reflexivity.
Qed.

Lemma first_thread_locked_reachable :
  rtc Threads.step (Threads.initial [data_switch_run; data_switch_run])
    first_thread_locked.
Proof.
  apply rtc_once.
  apply (Threads.step_thread
           (Threads.initial [data_switch_run; data_switch_run]) 0
           {| Threads.performed := []; Threads.pending := data_switch_run |}
           (EvLock mRoleSwitchLock) (tail data_switch_run)); reflexivity.
Qed.

(** C5 with two concurrent data role switches, once the first thread is
    in progress. *)
Lemma role_switches_serialized_witness :
  Forall is_switchRole_run [data_switch_run; data_switch_run] /\
  in_progress {| Threads.performed := [] ++ [EvLock mRoleSwitchLock];
                 Threads.pending := tail data_switch_run |} /\
  0%nat = 0%nat.
Proof.
  assert (Hruns : Forall is_switchRole_run [data_switch_run; data_switch_run]).
  { repeat constructor; apply data_switch_is_run. }
  assert (Hin : in_progress {| Threads.performed := [] ++ [EvLock mRoleSwitchLock];
                               Threads.pending := tail data_switch_run |}).
  { split; [|discriminate]. exists (EvLock mRoleSwitchLock).
    split; [by apply list_elem_of_here|]. simpl. tauto. }
  split; [exact Hruns|]. split; [exact Hin|].
  exact (proj1 (proj2 (role_switches_serialized (codes := aosp_codes) 8 accepting_world))
           [data_switch_run; data_switch_run] first_thread_locked 0%nat 0%nat _ _
           Hruns first_thread_locked_reachable eq_refl eq_refl Hin Hin).
Defined.

(** * Further properties of the code *)

(** ** Strings *)

Lemma append_nil b : "" +:+ b = b.
Proof. reflexivity. Qed.

Lemma append_cons x a b : String x a +:+ b = String x (a +:+ b).
Proof. reflexivity. Qed.

Lemma append_assoc a b c : a +:+ (b +:+ c) = (a +:+ b) +:+ c.
Proof.
  induction a as [|x a IH]; [done|]. rewrite !append_cons. by rewrite IH.
Qed.

Lemma length_append a b :
  String.length (a +:+ b) = (String.length a + String.length b)%nat.
Proof.
  induction a as [|x a IH]; [done|].
  rewrite append_cons. simpl. by rewrite IH.
Qed.

Lemma find_char_app c a b :
  Str.find_char c (a +:+ b) =
    match Str.find_char c a with
    | Some n => Some n
    | None => (fun n => (String.length a + n)%nat) <$> Str.find_char c b
    end.
Proof.
  induction a as [|x a IH].
  - rewrite append_nil. simpl. by destruct (Str.find_char c b).
  - rewrite append_cons. simpl. destruct (Ascii.eqb x c); [done|].
    rewrite IH. destruct (Str.find_char c a); [done|].
    by destruct (Str.find_char c b).
Qed.

Lemma substring_skip a b n :
  String.substring (String.length a) n (a +:+ b) = String.substring 0 n b.
Proof.
  induction a as [|x a IH]; [done|]. rewrite append_cons. simpl. apply IH.
Qed.

Lemma substring_prefix b c :
  String.substring 0 (String.length b) (b +:+ c) = b.
Proof.
  induction b as [|x b IH].
  - rewrite append_nil. by destruct c.
  - rewrite append_cons. simpl. by rewrite IH.
Qed.

Lemma substring_whole b : String.substring 0 (String.length b) b = b.
Proof. induction b as [|x b IH]; [done|]. simpl. by rewrite IH. Qed.

(** ** The bracketed token of a role node *)

(** X1. The kernel marks the active role of a node with brackets, as in
    "host [device]". When the first '[' of the text comes before its first
    ']', extractRole returns exactly what stands between the two. *)
Theorem extractRole_bracketed pre mid post :
  Str.find_char "[" pre = None ->
  Str.find_char "]" pre = None ->
  Str.find_char "]" mid = None ->
  Z.of_nat (String.length mid) < 2 ^ Str.SIZE_WIDTH ->
  extractRole (pre +:+ "[" +:+ mid +:+ "]" +:+ post) = mid.
Proof.
  intros Hopen Hclose Hmid Hlen. unfold extractRole.
  change ("[" +:+ mid +:+ "]" +:+ post)
    with (String "[" (mid +:+ String "]" post)).
  rewrite !find_char_app, Hopen, Hclose. simpl.
  rewrite find_char_app, Hmid. simpl. unfold Str.substr, Str.size_t.
  rewrite length_append. simpl. rewrite length_append. simpl.
  replace (Z.of_nat (String.length pre + S (String.length mid + 0)) -
           Z.of_nat (String.length pre + 0) - 1)
    with (Z.of_nat (String.length mid)) by lia.
  rewrite Z.mod_small by lia.
  rewrite Z.min_l by lia.
  replace (Z.to_nat (Z.of_nat (String.length pre + 0) + 1))
    with (String.length (pre +:+ "["))
    by (rewrite length_append; simpl; lia).
  rewrite Nat2Z.id.
  change (pre +:+ String "[" (mid +:+ String "]" post))
    with (pre +:+ ("[" +:+ (mid +:+ String "]" post))).
  rewrite append_assoc, substring_skip. apply substring_prefix.
Qed.

(** X2. The two edge cases of extractRole. A text in which '[' or ']' is
    missing is returned as it is. When the first ']' comes before the first
    '[', the length passed to substr wraps around and the result is
    everything after that '[', up to the end of the text. *)
Theorem extractRole_without_pair s :
  Z.of_nat (String.length s) < 2 ^ Str.SIZE_WIDTH ->
  (Str.find_char "[" s = None \/ Str.find_char "]" s = None ->
   extractRole s = s) /\
  (forall pre mid post,
     s = pre +:+ "]" +:+ mid +:+ "[" +:+ post ->
     Str.find_char "[" pre = None -> Str.find_char "]" pre = None ->
     Str.find_char "[" mid = None ->
     extractRole s = post).
Proof.
  intros Hlen. split.
  - unfold extractRole. intros [-> | ->]; [done|].
    by destruct (Str.find_char "[" s).
  - intros pre mid post -> Hopen Hclose Hmid. unfold extractRole.
    change ("]" +:+ mid +:+ "[" +:+ post)
      with (String "]" (mid +:+ String "[" post)) in *.
    rewrite !find_char_app, Hopen, Hclose. simpl.
    rewrite find_char_app, Hmid. simpl. unfold Str.substr, Str.size_t.
    rewrite length_append in *. simpl in *. rewrite length_append in *.
    simpl in *.
    set (a := String.length pre) in *. set (b := String.length mid) in *.
    set (c := String.length post) in *.
    replace ((Z.of_nat (a + 0) - Z.of_nat (a + S (b + 0)) - 1) mod 2 ^ Str.SIZE_WIDTH)
      with (2 ^ Str.SIZE_WIDTH - Z.of_nat b - 2).
    2:{ apply Z.mod_unique with (q := -1); lia. }
    rewrite Z.min_r by lia.
    replace (Z.to_nat (Z.of_nat (a + S (b + 0)) + 1))
      with (String.length ((pre +:+ "]" +:+ mid) +:+ "["))
      by (rewrite !length_append; simpl; lia).
    replace (Z.to_nat (Z.of_nat (a + S (b + S c)) - (Z.of_nat (a + S (b + 0)) + 1)))
      with c by lia.
    change (pre +:+ String "]" (mid +:+ String "[" post))
      with (pre +:+ ("]" +:+ (mid +:+ ("[" +:+ post)))).
    rewrite !append_assoc. rewrite substring_skip. apply substring_whole.
Qed.

(** ** The scan of a power supply uevent *)

Lemma psy_is_usb_cons s msg :
  psy_is_usb (s :: msg) =
    if String.eqb s "" then true
    else if Str.starts_with POWER_SUPPLY_NAME s
         then String.eqb (Str.drop 18 s) "usb"
         else psy_is_usb msg.
Proof. reflexivity. Qed.

Lemma psy_is_usb_skip pre rest :
  Forall skipped pre -> psy_is_usb (pre ++ rest) = psy_is_usb rest.
Proof.
  induction 1 as [|s pre [Hne Hkey] _ IH]; [done|].
  rewrite <- app_comm_cons, psy_is_usb_cons, Hkey.
  by destruct (String.eqb_spec s "").
Qed.

(** X3. handle_psy_uevent decides whose uevent it has by the first
    POWER_SUPPLY_NAME= string: the event is taken up exactly when the name
    that follows the key is "usb", whatever comes later. The scan ends at
    the empty string that closes the uevent, and a uevent that carries no
    such key at all is taken up as if it were the usb supply's. *)
Theorem psy_is_usb_first_key pre :
  Forall skipped pre ->
  (forall name post,
     psy_is_usb (pre ++ (POWER_SUPPLY_NAME +:+ name) :: post) =
       String.eqb name "usb") /\
  (forall post, psy_is_usb (pre ++ "" :: post) = true) /\
  psy_is_usb pre = true.
Proof.
  intros Hpre. split; [|split].
  - intros name post. rewrite psy_is_usb_skip by done. reflexivity.
  - intros post. by rewrite psy_is_usb_skip.
  - rewrite <- (app_nil_r pre). by rewrite psy_is_usb_skip.
Qed.

(** ** The enumeration of the ports *)

Lemma partner_listed_snoc p l e :
  partner_listed p (l ++ [e]) <->
  partner_listed p l \/
  (d_kind e = DT_LNK /\ exists n, Str.find "-partner" (d_name e) = Some n /\
                                  String.substring 0 n (d_name e) = p).
Proof.
  unfold partner_listed. split.
  - intros (x & n & [Hin | ->%list_elem_of_singleton]%elem_of_app & Hk & Hf & Hs).
    + left. eauto 8.
    + right. eauto.
  - intros [(x & n & Hin & H) | (Hk & n & Hf & Hs)].
    + exists x, n. split; [apply elem_of_app; by left|done].
    + exists e, n. split; [apply elem_of_app; right; by apply list_elem_of_singleton|done].
Qed.

Lemma port_listed_snoc p l e :
  port_listed p (l ++ [e]) <->
  port_listed p l \/
  (d_kind e = DT_LNK /\ d_name e = p /\ Str.find "-partner" p = None).
Proof.
  unfold port_listed. split.
  - intros (x & [Hin | ->%list_elem_of_singleton]%elem_of_app & H).
    + left. eauto.
    + by right.
  - intros [(x & Hin & H) | H].
    + exists x. split; [apply elem_of_app; by left|done].
    + exists e. split; [apply elem_of_app; right; by apply list_elem_of_singleton|done].
Qed.

Lemma addTypeCEntry_connected entries p :
  foldl addTypeCEntry ∅ entries !! p = Some true <-> partner_listed p entries.
Proof.
  induction entries as [|e l IH] using rev_ind.
  - simpl. rewrite lookup_empty. split; [done|].
    by intros (? & ? & ?%elem_of_nil & _).
  - rewrite foldl_app, partner_listed_snoc, <- IH. simpl.
    set (names := foldl addTypeCEntry ∅ l). unfold addTypeCEntry.
    destruct (d_kind e); try (split; [by left|by intros [?|[? _]]]).
    destruct (Str.find "-partner" (d_name e)) as [n|].
    + destruct (decide (String.substring 0 n (d_name e) = p)) as [<-|Hne].
      * rewrite lookup_insert_eq. split; [|done]. right. eauto.
      * rewrite lookup_insert_ne by done. split; [by left|].
        intros [?|(_ & n' & [= <-] & ?)]; done.
    + destruct (names !! d_name e) eqn:E.
      * split; [by left|]. by intros [?|(_ & ? & ? & _)].
      * destruct (decide (d_name e = p)) as [<-|Hne].
        -- rewrite lookup_insert_eq, E. split; [done|].
           by intros [?|(_ & ? & ? & _)].
        -- rewrite lookup_insert_ne by done. split; [by left|].
           by intros [?|(_ & ? & ? & _)].
Qed.

Lemma addTypeCEntry_known entries p :
  is_Some (foldl addTypeCEntry ∅ entries !! p) <->
  partner_listed p entries \/ port_listed p entries.
Proof.
  induction entries as [|e l IH] using rev_ind.
  - simpl. rewrite lookup_empty. split; [by intros [? ?]|].
    intros [(? & ? & ?%elem_of_nil & _)|(? & ?%elem_of_nil & _)]; done.
  - rewrite foldl_app, partner_listed_snoc, port_listed_snoc. simpl.
    set (names := foldl addTypeCEntry ∅ l) in *. unfold addTypeCEntry.
    destruct (d_kind e) eqn:Ek; try (rewrite IH; intuition congruence).
    destruct (Str.find "-partner" (d_name e)) as [n|] eqn:Ef.
    + destruct (decide (String.substring 0 n (d_name e) = p)) as [<-|Hne].
      * rewrite lookup_insert_eq. split; [|eauto]. intros _. left. right. eauto.
      * rewrite lookup_insert_ne by done. rewrite IH. split; [tauto|].
        intros [[?|(_ & n' & [= <-] & ?)]|[?|(_ & <- & ?)]]; try tauto; congruence.
    + destruct (names !! d_name e) eqn:E.
      * rewrite IH. split; [tauto|].
        intros [[?|(_ & n' & ? & ?)]|[?|(_ & <- & ?)]]; try tauto; [congruence|].
        apply IH. eauto.
      * destruct (decide (d_name e = p)) as [<-|Hne].
        -- rewrite lookup_insert_eq. split; [|eauto]. intros _. right. right. done.
        -- rewrite lookup_insert_ne by done. rewrite IH. split; [tauto|].
           intros [[?|(_ & n' & ? & ?)]|[?|(_ & ? & ?)]]; try tauto; congruence.
Qed.

Section Enumeration.

Context {codes : RoleCodes}.
Variable W : World.

(** X4. What getTypeCPortNamesHelper makes of the listing of
    /sys/class/typec does not depend on the order of the entries: a port
    is enumerated as connected exactly when a symlink of a partner of it
    is listed, as not connected exactly when a symlink of its own name is
    listed and none of a partner, and not at all otherwise. Entries that
    are not symlinks count for nothing, and a directory that cannot be
    opened counts as an empty one. *)
Theorem typec_ports_enumerated st p :
  let names := (getTypeCPortNamesHelper W st).1 in
  let listing := default [] (w_opendir W (trace st) "/sys/class/typec") in
  (names !! p = Some true <-> partner_listed p listing) /\
  (names !! p = Some false <->
     port_listed p listing /\ ~ partner_listed p listing) /\
  (names !! p = None <->
     ~ port_listed p listing /\ ~ partner_listed p listing).
Proof.
  rewrite getTypeCPortNamesHelper_run. simpl.
  assert ((match w_opendir W (trace st) "/sys/class/typec" with
           | Some entries => foldl addTypeCEntry ∅ entries
           | None => ∅
           end) =
          foldl addTypeCEntry ∅
            (default [] (w_opendir W (trace st) "/sys/class/typec"))) as ->.
  { by destruct (w_opendir _ _ _). }
  set (l := default [] _).
  pose proof (addTypeCEntry_connected l p) as HA.
  pose proof (addTypeCEntry_known l p) as HB.
  split; [exact HA|].
  destruct (foldl addTypeCEntry ∅ l !! p) as [[|]|] eqn:E.
  - assert (partner_listed p l) by (by apply HA).
    split; (split; [done|]); by intros [_ ?].
  - assert (~ partner_listed p l) by (by intros ?%HA).
    assert (port_listed p l) by (destruct (proj1 HB) as [?|?]; [by eexists|done..]).
    split; (split; [done|]); by intros [? _].
  - assert (~ partner_listed p l) by (by intros ?%HA).
    assert (~ port_listed p l).
    { intros ?. destruct (proj2 HB) as [? ?]; [by right|done]. }
    split; (split; [done|]); by intros [? _].
Qed.

End Enumeration.

(** ** The snapshot of the port status *)

Section Snapshot.

Context {codes : RoleCodes}.
Variable W : World.

(** A turn of the loop that completes files the entry under the name of
    the port and fills in what the port can do; the contaminant fields
    are set from the blank entry [s]. *)
Lemma fillPortStatus_entry V1_0 path name connected s st :
  let r := (fillPortStatus W V1_0 path name connected s st).1 in
  entry_name r.2 = name /\
  (r.1 = true ->
   capabilities V1_0 connected r.2 /\
   (contaminant_blank s -> contaminant_report V1_0 path r.2)).
Proof.
  unfold fillPortStatus, bind.
  destruct (getCurrentRoleHelper W name connected POWER_ROLE 0 st)
    as [[c1 v1] st1].
  destruct c1; simpl; try (split; [done|]; discriminate).
  destruct (getCurrentRoleHelper W name connected DATA_ROLE v1 st1)
    as [[c2 v2] st2].
  destruct c2; simpl; try (split; [done|]; discriminate).
  destruct (getCurrentRoleHelper W name connected MODE v2 st2)
    as [[c3 v3] st3].
  destruct c3; simpl; try (split; [done|]; discriminate).
  destruct ((if connected then canSwitchRoleHelper W name else ret false) st3)
    as [cd st4] eqn:E4.
  destruct ((if connected then canSwitchRoleHelper W name else ret false) st4)
    as [cp st5] eqn:E5.
  assert (connected = false -> cd = false /\ cp = false) as Hcan.
  { intros ->. unfold ret in *. by injection E4 as <- <-; injection E5 as <- <-. }
  unfold contaminant_report, contaminant_blank, contaminant_protected,
    contaminant_detection, contaminant_unsupported, capabilities, entry_name.
  destruct V1_0; simpl.
  { split; [done|]. intros _. intuition (auto; congruence). }
  destruct (String.eqb name "port0") eqn:Ename; simpl.
  2:{ rewrite Ename. split; [done|]. intros _. intuition (auto; congruence). }
  destruct (String.eqb_spec path "") as [->|Hpath]; simpl.
  { unfold ret. simpl. rewrite Ename. split; [done|]. intros _.
    intuition (auto; congruence). }
  unfold ReadFileToString, ask. simpl.
  destruct (w_read W (trace st5) path) as [c|]; simpl.
  - destruct (Ascii.eqb _ _); simpl; rewrite Ename;
      (split; [done|]; intros _); intuition (auto; congruence).
  - rewrite Ename. split; [done|]. intros _. intuition (auto; congruence).
Qed.

Lemma fillPorts_length V1_0 path names : forall i vec st,
  length (fillPorts W V1_0 path names i vec st).1.2 = length vec.
Proof.
  induction names as [|[name connected] names IH]; intros i vec st; [done|].
  simpl. unfold bind.
  destruct (fillPortStatus W V1_0 path name connected _ st) as [[b s1] st1].
  simpl. destruct b; simpl.
  - by rewrite IH, length_insert.
  - by rewrite length_insert.
Qed.

(** A loop that completes has filled one entry per port, in order, from
    the blank ones. *)
Lemma fillPorts_entries V1_0 path names : forall i vec st vec' st',
  fillPorts W V1_0 path names i vec st = ((SUCCESS, vec'), st') ->
  (i + length names <= length vec)%nat ->
  (forall j, (j < i)%nat -> vec' !! j = vec !! j) /\
  (forall k name connected, names !! k = Some (name, connected) ->
     exists s s', vec !! (i + k)%nat = Some s /\ vec' !! (i + k)%nat = Some s' /\
       entry_name s' = name /\ capabilities V1_0 connected s' /\
       (contaminant_blank s -> contaminant_report V1_0 path s')).
Proof.
  induction names as [|[name connected] names IH]; intros i vec st vec' st' Hrun Hlen.
  - simpl in Hrun. injection Hrun as <- <-. split; [done|].
    intros k name connected Hk. by rewrite lookup_nil in Hk.
  - simpl in Hrun, Hlen. unfold bind in Hrun.
    pose proof (fillPortStatus_entry V1_0 path name connected
                  (default PortStatus_zero (vec !! i)) st) as Hentry.
    destruct (fillPortStatus W V1_0 path name connected _ st) as [[b s1] st1].
    simpl in Hrun, Hentry. destruct b; [|discriminate Hrun].
    destruct (IH _ _ _ _ _ Hrun) as (Hlow & Hfill).
    { rewrite length_insert. lia. }
    split.
    + intros j Hj. rewrite Hlow by lia. apply list_lookup_insert_ne. lia.
    + intros [|k] name' connected' Hk; simpl in Hk.
      * injection Hk as -> ->.
        destruct (lookup_lt_is_Some_2 vec i) as [s Hs]; [lia|].
        exists s, s1. rewrite Nat.add_0_r, Hlow by lia.
        rewrite list_lookup_insert_eq by lia. rewrite Hs in Hentry. simpl in Hentry.
        destruct Hentry as (? & H); destruct H; done.
      * destruct (Hfill k name' connected' Hk) as (s & s' & Hs & Hs' & H).
        exists s, s'. rewrite <- !Nat.add_succ_comm.
        rewrite list_lookup_insert_ne in Hs by lia. done.
Qed.

(** What [getPortStatusHelper] returns, in terms of the enumeration. *)
Lemma getPortStatusHelper_run V1_0 path st :
  let names := (getTypeCPortNamesHelper W st).1 in
  let st1 := (getTypeCPortNamesHelper W st).2 in
  getPortStatusHelper W V1_0 path st =
    if bool_decide (names = ∅) then ((ERROR, []), st1)
    else fillPorts W V1_0 path (map_to_list names) 0
           (replicate (size names) PortStatus_zero) st1.
Proof.
  unfold getPortStatusHelper, bind. simpl.
  destruct (getTypeCPortNamesHelper W st) as [names st1]. simpl.
  by destruct (bool_decide (names = ∅)).
Qed.

(** The entries of a completed snapshot, one by one. *)
Lemma getPortStatusHelper_entries V1_0 path st vec :
  (getPortStatusHelper W V1_0 path st).1 = (SUCCESS, vec) ->
  let names := (getTypeCPortNamesHelper W st).1 in
  length vec = size names /\
  forall k s, vec !! k = Some s ->
    exists connected,
      map_to_list names !! k = Some (entry_name s, connected) /\
      capabilities V1_0 connected s /\ contaminant_report V1_0 path s.
Proof.
  rewrite getPortStatusHelper_run. simpl.
  set (names := (getTypeCPortNamesHelper W st).1).
  set (st1 := (getTypeCPortNamesHelper W st).2).
  destruct (bool_decide (names = ∅)); [done|]. intros Hrun.
  pose proof (fillPorts_length V1_0 path (map_to_list names) 0
                (replicate (size names) PortStatus_zero) st1) as Hlen.
  destruct (fillPorts W V1_0 path (map_to_list names) 0 _ st1)
    as [[c vec'] st'] eqn:E.
  simpl in Hrun, Hlen. injection Hrun as -> ->.
  rewrite length_replicate in Hlen. split; [done|].
  apply fillPorts_entries in E as [_ Hfill].
  2:{ rewrite length_replicate, length_map_to_list. simpl. lia. }
  intros k s Hk.
  destruct (lookup_lt_is_Some_2 (map_to_list names) k) as [[name connected] Hn].
  { rewrite length_map_to_list, <- Hlen. by eapply lookup_lt_Some. }
  destruct (Hfill k name connected Hn) as (s0 & s' & Hs0 & Hs' & Hname & Hcap & Hrep).
  simpl in Hs0, Hs'. rewrite Hk in Hs'. injection Hs' as <-.
  apply lookup_replicate in Hs0 as [-> _].
  exists connected. rewrite Hname. split; [done|]. split; [done|].
  by apply Hrep.
Qed.

(** X5. A snapshot that getPortStatusHelper completes has exactly one
    entry for each port that the enumeration of /sys/class/typec found,
    filed under the name of the port, and no other entry: a name has an
    entry exactly when it was enumerated, no name has two, and the entries
    are as many as the ports. Whether the snapshot completes or not, the
    vector has been resized to the number of ports. *)
Theorem snapshot_one_entry_per_port V1_0 path st :
  let names := (getTypeCPortNamesHelper W st).1 in
  let r := (getPortStatusHelper W V1_0 path st).1 in
  length r.2 = size names /\
  (r.1 = SUCCESS ->
   NoDup (entry_name <$> r.2) /\
   forall p, p ∈ entry_name <$> r.2 <-> is_Some (names !! p)).
Proof.
  simpl. split.
  - rewrite getPortStatusHelper_run. simpl.
    destruct (bool_decide_reflect ((getTypeCPortNamesHelper W st).1 = ∅)) as [->|_].
    + done.
    + by rewrite fillPorts_length, length_replicate.
  - intros Hok.
    destruct (getPortStatusHelper W V1_0 path st).1 as [c vec] eqn:E.
    simpl in Hok. subst c. simpl.
    apply getPortStatusHelper_entries in E as [Hlen Hent]. simpl in Hlen, Hent.
    set (names := (getTypeCPortNamesHelper W st).1) in *.
    assert (entry_name <$> vec = (map_to_list names).*1) as ->.
    { apply list_eq. intros k. rewrite !list_lookup_fmap.
      destruct (vec !! k) as [s|] eqn:Hk; simpl.
      - destruct (Hent k s Hk) as (connected & -> & _). done.
      - apply lookup_ge_None in Hk.
        rewrite (proj2 (lookup_ge_None (map_to_list names) k)); [done|].
        rewrite length_map_to_list. lia. }
    split; [apply NoDup_fst_map_to_list|].
    intros p. rewrite list_elem_of_fmap. split.
    + intros ([q b] & -> & Hin%elem_of_map_to_list). by exists b.
    + intros [b Hb]. exists (p, b). split; [done|]. by apply elem_of_map_to_list.
Qed.

(** Without a symlink in the listing no port is enumerated, and the other
    way round. *)
Lemma addTypeCEntry_empty entries :
  foldl addTypeCEntry ∅ entries = ∅ <->
  Forall (fun e => d_kind e <> DT_LNK) entries.
Proof.
  split.
  - intros Hempty. apply Forall_forall. intros e Hin Hk.
    destruct (Str.find "-partner" (d_name e)) as [n|] eqn:Ef.
    + assert (partner_listed (String.substring 0 n (d_name e)) entries) as H
        by (exists e, n; done).
      apply addTypeCEntry_connected in H. by rewrite Hempty, lookup_empty in H.
    + assert (port_listed (d_name e) entries) as H by (exists e; done).
      assert (is_Some (foldl addTypeCEntry ∅ entries !! d_name e)) as [? H']
        by (apply addTypeCEntry_known; by right).
      by rewrite Hempty, lookup_empty in H'.
  - intros Hall. apply map_eq. intros p. rewrite lookup_empty.
    apply eq_None_not_Some. intros H%addTypeCEntry_known.
    rewrite Forall_forall in Hall.
    destruct H as [(e & n & Hin & Hk & _)|(e & Hin & Hk & _)]; by apply (Hall e).
Qed.

(** X6. When /sys/class/typec cannot be opened, or lists no symlink, the
    snapshot fails: getPortStatusHelper returns ERROR with an empty vector
    after the one directory listing, without reading any file. It is the
    only way to an empty vector: with a symlink listed the vector is not
    empty, whatever the status. *)
Theorem no_port_is_error V1_0 path st :
  let listing := default [] (w_opendir W (trace st) "/sys/class/typec") in
  let res := getPortStatusHelper W V1_0 path st in
  (Forall (fun e => d_kind e <> DT_LNK) listing ->
   res = ((ERROR, []),
          log [EvOpendir "/sys/class/typec"
                 (w_opendir W (trace st) "/sys/class/typec")] st)) /\
  (res.1.2 = [] -> Forall (fun e => d_kind e <> DT_LNK) listing).
Proof.
  simpl. rewrite getPortStatusHelper_run, getTypeCPortNamesHelper_run. simpl.
  assert ((match w_opendir W (trace st) "/sys/class/typec" with
           | Some entries => foldl addTypeCEntry ∅ entries
           | None => ∅
           end) =
          foldl addTypeCEntry ∅
            (default [] (w_opendir W (trace st) "/sys/class/typec"))) as ->.
  { by destruct (w_opendir _ _ _). }
  set (l := default [] _). set (names := foldl addTypeCEntry ∅ l).
  destruct (bool_decide_reflect (names = ∅)) as [Hempty|Hne].
  - split; [done|]. intros _. by apply addTypeCEntry_empty.
  - split.
    + intros Hall%addTypeCEntry_empty. done.
    + intros Hnil. exfalso. apply Hne, map_size_empty_iff.
      pose proof (fillPorts_length V1_0 path (map_to_list names) 0
                    (replicate (size names) PortStatus_zero)
                    (log [EvOpendir "/sys/class/typec"
                            (w_opendir W (trace st) "/sys/class/typec")] st)) as Hlen.
      rewrite Hnil, length_replicate in Hlen. done.
Qed.

(** X7. In every snapshot that completes, each entry says that the mode
    can be changed; the entry of a port enumerated without a partner says
    that neither the data role nor the power role can. For a 1.0 callback
    the supported modes are DFP; for a later one the 1.0 fields for the
    supported and the current mode are NONE, the supported modes of 1.1
    are DRP and AUDIO_ACCESSORY together, and enabling contaminant
    presence detection or protection is not supported. *)
Theorem snapshot_capabilities V1_0 path st vec s :
  (getPortStatusHelper W V1_0 path st).1 = (SUCCESS, vec) ->
  s ∈ vec ->
  exists connected,
    (getTypeCPortNamesHelper W st).1 !! entry_name s = Some connected /\
    capabilities V1_0 connected s.
Proof.
  intros [_ Hent]%getPortStatusHelper_entries [k Hk]%list_elem_of_lookup.
  destruct (Hent k s Hk) as (connected & Hn & Hcap & _).
  exists connected. split; [|done].
  apply elem_of_map_to_list, list_elem_of_lookup. by exists k.
Qed.

(** X8. Contaminant detection is reported for port0 only, and only to a
    callback later than 1.0. In a completed snapshot for a 1.0 callback the
    contaminant fields of every entry are blank. Otherwise the entry of a
    port other than port0 offers the protection modes FORCE_SINK and
    FORCE_DISABLE with status FORCE_SINK and no detection status; the
    entry of port0 has a detection status (DETECTED or NOT_DETECTED) only
    when a contaminant status path is configured, and else reports that
    nothing is supported. *)
Theorem contaminant_reported_on_port0_only V1_0 path st vec s :
  (getPortStatusHelper W V1_0 path st).1 = (SUCCESS, vec) ->
  s ∈ vec ->
  contaminant_report V1_0 path s /\
  (contaminantDetectionStatus s = DETECTED ->
   V1_0 = false /\ entry_name s = "port0" /\ path <> "").
Proof.
  intros [_ Hent]%getPortStatusHelper_entries [k Hk]%list_elem_of_lookup.
  destruct (Hent k s Hk) as (connected & _ & _ & Hrep).
  split; [done|]. intros Hdet. unfold contaminant_report in Hrep.
  destruct V1_0.
  - destruct Hrep as (H & _). congruence.
  - destruct (String.eqb_spec (entry_name s) "port0") as [Hname|_].
    + destruct Hrep as [[? _]|(H & _)]; [done|congruence].
    + destruct Hrep as (H & _). congruence.
Qed.

End Snapshot.

(** ** Reporting the port status *)

Section Report.

Context {codes : RoleCodes}.
Variable W : World.

(** The run of [queryPortStatus]. *)
Lemma queryPortStatus_run st :
  queryPortStatus W st =
    (tt,
     match mCallback_1_0 (usb st) with
     | None => log [EvLock mLock; EvUnlock mLock] st
     | Some cb =>
         let res := getPortStatusHelper W (is_V1_0 cb)
                      (mContaminantStatusPath (usb st)) (log [EvLock mLock] st) in
         log [port_notification cb res.1; EvUnlock mLock] res.2
     end).
Proof.
  unfold queryPortStatus, bind, pthread_mutex_lock, pthread_mutex_unlock, emit,
    get_usb, ret, log. simpl.
  destruct (mCallback_1_0 (usb st)) as [[| |]|]; simpl.
  - destruct (getPortStatusHelper W true _ _) as [r st2]. simpl.
    by rewrite <- app_assoc.
  - destruct (getPortStatusHelper W false _ _) as [r st2]. simpl.
    by rewrite <- app_assoc.
  - destruct (getPortStatusHelper W false _ _) as [r st2]. simpl.
    by rewrite <- app_assoc.
  - by rewrite <- app_assoc.
Qed.

(** X9. queryPortStatus takes mLock, scans sysfs, sends the registered
    callback exactly one port status notification, of the version that the
    callback implements, and releases mLock; it does nothing else, and
    leaves the service object as it was. With no callback registered it
    only takes and releases the lock: sysfs is not touched. *)
Theorem queryPortStatus_notifies_once st :
  let st' := (queryPortStatus W st).2 in
  usb st' = usb st /\ clock st' = clock st /\ wakes st' = wakes st /\
  match mCallback_1_0 (usb st) with
  | None => trace st' = trace st ++ [EvLock mLock; EvUnlock mLock]
  | Some cb =>
      exists scan n,
        trace st' = trace st ++ [EvLock mLock] ++ scan ++ [n; EvUnlock mLock] /\
        Forall is_query scan /\ is_port_notification cb n
  end.
Proof.
  rewrite queryPortStatus_run. simpl.
  destruct (mCallback_1_0 (usb st)) as [cb|]; [|done]. simpl.
  destruct (getPortStatusHelper_quiet W (is_V1_0 cb)
              (mContaminantStatusPath (usb st)) (log [EvLock mLock] st))
    as (d & -> & Hq).
  simpl. split; [done|]. split; [done|]. split; [done|].
  eexists d, _. split; [by rewrite <- !app_assoc|]. split; [done|].
  by destruct cb.
Qed.

(** X10. A callback of version 1.1 is never told the mode of a port. Of
    the 1.2 snapshot only the 1.0 part of each entry is copied into what
    it is sent: the supported and the current mode of version 1.1 are
    left at zero, and in a snapshot that completes the current mode of
    the 1.0 part is NONE as well, as are its supported modes. *)
Theorem v1_1_callback_is_not_told_the_mode st :
  mCallback_1_0 (usb st) = Some Callback_V1_1 ->
  exists scan ports result,
    trace (queryPortStatus W st).2 =
      trace st ++ [EvLock mLock] ++ scan ++
      [EvNotifyPortStatusChange_1_1 ports result; EvUnlock mLock] /\
    Forall is_query scan /\
    Forall (fun p => supportedModes_1_1 p = 0 /\ currentMode_1_1 p = 0) ports /\
    (result = SUCCESS ->
     Forall (fun p => currentMode (status p) = PortMode_NONE /\
                      supportedModes (status p) = PortMode_NONE) ports).
Proof.
  intros Hcb. rewrite queryPortStatus_run, Hcb. simpl.
  set (st1 := log [EvLock mLock] st).
  destruct (getPortStatusHelper_quiet W false (mContaminantStatusPath (usb st)) st1)
    as (d & Hd & Hq).
  pose proof (getPortStatusHelper_entries W false
                (mContaminantStatusPath (usb st)) st1) as Hent.
  destruct (getPortStatusHelper W false _ st1) as [[result vec] st2].
  simpl in Hd. subst st2. simpl.
  eexists d, _, result. split; [by rewrite <- !app_assoc|]. split; [done|]. split.
  - apply Forall_fmap, Forall_forall. done.
  - intros ->. destruct (Hent vec eq_refl) as [_ Hall].
    apply Forall_fmap, Forall_forall. intros s [k Hk]%list_elem_of_lookup.
    destruct (Hall k s Hk) as (connected & _ & (_ & _ & ? & ? & _) & _). done.
Qed.

End Report.

(** ** Reading a role back *)

Section ReadBack.

Context {codes : RoleCodes}.
Variable W : World.

Lemma appendRoleNodeHelper_direct portName ty st :
  ~ bad_port_name portName -> ty = DATA_ROLE \/ ty = POWER_ROLE ->
  appendRoleNodeHelper W portName ty st = (direct_node portName ty, st).
Proof.
  intros Hgood Hty. unfold appendRoleNodeHelper.
  destruct (String.eqb portName ".." ||
            bool_decide (is_Some (Str.find_char "/" portName))) eqn:E.
  { by apply bad_port_name_check in E. }
  by destruct Hty as [-> | ->].
Qed.

(** X11. On the data and the power axis, reading a role undoes writing
    it. When the role node of a connected port reads a text whose
    bracketed token is the word that convertRoletoString gives for a
    recognised role, getCurrentRoleHelper reads that node, once, and
    returns SUCCESS with the number of that very role. *)
Theorem role_read_back_inverts_write portName r cur st content :
  ~ bad_port_name portName ->
  type r = DATA_ROLE \/ type r = POWER_ROLE ->
  recognized r ->
  w_read W (trace st) (direct_node portName (type r)) = Some content ->
  extractRole content = convertRoletoString r ->
  getCurrentRoleHelper W portName true (type r) cur st =
    ((SUCCESS, role r),
     log [EvRead (direct_node portName (type r)) (Some content)] st).
Proof.
  intros Hgood Hty Hrec Hread Hword.
  unfold getCurrentRoleHelper.
  unfold convertRoletoString, recognized in *.
  destruct Hty as [Hty | Hty]; rewrite Hty in *; simpl.
  - unfold bind at 1, ret at 1. unfold bind at 1.
    rewrite (appendRoleNodeHelper_direct portName DATA_ROLE st Hgood) by tauto.
    unfold bind, ReadFileToString, ask. simpl. rewrite Hread, Hword.
    destruct Hrec as [[? _]|[[_ Hr]|[? _]]]; try done.
    destruct (Z.eqb_spec (role r) PortDataRole_HOST) as [->|Hne]; [done|].
    destruct (Z.eqb_spec (role r) PortDataRole_DEVICE) as [->|Hne']; [done|].
    by destruct Hr.
  - unfold bind at 1, ret at 1. unfold bind at 1.
    rewrite (appendRoleNodeHelper_direct portName POWER_ROLE st Hgood) by tauto.
    unfold bind, ReadFileToString, ask. simpl. rewrite Hread, Hword.
    destruct Hrec as [[_ Hr]|[[? _]|[? _]]]; try done.
    destruct (Z.eqb_spec (role r) PortPowerRole_SOURCE) as [->|Hne]; [done|].
    destruct (Z.eqb_spec (role r) PortPowerRole_SINK) as [->|Hne']; [done|].
    by destruct Hr.
Qed.

End ReadBack.

Section ModeReadBack.

Context {codes : RoleCodes}.
Variable W : World.

(** X12. On the Mode axis reading does not undo writing. A request for
    DFP is written as "source" and one for UFP as "sink"; when the Mode
    node of a connected port (port_type, or data_role where port_type is
    missing) shows that word as the active one, getCurrentRoleHelper
    answers SUCCESS with the number of the power role of that word,
    PortPowerRole::SOURCE or PortPowerRole::SINK, whatever the numbers of
    the modes are. *)
Theorem mode_read_back_gives_power_role portName r cur st acc content :
  ~ bad_port_name portName ->
  type r = MODE -> recognized r ->
  w_read W (trace st) (accessory_node portName) = Some acc ->
  Str.Trim acc <> "analog_audio" -> Str.Trim acc <> "debug" ->
  let st1 := log [EvRead (accessory_node portName) (Some acc)] st in
  let probe := w_access W (trace st1) (port_type_node portName) in
  let node := if probe then port_type_node portName
              else direct_node portName DATA_ROLE in
  let st2 := log [EvAccess (port_type_node portName) probe] st1 in
  w_read W (trace st2) node = Some content ->
  extractRole content = convertRoletoString r ->
  getCurrentRoleHelper W portName true MODE cur st =
    ((SUCCESS,
      if role r =? PortMode_1_1_UFP then PortPowerRole_SINK
      else PortPowerRole_SOURCE),
     log [EvRead node (Some content)] st2).
Proof.
  intros Hgood Hty Hrec Hacc Haudio Hdebug st1 probe node st2 Hread Hword.
  unfold getCurrentRoleHelper. simpl.
  unfold bind at 1. unfold bind at 1.
  unfold getAccessoryConnected, bind at 1, ReadFileToString at 1, ask at 1.
  fold (accessory_node portName). rewrite Hacc. simpl.
  destruct (String.eqb_spec (Str.Trim acc) "analog_audio"); [done|].
  destruct (String.eqb_spec (Str.Trim acc) "debug"); [done|].
  unfold ret at 1. unfold bind at 1.
  unfold appendRoleNodeHelper.
  destruct (String.eqb portName ".." ||
            bool_decide (is_Some (Str.find_char "/" portName))) eqn:E.
  { by apply bad_port_name_check in E. }
  unfold bind at 1, access, ask at 1. simpl.
  fold (port_type_node portName).
  subst st1 probe node st2. unfold log, direct_node in *. simpl in *.
  unfold convertRoletoString, recognized in *. rewrite Hty in *.
  destruct Hrec as [[? _]|[[? _]|[_ Hr]]]; try done.
  destruct (w_access W (trace st ++ [EvRead (accessory_node portName) (Some acc)])
              (port_type_node portName));
    unfold ret at 1, bind at 1, ReadFileToString, ask; simpl;
    rewrite Hread, Hword.
  - destruct (Z.eqb_spec (role r) PortMode_1_1_UFP) as [Hu|Hne]; [done|].
    destruct (Z.eqb_spec (role r) PortMode_1_1_DFP) as [Hd|Hne']; [done|].
    by destruct Hr.
  - destruct (Z.eqb_spec (role r) PortMode_1_1_UFP) as [Hu|Hne]; [done|].
    destruct (Z.eqb_spec (role r) PortMode_1_1_DFP) as [Hd|Hne']; [done|].
    by destruct Hr.
Qed.

(** X13. For a connected port the accessory mode of the partner comes
    first on the Mode axis. When accessory_mode reads, once trimmed,
    analog_audio or debug, getCurrentRoleHelper answers AUDIO_ACCESSORY or
    DEBUG_ACCESSORY after that one read; when accessory_mode cannot be
    read it answers ERROR, leaving the mode at NONE. In none of the three
    cases is the Mode node looked for or read. *)
Theorem accessory_mode_comes_first portName cur st :
  let res := getCurrentRoleHelper W portName true MODE cur st in
  let r := w_read W (trace st) (accessory_node portName) in
  let st1 := log [EvRead (accessory_node portName) r] st in
  match r with
  | None => res = ((ERROR, PortMode_1_1_NONE), st1)
  | Some acc =>
      (Str.Trim acc = "analog_audio" ->
       res = ((SUCCESS, PortMode_1_1_AUDIO_ACCESSORY), st1)) /\
      (Str.Trim acc = "debug" ->
       res = ((SUCCESS, PortMode_1_1_DEBUG_ACCESSORY), st1))
  end.
Proof.
  intros res r st1. subst r st1.
  destruct (w_read W (trace st) (accessory_node portName)) as [acc|] eqn:Hr.
  - split; intros HT; subst res; unfold getCurrentRoleHelper; simpl;
      unfold bind at 1; unfold bind at 1;
      unfold getAccessoryConnected, bind at 1, ReadFileToString at 1, ask at 1;
      fold (accessory_node portName); rewrite Hr; cbn [fst snd]; rewrite HT; done.
  - subst res. unfold getCurrentRoleHelper. simpl.
    unfold bind at 1. unfold bind at 1.
    unfold getAccessoryConnected, bind at 1, ReadFileToString at 1, ask at 1.
    fold (accessory_node portName). by rewrite Hr.
Qed.

End ModeReadBack.

(** ** The power of the gadget configuration *)

Section GadgetPower.

Context {codes : RoleCodes}.

Lemma handle_typec_uevent_parts W msg :
  handle_typec_uevent W msg =
    (partner_part msg >> power_part W >> queryPortStatus W).
Proof. reflexivity. Qed.

Lemma partner_part_run msg st :
  exists d,
    (partner_part msg st).2 =
      {| usb := if partner_added msg then set_mPartnerUp true (usb st) else usb st;
         clock := clock st; wakes := wakes st; trace := trace st ++ d |} /\
    d = if partner_added msg
        then [EvLock mPartnerLock; EvStorePartnerUp true; EvSignal;
              EvUnlock mPartnerLock]
        else [].
Proof.
  unfold partner_part. fold (partner_added msg).
  destruct (partner_added msg); eexists; (split; [|reflexivity]).
  - run. by rewrite <- !app_assoc.
  - simpl. rewrite app_nil_r. by destruct st.
Qed.

(** [queryPortStatus] adds to the trace and changes nothing else; what it
    adds are the two lock operations, queries and notifications. *)
Lemma queryPortStatus_log W st :
  exists scan notif,
    (queryPortStatus W st).2 =
      log ([EvLock mLock] ++ scan ++ notif ++ [EvUnlock mLock]) st /\
    Forall is_query scan /\
    match mCallback_1_0 (usb st) with
    | None => scan = [] /\ notif = []
    | Some cb => exists n, notif = [n] /\ is_port_notification cb n
    end.
Proof.
  rewrite queryPortStatus_run. simpl.
  destruct (mCallback_1_0 (usb st)) as [cb|].
  - simpl.
    destruct (getPortStatusHelper_quiet W (is_V1_0 cb)
                (mContaminantStatusPath (usb st)) (log [EvLock mLock] st))
      as (d & -> & Hq).
    eexists d, [_]. rewrite !log_log. split; [done|].
    split; [done|]. eexists. split; [done|]. by destruct cb.
  - exists [], []. done.
Qed.

Lemma writes_query d : Forall is_query d -> writes d = [].
Proof. intros H. by destruct (query_only d H). Qed.

Lemma queryPortStatus_writes W st :
  writes (trace (queryPortStatus W st).2) = writes (trace st) /\
  usb (queryPortStatus W st).2 = usb st.
Proof.
  destruct (queryPortStatus_log W st) as (scan & notif & -> & Hq & Hn).
  split; [|done]. unfold log. cbn [trace].
  rewrite !writes_app, (writes_query scan Hq).
  destruct (mCallback_1_0 (usb st)) as [cb|].
  - destruct Hn as (n & -> & Hn). destruct cb, n; try done; simpl;
      by rewrite app_nil_r.
  - destruct Hn as [_ ->]. simpl. by rewrite app_nil_r.
Qed.

Lemma partner_part_writes msg st :
  writes (trace (partner_part msg st).2) = writes (trace st) /\
  mPowerOpMode (usb (partner_part msg st).2) = mPowerOpMode (usb st) /\
  mMaxPower (usb (partner_part msg st).2) = mMaxPower (usb st) /\
  mAttributes (usb (partner_part msg st).2) = mAttributes (usb st).
Proof.
  destruct (partner_part_run msg st) as (d & -> & ->). simpl.
  destruct (partner_added msg); simpl.
  - rewrite writes_app. simpl. by rewrite app_nil_r.
  - by rewrite app_nil_r.
Qed.

Lemma handle_typec_uevent_state W msg st :
  (handle_typec_uevent W msg st).2 =
    (queryPortStatus W (power_part W (partner_part msg st).2).2).2.
Proof.
  rewrite handle_typec_uevent_parts. unfold bind.
  destruct (partner_part msg st) as [[] st1]. simpl.
  by destruct (power_part W st1) as [[] st2].
Qed.

(** The handler in terms of its second part. *)
Lemma handle_typec_uevent_power W msg st :
  let st1 := (partner_part msg st).2 in
  let st2 := (power_part W st1).2 in
  let st3 := (handle_typec_uevent W msg st).2 in
  writes (trace st3) = writes (trace st2) /\ usb st3 = usb st2 /\
  writes (trace st1) = writes (trace st) /\
  mPowerOpMode (usb st1) = mPowerOpMode (usb st) /\
  mMaxPower (usb st1) = mMaxPower (usb st) /\
  mAttributes (usb st1) = mAttributes (usb st).
Proof.
  simpl. rewrite handle_typec_uevent_state.
  destruct (partner_part_writes msg st) as (Hw & Hp & Hm & Ha).
  destruct (queryPortStatus_writes W (power_part W (partner_part msg st).2).2)
    as [-> ->].
  done.
Qed.

(** The second part when USB power delivery sets in. *)
Lemma power_part_enter W st c m a :
  (forall tr, w_read W tr power_operation_mode_path = Some c) ->
  (forall tr, w_read W tr MaxPower_path = Some m) ->
  (forall tr, w_read W tr bmAttributes_path = Some a) ->
  Str.Trim c = "usb_power_delivery" ->
  mPowerOpMode (usb st) <> "usb_power_delivery" ->
  let st' := (power_part W st).2 in
  writes (trace st') =
    writes (trace st) ++ [("0", MaxPower_path); ("0xc0", bmAttributes_path)] /\
  mPowerOpMode (usb st') = "usb_power_delivery" /\
  mMaxPower (usb st') = m /\ mAttributes (usb st') = a.
Proof.
  intros Hc Hm Ha Hpd Hmode. simpl.
  unfold power_part, bind, ReadFileToString, WriteStringToFile, ask, get_usb,
    modify_usb, ret. simpl.
  rewrite Hc, Hpd. simpl.
  destruct (String.eqb_spec (mPowerOpMode (usb st)) "usb_power_delivery"); [done|].
  simpl. rewrite Hm, Ha. simpl.
  rewrite !writes_app. simpl. by rewrite !app_nil_r, <- app_assoc.
Qed.

(** The second part when another mode follows. *)
Lemma power_part_leave W st c :
  (forall tr, w_read W tr power_operation_mode_path = Some c) ->
  Str.Trim c <> "usb_power_delivery" ->
  Str.Trim c <> mPowerOpMode (usb st) ->
  mMaxPower (usb st) <> "" ->
  let st' := (power_part W st).2 in
  writes (trace st') =
    writes (trace st) ++
    [(mMaxPower (usb st), MaxPower_path); (mAttributes (usb st), bmAttributes_path)] /\
  mPowerOpMode (usb st') = Str.Trim c /\ mMaxPower (usb st') = "".
Proof.
  intros Hc Hpd Hmode Hmax. simpl.
  unfold power_part, bind, ReadFileToString, WriteStringToFile, ask, get_usb,
    modify_usb, ret. simpl.
  rewrite Hc. simpl.
  destruct (String.eqb_spec (mPowerOpMode (usb st)) (Str.Trim c)); [done|].
  destruct (String.eqb_spec (Str.Trim c) "usb_power_delivery"); [done|].
  destruct (String.eqb_spec (mMaxPower (usb st)) ""); [done|]. simpl.
  rewrite !writes_app. simpl. by rewrite !app_nil_r, <- app_assoc.
Qed.

(** X14. The power settings of the gadget configuration are saved and
    restored. On a typec uevent that finds port0 in the power operation
    mode usb_power_delivery for the first time, the handler reads MaxPower
    and bmAttributes of the configuration, keeps them, and writes "0" and
    "0xc0" in their place. On the next uevent that finds another mode it
    writes back the two values it kept, and forgets them. The handler
    writes nothing else on the way. *)
Theorem gadget_power_saved_and_restored W1 W2 msg1 msg2 st c1 c2 m a :
  (forall tr, w_read W1 tr power_operation_mode_path = Some c1) ->
  (forall tr, w_read W1 tr MaxPower_path = Some m) ->
  (forall tr, w_read W1 tr bmAttributes_path = Some a) ->
  (forall tr, w_read W2 tr power_operation_mode_path = Some c2) ->
  Str.Trim c1 = "usb_power_delivery" ->
  Str.Trim c2 <> "usb_power_delivery" ->
  mPowerOpMode (usb st) <> "usb_power_delivery" ->
  m <> "" ->
  let st1 := (handle_typec_uevent W1 msg1 st).2 in
  let st2 := (handle_typec_uevent W2 msg2 st1).2 in
  writes (trace st1) =
    writes (trace st) ++ [("0", MaxPower_path); ("0xc0", bmAttributes_path)] /\
  writes (trace st2) =
    writes (trace st1) ++ [(m, MaxPower_path); (a, bmAttributes_path)] /\
  mPowerOpMode (usb st2) = Str.Trim c2 /\ mMaxPower (usb st2) = "".
Proof.
  intros Hc1 Hm Ha Hc2 Hpd1 Hpd2 Hmode Hmax. simpl.
  destruct (handle_typec_uevent_power W1 msg1 st) as (Hw1 & Hu1 & Hw0 & Hp0 & _).
  destruct (power_part_enter W1 (partner_part msg1 st).2 c1 m a)
    as (Hwe & Hpe & Hme & Hae); [done..|by rewrite Hp0|].
  set (st1 := (handle_typec_uevent W1 msg1 st).2) in *.
  destruct (handle_typec_uevent_power W2 msg2 st1)
    as (Hw2 & Hu2 & Hw1' & Hp1 & Hm1 & Ha1).
  destruct (power_part_leave W2 (partner_part msg2 st1).2 c2)
    as (Hwl & Hpl & Hml); [done|done|..].
  { rewrite Hp1, Hu1, Hpe. done. }
  { rewrite Hm1, Hu1, Hme. done. }
  split; [by rewrite Hw1, Hwe, Hw0|].
  rewrite Hw2, Hu2, Hwl, Hw1', Hm1, Ha1, Hu1, Hme, Hae. done.
Qed.

(** X15. A typec uevent writes to the gadget configuration only when the
    power operation mode of port0 has changed. When the mode cannot be
    read, or reads what the handler has recorded from the uevent before,
    the handler writes nothing, to no file, and what it has recorded and
    kept stays as it is. *)
Theorem unchanged_power_mode_writes_nothing W msg st :
  let st1 := (partner_part msg st).2 in
  let r := w_read W (trace st1) power_operation_mode_path in
  (r = None \/ exists c, r = Some c /\ Str.Trim c = mPowerOpMode (usb st)) ->
  let st' := (handle_typec_uevent W msg st).2 in
  writes (trace st') = writes (trace st) /\
  mPowerOpMode (usb st') = mPowerOpMode (usb st) /\
  mMaxPower (usb st') = mMaxPower (usb st) /\
  mAttributes (usb st') = mAttributes (usb st).
Proof.
  simpl. intros Hr.
  destruct (handle_typec_uevent_power W msg st) as (-> & -> & Hw & Hp & Hm & Ha).
  rewrite <- Hw, <- Hp, <- Hm, <- Ha. rewrite <- Hp in Hr. clear Hw Hp Hm Ha.
  set (st1 := (partner_part msg st).2) in *.
  unfold power_part, bind, ReadFileToString, WriteStringToFile, ask, get_usb,
    modify_usb, ret. simpl.
  destruct Hr as [-> | (c & -> & Hc)]; simpl.
  - rewrite writes_app. simpl. by rewrite app_nil_r.
  - rewrite Hc, String.eqb_refl. simpl.
    rewrite writes_app. simpl. by rewrite app_nil_r.
Qed.

End GadgetPower.

(** ** What a role switch writes, and where *)

Section Confinement.

Context {codes : RoleCodes}.
Variable PORT_TYPE_TIMEOUT : Z.
Variable W : World.

(** The events of a switch on the Mode axis, in full. *)
Lemma switchRole_mode_trace portName newRole st :
  ~ bad_port_name (Str.c_str portName) -> type newRole = MODE ->
  exists pre pre' f ok d fb (r : bool),
    is_probe (Str.c_str portName) MODE pre /\ is_probe (Str.c_str portName) MODE pre' /\
    is_role_node (Str.c_str portName) MODE f /\ Forall is_wait d /\
    (if r then fb = [] else is_fallback (Str.c_str portName) fb) /\
    trace (switchRole PORT_TYPE_TIMEOUT W portName newRole st).2 =
      trace st ++ pre ++ [EvLock mRoleSwitchLock] ++ pre' ++
      [EvLock mPartnerLock; EvStorePartnerUp false;
       EvWrite (convertRoletoString newRole) f ok] ++
      d ++ [EvUnlock mPartnerLock] ++ fb ++ [EvLock mLock] ++
      notification (usb st) portName newRole r ++
      [EvUnlock mLock; EvUnlock mRoleSwitchLock].
Proof.
  intros Hgood Hty.
  assert (Hax : is_axis (type newRole)) by (rewrite Hty; right; by right).
  destruct (appendRoleNodeHelper_run W (Str.c_str portName) (type newRole) st Hgood Hax)
    as (filename & pre & Hnode & Hpre & Hne & Hrun).
  set (st1 := log [EvLock mRoleSwitchLock] (log pre st)).
  destruct (switchMode_trace PORT_TYPE_TIMEOUT W portName newRole st1 Hgood Hax)
    as (f' & pre' & ok & n & d & fb & Hnode' & Hpre' & Hok & Htr & Hd & Hfb & Hres).
  destruct (switchMode PORT_TYPE_TIMEOUT W portName newRole st1) as [r st2] eqn:Hsw.
  simpl in Htr, Hfb, Hres.
  exists pre, pre', f', ok, d, fb, r.
  pose proof Hpre as Hpre0. rewrite Hty in Hnode', Hpre0, Hpre'.
  split; [done|]. split; [done|]. split; [done|]. split; [done|]. split; [done|].
  assert (Hcb : mCallback_1_0 (usb st2) = mCallback_1_0 (usb st)).
  { destruct ok.
    - destruct Hres as (_ & _ & _ & _ & _ & -> & _).
      pose proof (wait_again_usb PORT_TYPE_TIMEOUT (wakes st1)
                    (written pre' (convertRoletoString newRole) f' true st1)) as Hu.
      simpl in Hu. by destruct Hu as (-> & _).
    - by destruct Hres as (_ & _ & _ & _ & ->). }
  unfold switchRole, bind at 1. rewrite Hrun, Hne.
  unfold bind at 1, pthread_mutex_lock at 1, emit at 1.
  fold (log [EvLock mRoleSwitchLock] (log pre st)).
  fold st1. rewrite Hty. unfold bind at 1. rewrite Hsw.
  unfold notifyRoleSwitchStatus, notification. run. rewrite Hcb.
  destruct (mCallback_1_0 (usb st)); simpl; rewrite Htr; unfold st1, log; simpl;
    repeat (rewrite <- app_assoc; simpl); done.
Qed.

Lemma convertRoletoString_word r : convertRoletoString r ∈ role_words.
Proof.
  unfold convertRoletoString, role_words.
  destruct (type r); repeat (match goal with |- context [if ?b then _ else _] =>
                                     destruct b end);
    repeat first [apply list_elem_of_here | apply list_elem_of_further].
Qed.

Lemma notification_confined portName u name newRole r :
  Forall (confined portName) (notification u name newRole r).
Proof. unfold notification. destruct (mCallback_1_0 u); by repeat constructor. Qed.

Lemma is_probe_confined portName ty pre :
  is_probe portName ty pre -> Forall (confined portName) pre.
Proof.
  destruct ty; simpl; try (intros ->; constructor).
  intros [a ->]. by repeat constructor.
Qed.

Lemma is_wait_confined portName d : Forall is_wait d -> Forall (confined portName) d.
Proof. intros H. eapply Forall_impl; [exact H|]. by intros []. Qed.

(** X16. Whatever it is asked, switchRole writes only role words, and only
    into the three role nodes of the port it is asked about: every write
    goes to port_type, data_role or power_role right under
    /sys/class/typec/<port>, where <port> is the name it is given up to
    its first NUL, a name without '/' and other than "..", and what is
    written is one of source, sink, host, device, none and dual. *)
Theorem switchRole_writes_confined portName newRole :
  traces (confined (Str.c_str portName)) (switchRole PORT_TYPE_TIMEOUT W portName newRole).
Proof.
  intros st.
  assert (Hrefused : bad_port_name (Str.c_str portName) \/ ~ is_axis (type newRole) ->
            exists d, trace (switchRole PORT_TYPE_TIMEOUT W portName newRole st).2 =
                        trace st ++ d /\ Forall (confined (Str.c_str portName)) d).
  { intros H.
    destruct (switch_refused PORT_TYPE_TIMEOUT W portName newRole st H) as [_ ->].
    exists []. by rewrite app_nil_r. }
  destruct (String.eqb (Str.c_str portName) ".." ||
            bool_decide (is_Some (Str.find_char "/" (Str.c_str portName)))) eqn:E.
  { apply Hrefused. left. by apply bad_port_name_check. }
  assert (Hgood : ~ bad_port_name (Str.c_str portName)).
  { intros H%bad_port_name_check. congruence. }
  pose proof (convertRoletoString_word newRole) as Hword.
  destruct (type newRole) eqn:Hty.
  - rewrite (switchRole_direct PORT_TYPE_TIMEOUT W portName newRole st Hgood)
      by tauto.
    eexists. split; [reflexivity|]. rewrite Hty.
    repeat first [apply Forall_app; split | apply Forall_cons; split];
      try apply notification_confined; try done.
    + repeat split; [done..|]. by exists DATA_ROLE.
    + destruct (w_write _ _ _ _); by repeat constructor.
  - rewrite (switchRole_direct PORT_TYPE_TIMEOUT W portName newRole st Hgood)
      by tauto.
    eexists. split; [reflexivity|]. rewrite Hty.
    repeat first [apply Forall_app; split | apply Forall_cons; split];
      try apply notification_confined; try done.
    + repeat split; [done..|]. by exists POWER_ROLE.
    + destruct (w_write _ _ _ _); by repeat constructor.
  - destruct (switchRole_mode_trace portName newRole st Hgood Hty)
      as (pre & pre' & f & ok & d & fb & r & Hpre & Hpre' & Hf & Hd & Hfb & ->).
    eexists. split; [reflexivity|].
    repeat first [apply Forall_app; split | apply Forall_cons; split];
      try done; eauto using is_probe_confined, is_wait_confined,
                  notification_confined.
    + repeat split; [done..|]. by exists MODE.
    + destruct r; [by subst fb|].
      destruct Hfb as (a & filename & ok' & -> & Hnode).
      apply Forall_cons; split; [done|].
      apply Forall_cons; split; [|constructor].
      split; [|split; [done|by exists MODE]].
      unfold role_words.
      repeat first [apply list_elem_of_here | apply list_elem_of_further].
  - apply Hrefused. right. intros [?|[?|?]]; congruence.
Qed.

End Confinement.

(** ** Locks *)

Lemma locks_app a b : locks (a ++ b) = locks a ++ locks b.
Proof. apply omap_app. Qed.

Lemma locks_free d : Forall lock_free d -> locks d = [].
Proof. induction 1 as [|e d He _ IH]; [done|]. by destruct e. Qed.

Lemma is_query_lock_free e : is_query e -> lock_free e.
Proof. by destruct e. Qed.

Lemma is_sysfs_lock_free e : is_sysfs e -> lock_free e.
Proof. by destruct e. Qed.

Lemma is_wait_lock_free e : is_wait e -> lock_free e.
Proof. by destruct e. Qed.

Lemma is_port_notification_lock_free cb e : is_port_notification cb e -> lock_free e.
Proof. by destruct cb, e. Qed.

Lemma script_bind {A B} (m : M A) (f : A -> M B) l1 l2 :
  (forall st, script m st l1) -> (forall a st, script (f a) st l2) ->
  forall st, script (bind m f) st (l1 ++ l2).
Proof.
  intros Hm Hf st. unfold script, bind in *.
  destruct (Hm st) as (d1 & E1 & H1). destruct (m st) as [a st1]. simpl in E1.
  destruct (Hf a st1) as (d2 & E2 & H2).
  exists (d1 ++ d2). rewrite E2, E1, app_assoc, locks_app, H1, H2. done.
Qed.

Lemma script_emit e st : script (emit e) st (locks [e]).
Proof. exists [e]. done. Qed.

Lemma script_traces {A} (m : M A) :
  traces lock_free m -> forall st, script m st [].
Proof.
  intros H st. destruct (H st) as (d & E & Hd). exists d. split; [done|].
  by apply locks_free.
Qed.

Lemma script_ret {A} (x : A) st : script (ret x) st [].
Proof. exists []. simpl. by rewrite app_nil_r. Qed.

Section Locking.

Context {codes : RoleCodes}.
Variable PORT_TYPE_TIMEOUT : Z.
Variable W : World.

Lemma getPortStatusHelper_lock_free V1_0 path :
  traces lock_free (getPortStatusHelper W V1_0 path).
Proof.
  apply quiet_traces. eapply quiet_weaken; [apply is_query_lock_free|].
  apply getPortStatusHelper_quiet.
Qed.

Lemma power_part_sysfs : traces is_sysfs (power_part W).
Proof.
  unfold power_part, ReadFileToString, WriteStringToFile.
  apply traces_bind; [by apply traces_ask|]. intros r.
  destruct r as [pom|]; [|apply traces_ret].
  apply traces_bind; [apply quiet_traces, quiet_get_usb|]. intros u.
  apply traces_bind; [|intros _; apply traces_modify_usb].
  destruct (String.eqb _ _); [apply traces_ret|].
  destruct (String.eqb _ _).
  - repeat (apply traces_bind;
              [first [by apply traces_ask|apply traces_modify_usb]|intros ?]).
    apply traces_ret.
  - destruct (negb _); [|apply traces_ret].
    repeat (apply traces_bind; [by apply traces_ask|intros ?]).
    apply traces_modify_usb.
Qed.

Lemma queryPortStatus_script st :
  script (queryPortStatus W) st [EvLock mLock; EvUnlock mLock].
Proof.
  destruct (queryPortStatus_log W st) as (scan & notif & E & Hq & Hn).
  eexists. rewrite E. split; [reflexivity|].
  rewrite !locks_app, (locks_free scan).
  2:{ eapply Forall_impl; [exact Hq|apply is_query_lock_free]. }
  rewrite (locks_free notif); [done|].
  destruct (mCallback_1_0 (usb st)) as [cb|].
  - destruct Hn as (n & -> & Hn). repeat constructor.
    by eapply is_port_notification_lock_free.
  - by destruct Hn as [_ ->].
Qed.

Lemma partner_part_script msg st :
  script (partner_part msg) st
    (if partner_added msg then [EvLock mPartnerLock; EvUnlock mPartnerLock] else []).
Proof.
  destruct (partner_part_run msg st) as (d & E & ->).
  eexists. rewrite E. split; [reflexivity|]. by destruct (partner_added msg).
Qed.

(** The events of the contaminant handler: the reading of the status,
    the report of a change, and the fallback under the role switch lock. *)
Lemma handle_psy_uevent_shape msg st :
  exists reading report tail,
    trace (handle_psy_uevent W msg st).2 = trace st ++ reading ++ report ++ tail /\
    Forall is_query reading /\
    (report = [] \/
     exists scan snap res,
       report = scan ++ [EvNotifyPortStatusChange_1_2 snap res] /\
       Forall is_query scan) /\
    (tail = [] \/ tail = [EvTrylock mRoleSwitchLock false] \/
     exists drp,
       tail = [EvTrylock mRoleSwitchLock true] ++ drp ++ [EvUnlock mRoleSwitchLock] /\
       Forall is_sysfs drp).
Proof.
  assert (Hnone : exists reading report tail : list event,
            trace st = trace st ++ reading ++ report ++ tail /\
            Forall is_query reading /\
            (report = [] \/
             exists scan snap res,
               report = scan ++ [EvNotifyPortStatusChange_1_2 snap res] /\
               Forall is_query scan) /\
            (tail = [] \/ tail = [EvTrylock mRoleSwitchLock false] \/
             exists drp,
               tail = [EvTrylock mRoleSwitchLock true] ++ drp ++
                      [EvUnlock mRoleSwitchLock] /\
               Forall is_sysfs drp)).
  { exists [], [], []. rewrite app_nil_r. auto. }
  unfold handle_psy_uevent, bind at 1, get_usb.
  destruct (mCallback_1_0 (usb st)) as [[| |]|]; try exact Hnone.
  destruct (negb (psy_is_usb msg)); [exact Hnone|].
  unfold bind at 1.
  destruct (String.eqb (mContaminantStatusPath (usb st)) ""); [exact Hnone|].
  unfold ReadFileToString at 1, ask at 1.
  set (path := mContaminantStatusPath (usb st)).
  destruct (w_read W (trace st) path) as [c|]; simpl.
  2:{ exists [EvRead path None], [], []. rewrite app_nil_r. split; [done|].
      split; [by repeat constructor|]. auto. }
  set (moisture := Ascii.eqb (Str.front c) "1").
  unfold bind at 1.
  assert (exists report st1,
            (if negb (Bool.eqb (mContaminantPresence (usb st)) moisture)
             then
               modify_usb (set_mContaminantPresence moisture) >>
               let* r := getPortStatusHelper W false path in
               emit (EvNotifyPortStatusChange_1_2 r.2 r.1) >> ret r.2
             else ret [])
              {| usb := usb st; clock := clock st; wakes := wakes st;
                 trace := trace st ++ [EvRead path (Some c)] |} = st1 /\
            trace st1.2 = trace st ++ [EvRead path (Some c)] ++ report /\
            (report = [] \/
             exists scan snap res,
               report = scan ++ [EvNotifyPortStatusChange_1_2 snap res] /\
               Forall is_query scan))
    as (report & [ports st1] & -> & Htr & Hrep).
  { destruct (negb _).
    - unfold bind at 1, modify_usb. simpl. unfold bind at 1.
      match goal with
      | |- context [getPortStatusHelper W false path ?s0] =>
          destruct (getPortStatusHelper_quiet W false path s0) as (d & E & Hd);
          destruct (getPortStatusHelper W false path s0) as [r st2]
      end.
      simpl in E. subst st2. eexists (d ++ [_]), _. split; [reflexivity|].
      simpl. split; [by rewrite <- !app_assoc|]. right. eauto.
    - eexists [], _. split; [reflexivity|]. simpl. split; [done|]. by left. }
  simpl in Htr.
  unfold bind at 1, pthread_mutex_trylock, ask at 1. simpl.
  destruct (w_trylock W (trace st1) mRoleSwitchLock).
  - unfold bind at 1.
    match goal with
    | |- context [drpDisconnected W ports ?s0] =>
        destruct (drpDisconnected_quiet W ports s0) as (d2 & E2 & Hd2);
        destruct (drpDisconnected W ports s0) as [u st4]
    end.
    simpl in E2. subst st4. simpl.
    exists [EvRead path (Some c)], report,
      ([EvTrylock mRoleSwitchLock true] ++ d2 ++ [EvUnlock mRoleSwitchLock]).
    rewrite Htr. split; [by rewrite <- !app_assoc|].
    split; [by repeat constructor|]. split; [done|]. right. right. eauto.
  - simpl. exists [EvRead path (Some c)], report, [EvTrylock mRoleSwitchLock false].
    rewrite Htr. split; [by rewrite <- !app_assoc|].
    split; [by repeat constructor|]. auto.
Qed.

(** X17. The locks that each entry point of the service takes, in order.
    switchRole takes mRoleSwitchLock first and holds it to the end; inside
    it takes and releases mPartnerLock (on the Mode axis only) and then
    mLock. queryPortStatus and setCallback take mLock alone. The typec
    uevent handler takes mPartnerLock alone for a partner that is added,
    and then mLock alone. The contaminant handler never waits for a lock:
    it only tries mRoleSwitchLock. So every entry point returns with all
    the locks it took released, and none ever asks for a lock while it
    holds mLock or mPartnerLock. *)
Theorem lock_scripts :
  (forall portName newRole st,
     ((bad_port_name (Str.c_str portName) \/ ~ is_axis (type newRole)) /\
      script (switchRole PORT_TYPE_TIMEOUT W portName newRole) st []) \/
     ((type newRole = DATA_ROLE \/ type newRole = POWER_ROLE) /\
      script (switchRole PORT_TYPE_TIMEOUT W portName newRole) st
        [EvLock mRoleSwitchLock; EvLock mLock; EvUnlock mLock;
         EvUnlock mRoleSwitchLock]) \/
     (type newRole = MODE /\
      script (switchRole PORT_TYPE_TIMEOUT W portName newRole) st
        [EvLock mRoleSwitchLock; EvLock mPartnerLock; EvUnlock mPartnerLock;
         EvLock mLock; EvUnlock mLock; EvUnlock mRoleSwitchLock])) /\
  (forall st, script (queryPortStatus W) st [EvLock mLock; EvUnlock mLock]) /\
  (forall msg st,
     script (handle_typec_uevent W msg) st
       ((if partner_added msg
         then [EvLock mPartnerLock; EvUnlock mPartnerLock] else []) ++
        [EvLock mLock; EvUnlock mLock])) /\
  (forall msg st,
     script (handle_psy_uevent W msg) st [] \/
     script (handle_psy_uevent W msg) st [EvTrylock mRoleSwitchLock false] \/
     script (handle_psy_uevent W msg) st
       [EvTrylock mRoleSwitchLock true; EvUnlock mRoleSwitchLock]) /\
  (forall (wake : M bool) (host : M unit) cb st,
     traces lock_free wake -> traces lock_free host ->
     script (setCallback W wake host cb) st [EvLock mLock; EvUnlock mLock]).
Proof.
  split; [|split; [|split; [|split]]].
  - intros portName newRole st. unfold script.
    destruct (String.eqb (Str.c_str portName) ".." ||
              bool_decide (is_Some (Str.find_char "/" (Str.c_str portName)))) eqn:E.
    { left. assert (bad_port_name (Str.c_str portName)) by (by apply bad_port_name_check).
      split; [by left|].
      destruct (switch_refused PORT_TYPE_TIMEOUT W portName newRole st) as [_ ->];
        [by left|].
      exists []. by rewrite app_nil_r. }
    assert (Hgood : ~ bad_port_name (Str.c_str portName)).
    { intros H%bad_port_name_check. congruence. }
    destruct (type newRole) eqn:Hty.
    + right. left. split; [by left|].
      rewrite (switchRole_direct PORT_TYPE_TIMEOUT W portName newRole st Hgood)
        by tauto.
      eexists. split; [reflexivity|]. unfold notification.
      destruct (w_write _ _ _ _), (mCallback_1_0 (usb st)); done.
    + right. left. split; [by right|].
      rewrite (switchRole_direct PORT_TYPE_TIMEOUT W portName newRole st Hgood)
        by tauto.
      eexists. split; [reflexivity|]. unfold notification.
      destruct (w_write _ _ _ _), (mCallback_1_0 (usb st)); done.
    + right. right. split; [done|].
      destruct (switchRole_mode_trace PORT_TYPE_TIMEOUT W portName newRole st Hgood Hty)
        as (pre & pre' & f & ok & d & fb & r & Hpre & Hpre' & Hf & Hd & Hfb & ->).
      eexists. split; [reflexivity|].
      destruct Hpre as [a ->], Hpre' as [a' ->].
      assert (locks fb = []) as Hlfb.
      { destruct r; [by subst fb|]. by destruct Hfb as (? & ? & ? & -> & _). }
      assert (locks d = []) as Hld.
      { apply locks_free. eapply Forall_impl; [exact Hd|apply is_wait_lock_free]. }
      rewrite !locks_app, Hlfb, Hld. unfold notification.
      by destruct (mCallback_1_0 (usb st)).
    + left. assert (~ is_axis (PortRoleType_other raw))
        by (intros [?|[?|?]]; congruence).
      split; [by right|].
      destruct (switch_refused PORT_TYPE_TIMEOUT W portName newRole st) as [_ ->];
        [right; by rewrite Hty|].
      exists []. by rewrite app_nil_r.
  - apply queryPortStatus_script.
  - intros msg st. rewrite handle_typec_uevent_parts.
    apply script_bind; [apply partner_part_script|]. intros _.
    apply (script_bind _ _ [] _).
    + apply script_traces. eapply traces_weaken; [apply is_sysfs_lock_free|].
      apply power_part_sysfs.
    + intros _. apply queryPortStatus_script.
  - intros msg st.
    destruct (handle_psy_uevent_shape msg st)
      as (reading & report & tail & E & Hq & Hrep & Htail).
    assert (locks reading = []) as Hl1.
    { apply locks_free. eapply Forall_impl; [exact Hq|apply is_query_lock_free]. }
    assert (locks report = []) as Hl2.
    { destruct Hrep as [->|(scan & snap & res & -> & Hs)]; [done|].
      rewrite locks_app, (locks_free scan); [done|].
      eapply Forall_impl; [exact Hs|apply is_query_lock_free]. }
    destruct Htail as [->|[->|(drp & -> & Hdrp)]].
    + left. eexists. split; [exact E|]. by rewrite !locks_app, Hl1, Hl2.
    + right. left. eexists. split; [exact E|]. by rewrite !locks_app, Hl1, Hl2.
    + right. right. eexists. split; [exact E|].
      rewrite !locks_app, Hl1, Hl2, (locks_free drp); [done|].
      eapply Forall_impl; [exact Hdrp|apply is_sysfs_lock_free].
  - intros wake host cb st Hwake Hhost. revert st.
    unfold setCallback, pthread_mutex_lock, pthread_mutex_unlock,
      store_mCallback_1_0, pthread_kill, pthread_create, pthread_join, access_R_OK.
    apply (script_bind _ _ [EvLock mLock] [EvUnlock mLock]);
      [intros st; apply script_emit|]. intros _.
    apply (script_bind _ _ [] [EvUnlock mLock]);
      [apply script_traces, quiet_traces, quiet_get_usb|]. intros u.
    assert (Hstore : forall c st,
              script (modify_usb (set_mCallback_1_0 c) >> emit (EvStoreCallback c))
                st []).
    { intros c. apply (script_bind _ _ [] []).
      - apply script_traces, traces_modify_usb.
      - intros _ st. apply script_emit. }
    assert (Hfree : forall A (m : M A), traces lock_free m ->
              forall st, script m st []) by (intros; by apply script_traces).
    destruct (mCallback_1_0 u), cb.
    + apply (script_bind _ _ [] [EvUnlock mLock]); [apply Hstore|].
      intros _ st. apply script_emit.
    + apply (script_bind _ _ [] [EvUnlock mLock]); [apply Hstore|]. intros _.
      apply (script_bind _ _ [EvUnlock mLock] []); [intros st; apply script_emit|].
      intros _. apply (script_bind _ _ [] []).
      * apply Hfree. by apply traces_ask.
      * intros [|] st; [apply script_emit|apply script_ret].
    + apply (script_bind _ _ [] [EvUnlock mLock]); [apply Hstore|]. intros _.
      apply (script_bind _ _ [] [EvUnlock mLock]); [intros st; apply script_emit|].
      intros _.
      apply (script_bind _ _ [] [EvUnlock mLock]); [intros st; apply script_emit|].
      intros _.
      apply (script_bind _ _ [] [EvUnlock mLock]);
        [apply Hfree; by apply traces_ask|]. intros created.
      apply (script_bind _ _ [] [EvUnlock mLock]).
      { destruct (negb created); [apply Hstore|intros st; apply script_ret]. }
      intros _.
      apply (script_bind _ _ [EvUnlock mLock] []); [intros st; apply script_emit|].
      intros _. apply Hfree.
      apply traces_bind; [done|]. intros ignoreWakeup.
      apply traces_bind; [apply traces_modify_usb|]. intros _.
      apply traces_bind; [done|]. intros _.
      apply traces_bind; [by apply traces_ask|]. intros [|];
        [apply traces_modify_usb|].
      apply traces_bind; [by apply traces_ask|]. intros [|];
        [apply traces_modify_usb|].
      apply traces_bind; [by apply traces_ask|]. intros [|];
        apply traces_modify_usb.
    + apply (script_bind _ _ [] [EvUnlock mLock]); [apply Hstore|].
      intros _ st. apply script_emit.
Qed.

End Locking.

(** ** The contaminant handler *)

Section Contaminant.

Context {codes : RoleCodes}.
Variable W : World.

Lemma is_query_drp e : is_query e -> is_drp e.
Proof. by destruct e. Qed.

Lemma switchToDrp_drp name : quiet is_drp (switchToDrp W name).
Proof.
  unfold switchToDrp, WriteStringToFile. apply quiet_bind.
  - eapply quiet_weaken; [apply is_query_drp|apply appendRoleNodeHelper_quiet].
  - intros f. apply quiet_bind; [by apply quiet_ask|]. intros _. apply quiet_ret.
Qed.

Lemma drpDisconnected_drp ports : quiet is_drp (drpDisconnected W ports).
Proof.
  induction ports as [|p ports IH]; simpl; [apply quiet_ret|].
  apply quiet_bind; [by apply quiet_ask|]. intros dp.
  apply quiet_bind; [|done].
  destruct dp; [apply quiet_ret|apply switchToDrp_drp].
Qed.

(** X18. What the contaminant handler does with a reading of the status,
    in three steps. It reads the status file, once. If the reading
    differs from the recorded presence it records it, scans the ports and
    sends the callback the snapshot that the scan returned, holding no
    lock; if it does not differ it sends nothing. At last it tries the
    role switch lock, without waiting for it: when it does not get the
    lock that is all, and when it gets it, it runs the fallback to dual
    role over the ports of the snapshot (looking at sysfs and writing
    "dual", and nothing at all when the status has not changed) and
    releases the lock. *)
Theorem contaminant_handler_in_three_steps msg st c :
  mCallback_1_0 (usb st) = Some Callback_V1_2 ->
  psy_is_usb msg = true ->
  mContaminantStatusPath (usb st) <> "" ->
  w_read W (trace st) (mContaminantStatusPath (usb st)) = Some c ->
  let path := mContaminantStatusPath (usb st) in
  let moisture := Ascii.eqb (Str.front c) "1" in
  let changed := negb (Bool.eqb (mContaminantPresence (usb st)) moisture) in
  let u' := if changed then set_mContaminantPresence moisture (usb st) else usb st in
  let st1 := {| usb := u'; clock := clock st; wakes := wakes st;
                trace := trace st ++ [EvRead path (Some c)] |} in
  exists report ports,
    (if changed
     then exists scan res,
            (getPortStatusHelper W false path st1).1 = (res, ports) /\
            trace (getPortStatusHelper W false path st1).2 = trace st1 ++ scan /\
            Forall is_query scan /\
            report = scan ++ [EvNotifyPortStatusChange_1_2 ports res]
     else report = [] /\ ports = []) /\
    let before := trace st1 ++ report in
    if w_trylock W before mRoleSwitchLock then
      let st2 := {| usb := u'; clock := clock st; wakes := wakes st;
                    trace := before ++ [EvTrylock mRoleSwitchLock true] |} in
      exists drp,
        trace (drpDisconnected W ports st2).2 = trace st2 ++ drp /\
        Forall is_drp drp /\
        (changed = false -> drp = []) /\
        handle_psy_uevent W msg st =
          (tt, {| usb := u'; clock := clock st; wakes := wakes st;
                  trace := before ++ [EvTrylock mRoleSwitchLock true] ++ drp ++
                           [EvUnlock mRoleSwitchLock] |})
    else
      handle_psy_uevent W msg st =
        (tt, {| usb := u'; clock := clock st; wakes := wakes st;
                trace := before ++ [EvTrylock mRoleSwitchLock false] |}).
Proof.
  intros Hcb Husb Hpath Hread path moisture changed u' st1.
  assert (Hp : String.eqb (mContaminantStatusPath (usb st)) "" = false)
    by (by apply String.eqb_neq).
  subst changed u' st1 path.
  unfold handle_psy_uevent, pthread_mutex_trylock, pthread_mutex_unlock, bind, get_usb,
    ReadFileToString, ask, modify_usb, emit, ret.
  rewrite Hcb, Husb. simpl. rewrite Hp, Hread. fold moisture.
  destruct (Bool.eqb (mContaminantPresence (usb st)) moisture); simpl.
  - exists [], []. split; [done|]. rewrite !app_nil_r.
    destruct (w_trylock W _ mRoleSwitchLock); simpl; [|done].
    exists []. rewrite !app_nil_r. repeat split; try done.
    by rewrite <- !app_assoc.
  - set (st1 := {| usb := set_mContaminantPresence moisture (usb st);
                   clock := clock st; wakes := wakes st;
                   trace := trace st ++
                     [EvRead (mContaminantStatusPath (usb st)) (Some c)] |}).
    destruct (getPortStatusHelper_quiet W false (mContaminantStatusPath (usb st)) st1)
      as (scan & E & Hscan).
    destruct (getPortStatusHelper W false (mContaminantStatusPath (usb st)) st1)
      as [[res ports] st3].
    simpl in E. subst st3. simpl.
    exists (scan ++ [EvNotifyPortStatusChange_1_2 ports res]), ports.
    split; [by exists scan, res|].
    rewrite <- !app_assoc. simpl.
    destruct (w_trylock W _ mRoleSwitchLock); simpl; [|by rewrite <- ?app_assoc].
    match goal with
    | |- context [drpDisconnected W ports ?s0] =>
        destruct (drpDisconnected_drp ports s0) as (drp & E2 & Hdrp);
        destruct (drpDisconnected W ports s0) as [u st4]
    end.
    simpl in E2. subst st4. exists drp. simpl.
    split; [done|]. split; [done|]. split; [done|].
    do 2 f_equal. repeat (rewrite <- app_assoc; simpl). done.
Qed.

(** X19. The contaminant handler leaves everything as it is, and touches
    no file, unless a callback of version 1.2 is registered, the uevent
    is for the usb supply, and a contaminant status path is configured.
    When the status cannot be read, the failed read is all it does. *)
Theorem contaminant_uevent_ignored msg st :
  (mCallback_1_0 (usb st) <> Some Callback_V1_2 \/ psy_is_usb msg = false \/
   mContaminantStatusPath (usb st) = "" ->
   handle_psy_uevent W msg st = (tt, st)) /\
  (mCallback_1_0 (usb st) = Some Callback_V1_2 -> psy_is_usb msg = true ->
   mContaminantStatusPath (usb st) <> "" ->
   w_read W (trace st) (mContaminantStatusPath (usb st)) = None ->
   handle_psy_uevent W msg st =
     (tt, log [EvRead (mContaminantStatusPath (usb st)) None] st)).
Proof.
  split.
  - intros H. unfold handle_psy_uevent, bind at 1, get_usb.
    destruct (mCallback_1_0 (usb st)) as [[| |]|]; try done.
    destruct H as [?|[->| ->]]; [done|done|].
    by destruct (negb (psy_is_usb msg)).
  - intros Hcb Husb Hpath Hread.
    unfold handle_psy_uevent, bind, get_usb, ReadFileToString, ask.
    rewrite Hcb, Husb. simpl.
    destruct (String.eqb_spec (mContaminantStatusPath (usb st)) ""); [done|].
    by rewrite Hread.
Qed.

End Contaminant.

(** ** The worker thread *)

Lemma workers_app a b : workers (a ++ b) = workers a ++ workers b.
Proof. apply omap_app. Qed.

Lemma plays_app r l1 l2 :
  plays r (l1 ++ l2) = plays r l1 ≫= fun r' => plays r' l2.
Proof.
  revert r. induction l1 as [|b l1 IH]; intros r; [done|]. simpl.
  destruct (Bool.eqb b r); [done|]. apply IH.
Qed.

Section Worker.

Variable W : World.
Variable wakeup : M bool.
Variable host : M unit.
Hypothesis wakeup_probe : is_probe_run wakeup.
Hypothesis host_probe : is_probe_run host.

(** The first registration, in terms of what follows the unlock. *)
Lemma setCallback_first new st :
  mCallback_1_0 (usb st) = None ->
  setCallback W wakeup host (Some new) st =
    (pthread_mutex_lock mLock >>
     store_mCallback_1_0 (Some new) >>
     emit (EvStoreDestroyThread false) >>
     emit EvSignalHandler >>
     let* created := pthread_create W in
     (if negb created then store_mCallback_1_0 None else ret tt) >>
     pthread_mutex_unlock mLock >>
     probe_platform W wakeup host) st.
Proof.
  intros Hcb. unfold setCallback, bind at 1, pthread_mutex_lock, emit at 1.
  unfold bind at 1, get_usb. simpl. rewrite Hcb.
  unfold bind at 5, emit at 3. unfold bind at 5. reflexivity.
Qed.

Lemma probe_platform_step st st' :
  (probe_platform W wakeup host st).2 = st' ->
  mCallback_1_0 (usb st') = mCallback_1_0 (usb st) /\
  exists d, trace st' = trace st ++ d /\ workers d = [].
Proof.
  unfold probe_platform. unfold bind at 1.
  destruct (wakeup_probe st) as (Hc2 & d2 & Ht2 & Hw2).
  destruct (wakeup st) as [ignoreWakeup st2].
  simpl in Hc2, Ht2. unfold bind at 1, modify_usb at 1. simpl. unfold bind at 1.
  match goal with
  | |- context [host ?s0] =>
      destruct (host_probe s0) as (Hc3 & d3 & Ht3 & Hw3);
      destruct (host s0) as [[] st3]
  end.
  simpl in Hc3, Ht3.
  assert (Hend : forall d4 u,
            workers d4 = [] -> mCallback_1_0 u = mCallback_1_0 (usb st3) ->
            mCallback_1_0 u = mCallback_1_0 (usb st) /\
            exists d, trace st3 ++ d4 = trace st ++ d /\ workers d = []).
  { intros d4 u Hw4 Hu. split; [by rewrite Hu, Hc3, Hc2|].
    exists (d2 ++ d3 ++ d4). rewrite Ht3, Ht2. split; [by rewrite <- !app_assoc|].
    by rewrite !workers_app, Hw2, Hw3, Hw4. }
  unfold access_R_OK, bind, ask, modify_usb. simpl.
  destruct (w_readable W (trace st3) _); simpl; [intros <-; by apply Hend|].
  destruct (w_readable W _ _); simpl;
    [intros <-; simpl; rewrite <- !app_assoc; by apply Hend|].
  destruct (w_readable W _ _); simpl; intros <-; simpl; rewrite <- !app_assoc;
    by apply Hend.
Qed.

(** What one call of [setCallback] does to the callback and the worker. *)
Lemma setCallback_step cb st st' :
  (setCallback W wakeup host cb st).2 = st' ->
  exists d,
    trace st' = trace st ++ d /\
    match mCallback_1_0 (usb st), cb with
    | None, Some _ =>
        (workers d = [true] /\ mCallback_1_0 (usb st') = cb) \/
        (workers d = [] /\ mCallback_1_0 (usb st') = None /\
         EvPthreadCreate false ∈ d)
    | Some _, None => workers d = [false] /\ mCallback_1_0 (usb st') = None
    | _, _ => workers d = [] /\ mCallback_1_0 (usb st') = cb
    end.
Proof.
  destruct (mCallback_1_0 (usb st)) as [old|] eqn:Hold, cb as [new|].
  - unfold setCallback, bind at 1, pthread_mutex_lock, emit at 1.
    unfold bind at 1, get_usb. simpl. rewrite Hold.
    unfold store_mCallback_1_0, pthread_mutex_unlock, bind, modify_usb, emit.
    simpl. intros <-. simpl. eexists. split; [by rewrite <- !app_assoc|]. done.
  - unfold setCallback, bind at 1, pthread_mutex_lock, emit at 1.
    unfold bind at 1, get_usb. simpl. rewrite Hold.
    unfold store_mCallback_1_0, pthread_mutex_unlock, pthread_kill, pthread_join,
      bind, modify_usb, emit, ask, ret. simpl.
    destruct (w_pthread_kill W _); intros <-; eexists; simpl;
      (split; [by rewrite <- !app_assoc|]); done.
  - rewrite (setCallback_first new st Hold).
    unfold pthread_mutex_lock, store_mCallback_1_0, pthread_create,
      pthread_mutex_unlock.
    unfold bind at 1, emit at 1. simpl.
    unfold bind at 1. unfold bind at 1, modify_usb at 1, emit at 1. simpl.
    unfold bind at 1, emit at 1. simpl. unfold bind at 1, emit at 1. simpl.
    unfold bind at 1, ask at 1. simpl.
    destruct (w_pthread_create W _); simpl.
    + unfold bind at 1, ret at 1. unfold bind at 1, emit at 1. simpl.
      match goal with
      | |- context [probe_platform _ _ _ ?s0] =>
          destruct (probe_platform_step s0 _ eq_refl) as (Hc & d & Ht & Hw)
      end.
      intros <-. simpl in Hc, Ht. eexists. rewrite Ht. simpl.
      split; [by rewrite <- !app_assoc|]. left.
      rewrite !workers_app, Hw. done.
    + unfold bind at 1. unfold bind at 1, modify_usb at 1, emit at 1. simpl.
      unfold bind at 1, emit at 1. simpl.
      match goal with
      | |- context [probe_platform _ _ _ ?s0] =>
          destruct (probe_platform_step s0 _ eq_refl) as (Hc & d & Ht & Hw)
      end.
      intros <-. simpl in Hc, Ht. eexists. rewrite Ht. simpl.
      split; [by rewrite <- !app_assoc|]. right.
      rewrite !workers_app, Hw. split; [done|]. split; [done|].
      simpl. do 4 apply list_elem_of_further. apply list_elem_of_here.
  - unfold setCallback, bind at 1, pthread_mutex_lock, emit at 1.
    unfold bind at 1, get_usb. simpl. rewrite Hold.
    unfold store_mCallback_1_0, pthread_mutex_unlock, bind, modify_usb, emit.
    simpl. intros <-. simpl. eexists. split; [by rewrite <- !app_assoc|]. done.
Qed.

Lemma setCallbacks_lifecycle cbs : forall st,
  plays false (workers (trace st)) =
    Some (bool_decide (is_Some (mCallback_1_0 (usb st)))) ->
  let st' := (setCallbacks W wakeup host cbs st).2 in
  plays false (workers (trace st')) =
    Some (bool_decide (is_Some (mCallback_1_0 (usb st')))).
Proof.
  induction cbs as [|cb cbs IH]; intros st Hst; [done|].
  simpl. unfold bind.
  destruct (setCallback_step cb st _ eq_refl) as (d & Htr & Hstep).
  destruct (setCallback W wakeup host cb st)
    as [[] st1].
  simpl in *. apply IH. rewrite Htr, workers_app, plays_app, Hst. simpl.
  destruct (mCallback_1_0 (usb st)) as [old|], cb as [new|]; simpl.
  - destruct Hstep as [-> ->]. done.
  - destruct Hstep as [-> ->]. done.
  - destruct Hstep as [[-> ->]|(-> & -> & _)]; done.
  - destruct Hstep as [-> ->]. done.
Qed.

(** X20. However callbacks are registered, replaced and unregistered, the
    worker thread is started only when none runs and signalled to stop
    only when one runs, so that no two workers ever run side by side; and
    after every call a worker runs exactly when a callback is registered.
    This holds from a state in which no callback is registered and no
    worker has been started, for probes of the platform that leave the
    callback and the worker alone. When the thread cannot be created the
    callback is dropped again, which keeps the two in step. *)
Theorem one_worker_while_registered cbs st :
  mCallback_1_0 (usb st) = None -> workers (trace st) = [] ->
  let st' := (setCallbacks W wakeup host cbs st).2 in
  plays false (workers (trace st')) =
    Some (bool_decide (is_Some (mCallback_1_0 (usb st')))).
Proof.
  intros Hcb Hw. apply setCallbacks_lifecycle. by rewrite Hcb, Hw.
Qed.

(** X21. What a single call of setCallback leaves registered: the
    callback it was given, except when that is the first one and the
    worker thread cannot be created, in which case none is registered
    although one was asked for. *)
Theorem setCallback_registers cb st :
  let st' := (setCallback W wakeup host cb st).2 in
  mCallback_1_0 (usb st') = cb \/
  (mCallback_1_0 (usb st) = None /\ is_Some cb /\
   mCallback_1_0 (usb st') = None /\
   exists d, trace st' = trace st ++ d /\ EvPthreadCreate false ∈ d).
Proof.
  intros st'. destruct (setCallback_step cb st st' eq_refl) as (d & Htr & Hstep).
  destruct (mCallback_1_0 (usb st)) as [old|], cb as [new|].
  - left. by destruct Hstep.
  - left. by destruct Hstep.
  - destruct Hstep as [[_ ->]|(_ & -> & Hin)]; [by left|right].
    split; [done|]. split; [done|]. split; [done|]. by exists d.
  - left. by destruct Hstep.
Qed.

End Worker.

(** ** Enabling contaminant presence detection and protection *)

Section Enable.

Context {codes : RoleCodes}.
Variable W : World.

Lemma callbackNotifyPortStatusChangeHelper_run st :
  callbackNotifyPortStatusChangeHelper W st =
    let res := getPortStatusHelper W false (mContaminantStatusPath (usb st))
                 (log [EvLock mLock] st) in
    match mCallback_1_0 (usb st) with
    | Some Callback_V1_2 =>
        (Some tt,
         log [EvNotifyPortStatusChange_1_2 res.1.2 res.1.1; EvUnlock mLock] res.2)
    | _ => (None, res.2)
    end.
Proof.
  unfold callbackNotifyPortStatusChangeHelper, bind, get_usb, pthread_mutex_lock,
    pthread_mutex_unlock, emit, ret, log. simpl.
  destruct (getPortStatusHelper W false _ _) as [r st1]. simpl.
  destruct (mCallback_1_0 (usb st)) as [[| |]|]; try done.
  simpl. by rewrite <- app_assoc.
Qed.

(** X22. With a callback of version 1.2 registered, enabling contaminant
    presence detection and enabling contaminant presence protection both
    do exactly what queryPortStatus does: they send the callback a fresh
    port status under mLock. The port name and the flag they are given
    play no part, so nothing is switched on or off, for any port. *)
Theorem enable_contaminant_reports_status portName enable st :
  mCallback_1_0 (usb st) = Some Callback_V1_2 ->
  enableContaminantPresenceDetection W portName enable st =
    (Some tt, (queryPortStatus W st).2) /\
  enableContaminantPresenceProtection W portName enable st =
    (Some tt, (queryPortStatus W st).2).
Proof.
  intros Hcb.
  unfold enableContaminantPresenceDetection, enableContaminantPresenceProtection.
  rewrite callbackNotifyPortStatusChangeHelper_run, queryPortStatus_run, Hcb.
  done.
Qed.

(** X23. Without a callback of version 1.2 (none registered, or one of
    version 1.0 or 1.1) the two calls take mLock, scan the ports, and then
    call through a null callback: they send no notification and do not
    get as far as releasing mLock. *)
Theorem enable_contaminant_without_v1_2_callback portName enable st :
  mCallback_1_0 (usb st) <> Some Callback_V1_2 ->
  exists scan,
    Forall is_query scan /\
    enableContaminantPresenceDetection W portName enable st =
      (None, log ([EvLock mLock] ++ scan) st) /\
    enableContaminantPresenceProtection W portName enable st =
      (None, log ([EvLock mLock] ++ scan) st).
Proof.
  intros Hcb.
  unfold enableContaminantPresenceDetection, enableContaminantPresenceProtection.
  rewrite callbackNotifyPortStatusChangeHelper_run. simpl.
  destruct (getPortStatusHelper_quiet W false (mContaminantStatusPath (usb st))
              (log [EvLock mLock] st)) as (scan & -> & Hq).
  exists scan. rewrite log_log. split; [done|].
  by destruct (mCallback_1_0 (usb st)) as [[| |]|].
Qed.

End Enable.

(** ** Autosuspend *)

Lemma hex_digit_hex_char d :
  0 <= d < 16 -> Stoi.hex_digit (hex_char d) = Some d.
Proof.
  intros H.
  assert (d = 0 \/ d = 1 \/ d = 2 \/ d = 3 \/ d = 4 \/ d = 5 \/ d = 6 \/ d = 7 \/
          d = 8 \/ d = 9 \/ d = 10 \/ d = 11 \/ d = 12 \/ d = 13 \/ d = 14 \/
          d = 15) as Hd by lia.
  repeat (destruct Hd as [->|Hd]; [reflexivity|]). by subst d.
Qed.

(** [std::stoi] in base 16 reads back what the kernel prints. *)
Lemma stoi16_bInterfaceClass_text c :
  0 <= c < 256 -> Stoi.stoi16 (bInterfaceClass_text c) = stoi_value c.
Proof.
  intros H.
  assert (exists h l, c = 16 * h + l /\ 0 <= h < 16 /\ 0 <= l < 16)
    as (h & l & -> & Hh & Hl).
  { exists (c / 16), (c mod 16). split; [apply Z.div_mod; lia|].
    split; [|apply Z.mod_pos_bound; lia].
    split; [apply Z.div_pos; lia|apply Z.div_lt_upper_bound; lia]. }
  unfold bInterfaceClass_text.
  replace ((16 * h + l) / 16) with h.
  2:{ apply Z.div_unique with (r := l); lia. }
  replace ((16 * h + l) mod 16) with l.
  2:{ apply Z.mod_unique with (q := h); lia. }
  assert (h = 0 \/ h = 1 \/ h = 2 \/ h = 3 \/ h = 4 \/ h = 5 \/ h = 6 \/ h = 7 \/
          h = 8 \/ h = 9 \/ h = 10 \/ h = 11 \/ h = 12 \/ h = 13 \/ h = 14 \/
          h = 15) as Hh' by lia.
  assert (l = 0 \/ l = 1 \/ l = 2 \/ l = 3 \/ l = 4 \/ l = 5 \/ l = 6 \/ l = 7 \/
          l = 8 \/ l = 9 \/ l = 10 \/ l = 11 \/ l = 12 \/ l = 13 \/ l = 14 \/
          l = 15) as Hl' by lia.
  clear H Hh Hl.
  repeat (destruct Hh' as [->|Hh']);
    try subst h;
    repeat (destruct Hl' as [->|Hl']); try subst l; vm_compute; reflexivity.
Qed.

Section AutosuspendFacts.

Variable W : World.
Variable USB_CLASS_AUDIO : Z.
Variable USB_CLASS_HUB : Z.

(** X24. Autosuspend is switched on for one product only. For the device
    at a path, checkUsbDeviceAutoSuspend reads idVendor and idProduct,
    once each, and writes "auto" to power/control and "enabled" to
    power/wakeup exactly when the two read, once trimmed, 18d1 and 5029;
    the second write follows whether or not the first went through. For
    any other device, or when one of the two files cannot be read, it
    writes nothing. *)
Theorem device_autosuspend_for_one_product devicePath st :
  let vendor := w_read W (trace st) (devicePath +:+ "/idVendor") in
  let st1 := log [EvRead (devicePath +:+ "/idVendor") vendor] st in
  let product := w_read W (trace st1) (devicePath +:+ "/idProduct") in
  let st' := (checkUsbDeviceAutoSuspend W devicePath st).2 in
  reads (trace st') =
    reads (trace st) ++ [devicePath +:+ "/idVendor"; devicePath +:+ "/idProduct"] /\
  writes (trace st') =
    writes (trace st) ++
    if String.eqb (Str.Trim (default "" vendor)) "18d1" &&
       String.eqb (Str.Trim (default "" product)) "5029"
    then [("auto", devicePath +:+ "/power/control");
          ("enabled", devicePath +:+ "/power/wakeup")]
    else [].
Proof.
  intros vendor st1 product st'. subst st'.
  unfold checkUsbDeviceAutoSuspend, canUsbDeviceAutoSuspend, canProductAutoSuspend,
    GOOGLE_USB_VENDOR_ID_STR, GOOGLE_USBC_35_ADAPTER_UNPLUGGED_ID_STR,
    bind, ReadFileToString, WriteStringToFile, ask, ret.
  cbn [fst snd trace usb clock wakes].
  fold vendor. change (trace st ++ [EvRead (devicePath +:+ "/idVendor") vendor])
    with (trace st1). fold product.
  destruct (String.eqb (Str.Trim (default "" vendor)) "18d1" &&
            String.eqb (Str.Trim (default "" product)) "5029");
    cbn [fst snd trace usb clock wakes]; subst st1; unfold log;
    cbn [fst snd trace usb clock wakes];
    rewrite ?reads_app, ?writes_app; simpl; by rewrite ?app_nil_r, <- ?app_assoc.
Qed.

Lemma read_bInterfaceClass_eq retry path st :
  read_bInterfaceClass W retry path st =
    let r := w_read W (trace st) path in
    let st1 := log [EvRead path r] st in
    match retry with
    | S (S n) =>
        if (String.length (default "" r) =? 0)%nat
        then read_bInterfaceClass W (S n) path st1
        else (default "" r, st1)
    | _ => (default "" r, st1)
    end.
Proof.
  destruct retry as [|[|n]]; try reflexivity.
  change (read_bInterfaceClass W (S (S n)) path st)
    with ((let* r := ReadFileToString W path in
           if (String.length (default "" r) =? 0)%nat
           then read_bInterfaceClass W (S n) path
           else ret (default "" r)) st).
  unfold bind, ReadFileToString, ask. cbn [fst snd trace].
  by destruct (String.length (default "" (w_read W (trace st) path)) =? 0)%nat.
Qed.

(** The loop reads the file at least once and at most [retry] times, and
    does nothing else; it reads it [retry] times when nothing is to be
    read. *)
Lemma read_bInterfaceClass_reads retry path : forall st res,
  read_bInterfaceClass W retry path st = res ->
  exists (n : nat) (d : list event),
    (1 <= n <= Nat.max 1 retry)%nat /\
    res.2 = log d st /\ reads d = replicate n path /\ writes d = [] /\
    ((forall tr, default "" (w_read W tr path) = "") ->
     n = Nat.max 1 retry /\ res.1 = "").
Proof.
  induction retry as [|retry IH]; intros st res <-.
  - exists 1%nat, [EvRead path (w_read W (trace st) path)].
    rewrite read_bInterfaceClass_eq. simpl.
    split; [lia|]. split; [done|]. split; [done|]. split; [done|].
    intros H. split; [done|]. apply H.
  - rewrite read_bInterfaceClass_eq. cbn zeta.
    set (r := w_read W (trace st) path).
    destruct retry as [|retry].
    + exists 1%nat, [EvRead path r]. simpl.
      split; [lia|]. split; [done|]. split; [done|]. split; [done|].
      intros H. split; [done|]. apply H.
    + destruct (Nat.eqb_spec (String.length (default "" r)) 0) as [He|Hne].
      * destruct (IH (log [EvRead path r] st) _ eq_refl)
          as (n & d & Hn & Hd & Hr & Hw & Hall).
        exists (S n), (EvRead path r :: d).
        split; [lia|]. rewrite Hd, log_log. split; [done|].
        split; [simpl; by rewrite Hr|]. split; [done|].
        intros H. destruct (Hall H) as [-> Hres]. split; [lia|done].
      * exists 1%nat, [EvRead path r]. simpl.
        split; [lia|]. split; [done|]. split; [done|]. split; [done|].
        intros H. exfalso. apply Hne. subst r. by rewrite H.
Qed.

(** X25. checkUsbInterfaceAutoSuspend goes by the class of the interface.
    When bInterfaceClass holds a class as the kernel prints it (two
    hexadecimal digits and a newline), the file is read once. For the
    classes AUDIO and HUB the function writes "auto" to power/control of
    the device and then, only if that went through, "enabled" to
    power/wakeup, and it returns whether both writes went through; for
    any other class it writes nothing and returns false. *)
Theorem interface_autosuspend_by_class devicePath intf st c :
  0 <= c < 256 ->
  let path := ((devicePath +:+ "/") +:+ intf) +:+ "/bInterfaceClass" in
  w_read W (trace st) path = Some (bInterfaceClass_text c) ->
  let res := checkUsbInterfaceAutoSuspend W USB_CLASS_AUDIO USB_CLASS_HUB
               devicePath intf st in
  let st1 := log [EvRead path (Some (bInterfaceClass_text c))] st in
  let control := devicePath +:+ "/power/control" in
  let wakeup := devicePath +:+ "/power/wakeup" in
  let ok1 := w_write W (trace st1) control "auto" in
  let st2 := log [EvWrite "auto" control ok1] st1 in
  let ok2 := w_write W (trace st2) wakeup "enabled" in
  res =
    if (c =? USB_CLASS_AUDIO) || (c =? USB_CLASS_HUB) then
      if ok1 then (inr ok2, log [EvWrite "enabled" wakeup ok2] st2)
      else (inr false, st2)
    else (inr false, st1).
Proof.
  intros Hc path Hread res st1 control wakeup ok1 st2 ok2. subst res.
  unfold checkUsbInterfaceAutoSuspend. fold path. unfold bind at 1.
  rewrite read_bInterfaceClass_eq. cbn zeta. rewrite Hread.
  change (default "" (Some (bInterfaceClass_text c))) with (bInterfaceClass_text c).
  change (String.length (bInterfaceClass_text c) =? 0)%nat with false.
  cbn iota.
  change (String.length (bInterfaceClass_text c) =? 0)%nat with false.
  cbn iota. fold st1. rewrite (stoi16_bInterfaceClass_text c Hc).
  destruct ((c =? USB_CLASS_AUDIO) || (c =? USB_CLASS_HUB)); [|done].
  unfold bind, WriteStringToFile, ask, ret. cbn [fst snd trace].
  fold control. fold ok1.
  destruct ok1 eqn:E; cbn [negb]; unfold st2, log; cbn [trace usb clock wakes];
    rewrite ?E; done.
Qed.

(** X26. The class of an interface is read at most three times, from the
    one file, and nothing is written on the way. When the file cannot be
    read, or is empty, each of the three times,
    checkUsbInterfaceAutoSuspend gives up: it returns false and has
    written nothing. *)
Theorem interface_class_is_read_three_times devicePath intf st :
  let path := ((devicePath +:+ "/") +:+ intf) +:+ "/bInterfaceClass" in
  (exists n : nat,
     (1 <= n <= 3)%nat /\
     reads (trace (read_bInterfaceClass W 3 path st).2) =
       reads (trace st) ++ replicate n path /\
     writes (trace (read_bInterfaceClass W 3 path st).2) = writes (trace st)) /\
  ((forall tr, default "" (w_read W tr path) = "") ->
   let res := checkUsbInterfaceAutoSuspend W USB_CLASS_AUDIO USB_CLASS_HUB
                devicePath intf st in
   res.1 = inr false /\
   reads (trace res.2) = reads (trace st) ++ [path; path; path] /\
   writes (trace res.2) = writes (trace st)).
Proof.
  intros path.
  destruct (read_bInterfaceClass_reads 3 path st _ eq_refl)
    as (n & d & Hn & Hd & Hr & Hw & Hall).
  split.
  - exists n. rewrite Hd. simpl. rewrite reads_app, writes_app, Hr, Hw.
    split; [lia|]. by rewrite app_nil_r.
  - intros H res. subst res. destruct (Hall H) as [-> Hres].
    assert (checkUsbInterfaceAutoSuspend W USB_CLASS_AUDIO USB_CLASS_HUB
              devicePath intf st = (inr false, log d st)) as ->.
    { unfold checkUsbInterfaceAutoSuspend. fold path. unfold bind at 1.
      destruct (read_bInterfaceClass W 3 path st) as [text st1].
      simpl in Hd, Hres. by subst text st1. }
    simpl. rewrite reads_app, writes_app, Hr, Hw. by rewrite app_nil_r.
Qed.

(** X27. A class that std::stoi cannot read is not caught. When
    bInterfaceClass holds a text that is not empty and, after its leading
    white space and sign, does not start with a hexadecimal digit (a lone
    newline, say), std::stoi throws invalid_argument and
    checkUsbInterfaceAutoSuspend is left by the exception, having written
    nothing. *)
Theorem interface_class_unreadable_throws devicePath intf st text :
  let path := ((devicePath +:+ "/") +:+ intf) +:+ "/bInterfaceClass" in
  w_read W (trace st) path = Some text ->
  text <> "" ->
  Stoi.digits (Stoi.skip_prefix (Stoi.sign (Str.ltrim text)).2) None = None ->
  checkUsbInterfaceAutoSuspend W USB_CLASS_AUDIO USB_CLASS_HUB devicePath intf st =
    (inl invalid_argument, log [EvRead path (Some text)] st).
Proof.
  intros path Hread Hne Hdigits.
  unfold checkUsbInterfaceAutoSuspend. fold path. unfold bind at 1.
  rewrite read_bInterfaceClass_eq. cbn zeta. rewrite Hread.
  change (default "" (Some text)) with text.
  destruct text as [|a text]; [done|].
  change (String.length (String a text) =? 0)%nat with false. cbn iota.
  unfold Stoi.stoi16.
  destruct (Stoi.sign (Str.ltrim (String a text))) as [negative body].
  simpl in Hdigits. by rewrite Hdigits.
Qed.

End AutosuspendFacts.

(** ** The probes of the platform *)

Section ProbeFacts.

Variable W : World.
Variable USB_CLASS_AUDIO : Z.
Variable USB_CLASS_HUB : Z.
Variable realpath : string -> option string.

Lemma host_controller_listed_spec entries :
  host_controller_listed entries = true <->
  exists e, e ∈ entries /\ is_Some (Str.find "xhci-hcd" (d_name e)).
Proof.
  induction entries as [|x entries IH]; simpl.
  - split; [done|]. by intros (e & ?%elem_of_nil & _).
  - unfold strstr. destruct (bool_decide_reflect (is_Some (Str.find "xhci-hcd" (d_name x))))
      as [Hx|Hx].
    + split; [|done]. intros _. exists x. split; [apply list_elem_of_here|done].
    + rewrite IH. split.
      * intros (e & Hin & He). exists e. split; [by apply list_elem_of_further|done].
      * intros (e & [->|Hin]%elem_of_cons & He); [done|]. by exists e.
Qed.

Lemma checkUsbInHostMode_run p st :
  let gadgetName :=
    "/sys/bus/platform/devices/" +:+ GetProperty USB_CONTROLLER_PROP "" p in
  let listing := w_opendir W (trace st) gadgetName in
  checkUsbInHostMode W p st =
    (SetProperty VENDOR_USB_ADB_DISABLED_PROP
       (if match listing with
           | Some entries => host_controller_listed entries
           | None => false
           end
        then "1" else "0") p,
     log [EvOpendir gadgetName listing] st).
Proof.
  intros gadgetName listing. unfold checkUsbInHostMode. fold gadgetName.
  unfold bind, opendir, ask. cbn [fst snd trace]. fold listing.
  destruct listing as [entries|]; [|done].
  by destruct (host_controller_listed entries).
Qed.

(** X28. checkUsbInHostMode sets vendor.sys.usb.adb.disabled, and nothing
    else, from one listing of the directory of the USB controller (the
    platform device named by vendor.usb.controller): to "1" exactly when
    the directory can be opened and has an entry with xhci-hcd in its
    name, and to "0" in every other case. *)
Theorem host_mode_disables_adb p st :
  let gadgetName :=
    "/sys/bus/platform/devices/" +:+ GetProperty USB_CONTROLLER_PROP "" p in
  let listing := w_opendir W (trace st) gadgetName in
  let p' := (checkUsbInHostMode W p st).1 in
  (checkUsbInHostMode W p st).2 = log [EvOpendir gadgetName listing] st /\
  (p' !! VENDOR_USB_ADB_DISABLED_PROP = Some "1" <->
   exists entries e,
     listing = Some entries /\ e ∈ entries /\
     is_Some (Str.find "xhci-hcd" (d_name e))) /\
  (p' !! VENDOR_USB_ADB_DISABLED_PROP = Some "1" \/
   p' !! VENDOR_USB_ADB_DISABLED_PROP = Some "0") /\
  (forall key, key <> VENDOR_USB_ADB_DISABLED_PROP -> p' !! key = p !! key).
Proof.
  intros gadgetName listing p'. subst p'. rewrite checkUsbInHostMode_run.
  cbn zeta. fold gadgetName. fold listing. cbn [fst snd]. unfold SetProperty.
  rewrite lookup_insert_eq. split; [done|]. split; [|split].
  - destruct listing as [entries|].
    + pose proof (host_controller_listed_spec entries) as Hspec.
      destruct (host_controller_listed entries).
      * split; [|done]. intros _. destruct (proj1 Hspec eq_refl) as (e & ? & ?).
        by exists entries, e.
      * split; [done|]. intros (entries' & e & [= <-] & Hin & He).
        assert (false = true) by (apply Hspec; by exists e). done.
    + split; [done|]. by intros (entries' & e & ? & _).
  - destruct (match listing with Some _ => _ | None => _ end); auto.
  - intros key Hkey. by rewrite lookup_insert_ne.
Qed.

Lemma scan_controllers_first platdevices pre e post st :
  Forall (fun x => Str.find "susb" (d_name x) = None) pre ->
  is_Some (Str.find "susb" (d_name e)) ->
  scan_controllers W platdevices (pre ++ e :: post) st =
    let wakeup := platdevices +:+ (d_name e +:+ "/power/wakeup") in
    (negb (w_access W (trace st) wakeup),
     log [EvAccess wakeup (w_access W (trace st) wakeup)] st).
Proof.
  intros Hpre He. induction Hpre as [|x pre Hx _ IH]; simpl.
  - unfold strstr. rewrite bool_decide_eq_true_2 by done.
    unfold bind, access, ask, ret. simpl.
    by destruct (w_access W (trace st) _).
  - unfold strstr at 1. rewrite bool_decide_eq_false_2; [done|].
    rewrite Hx. by intros [? ?].
Qed.

Lemma scan_controllers_none platdevices entries st :
  Forall (fun x => Str.find "susb" (d_name x) = None) entries ->
  scan_controllers W platdevices entries st = (true, st).
Proof.
  induction 1 as [|x entries Hx _ IH]; simpl; [done|].
  unfold strstr. rewrite bool_decide_eq_false_2; [done|].
  rewrite Hx. by intros [? ?].
Qed.

Lemma read_bInterfaceClass_sysfs retry path :
  quiet is_sysfs (read_bInterfaceClass W retry path).
Proof.
  intros st.
  destruct (read_bInterfaceClass_reads W retry path st _ eq_refl)
    as (n & d & _ & Hd & Hr & _).
  revert st d n Hd Hr. induction retry as [|retry IH]; intros st d n.
  - rewrite read_bInterfaceClass_eq. simpl. intros _ _.
    eexists [_]. split; [done|]. by repeat constructor.
  - rewrite read_bInterfaceClass_eq. cbn zeta. intros _ _.
    destruct retry as [|retry].
    + eexists [_]. split; [done|]. by repeat constructor.
    + destruct (String.length _ =? 0)%nat.
      * destruct (read_bInterfaceClass_reads W (S retry) path
                    (log [EvRead path (w_read W (trace st) path)] st) _ eq_refl)
          as (n' & d' & _ & Hd' & Hr' & _).
        destruct (IH _ d' n' Hd' Hr') as (d2 & E2 & H2).
        exists (EvRead path (w_read W (trace st) path) :: d2).
        rewrite E2, log_log. split; [done|]. by constructor.
      * eexists [_]. split; [done|]. by repeat constructor.
Qed.

Lemma checkUsbInterfaceAutoSuspend_sysfs devicePath intf :
  quiet is_sysfs
    (checkUsbInterfaceAutoSuspend W USB_CLASS_AUDIO USB_CLASS_HUB devicePath intf).
Proof.
  unfold checkUsbInterfaceAutoSuspend, WriteStringToFile.
  apply quiet_bind; [apply read_bInterfaceClass_sysfs|]. intros text.
  destruct (String.length text =? 0)%nat; [apply quiet_ret|].
  destruct (Stoi.stoi16 text); try apply quiet_ret.
  destruct (_ || _); [|apply quiet_ret].
  apply quiet_bind; [by apply quiet_ask|]. intros ok.
  destruct (negb ok); [apply quiet_ret|].
  apply quiet_bind; [by apply quiet_ask|]. intros ok'. apply quiet_ret.
Qed.

Lemma scan_interfaces_sysfs buf intfs :
  quiet is_sysfs (scan_interfaces W USB_CLASS_AUDIO USB_CLASS_HUB buf intfs).
Proof.
  induction intfs as [|intfDir intfs IH]; simpl; [apply quiet_ret|].
  destruct (_ && _); [|done].
  apply quiet_bind; [apply checkUsbInterfaceAutoSuspend_sysfs|].
  intros [e|[|]]; [apply quiet_ret..|done].
Qed.

Lemma scan_devices_sysfs usbdevices devices :
  quiet is_sysfs
    (scan_devices W USB_CLASS_AUDIO USB_CLASS_HUB realpath usbdevices devices).
Proof.
  induction devices as [|deviceDir devices IH]; simpl; [apply quiet_ret|].
  apply quiet_bind.
  - destruct (_ && _); [|apply quiet_ret].
    destruct (realpath _) as [buf|]; [|apply quiet_ret].
    apply quiet_bind; [by apply quiet_ask|].
    intros [intfs|]; [apply scan_interfaces_sysfs|apply quiet_ret].
  - intros [e|[]]; [apply quiet_ret|done].
Qed.

(** What is left of [checkUsbWakeupSupport] once wakeup is found to be
    supported. *)
Lemma scan_usb_devices st :
  exists d,
    ((let* dp := opendir W "/sys/bus/usb/devices/" in
      match dp with
      | Some devices =>
          let* r := scan_devices W USB_CLASS_AUDIO USB_CLASS_HUB realpath
                      "/sys/bus/usb/devices/" devices in
          match r with
          | inl e => ret (inl e)
          | inr _ => ret (inr false)
          end
      | None => ret (inr false)
      end) st).2 = log d st /\
    Forall is_sysfs d /\
    ((let* dp := opendir W "/sys/bus/usb/devices/" in
      match dp with
      | Some devices =>
          let* r := scan_devices W USB_CLASS_AUDIO USB_CLASS_HUB realpath
                      "/sys/bus/usb/devices/" devices in
          match r with
          | inl e => ret (inl e)
          | inr _ => ret (inr false)
          end
      | None => ret (inr false)
      end) st).1 <> inr true.
Proof.
  unfold bind at 1 3, opendir, ask. cbn [fst snd trace].
  destruct (w_opendir W (trace st) "/sys/bus/usb/devices/") as [devices|].
  - unfold bind.
    match goal with
    | |- context [scan_devices W _ _ _ _ _ ?s0] =>
        destruct (scan_devices_sysfs "/sys/bus/usb/devices/" devices s0)
          as (d & E & Hd);
        destruct (scan_devices W USB_CLASS_AUDIO USB_CLASS_HUB realpath
                    "/sys/bus/usb/devices/" devices s0) as [r st2]
    end.
    simpl in E. subst st2.
    exists (EvOpendir "/sys/bus/usb/devices/" (Some devices) :: d).
    destruct r as [e|[]];
      (split; [unfold log; simpl; by rewrite <- app_assoc|]);
      (split; [by constructor|]); done.
  - eexists [_]. split; [done|]. split; [by repeat constructor|done].
Qed.

(** X29. Whether wakeup is supported is decided by the first USB
    controller alone. checkUsbWakeupSupport lists /sys/bus/platform/devices
    and stops at the first entry with susb in its name: it asks for the
    power/wakeup node of that one, and of no other. It returns true (wakeup
    is to be ignored) when that node is missing, when no entry has susb in
    its name, and when the directory cannot be opened; in these cases it
    does not look at any USB device, and writes nothing. When the node is
    there it goes on to the USB devices, touching nothing but sysfs, and
    does not return true. *)
Theorem wakeup_support_by_first_controller st :
  let platdevices := "/sys/bus/platform/devices/" in
  let listing := w_opendir W (trace st) platdevices in
  let st1 := log [EvOpendir platdevices listing] st in
  let res := checkUsbWakeupSupport W USB_CLASS_AUDIO USB_CLASS_HUB realpath st in
  (forall entries pre e post,
     listing = Some entries -> entries = pre ++ e :: post ->
     Forall (fun x => Str.find "susb" (d_name x) = None) pre ->
     is_Some (Str.find "susb" (d_name e)) ->
     let wakeup := platdevices +:+ (d_name e +:+ "/power/wakeup") in
     if w_access W (trace st1) wakeup
     then exists d, res.2 = log (EvAccess wakeup true :: d) st1 /\
                    Forall is_sysfs d /\ res.1 <> inr true
     else res = (inr true, log [EvAccess wakeup false] st1)) /\
  (listing = None \/
   (exists entries, listing = Some entries /\
      Forall (fun x => Str.find "susb" (d_name x) = None) entries) ->
   res = (inr true, st1)).
Proof.
  intros platdevices listing st1 res.
  assert (Hrun : res =
            let ig := match listing with
                      | Some entries => scan_controllers W platdevices entries st1
                      | None => (true, st1)
                      end in
            if ig.1 then (inr true, ig.2)
            else (let* dp := opendir W "/sys/bus/usb/devices/" in
                  match dp with
                  | Some devices =>
                      let* r := scan_devices W USB_CLASS_AUDIO USB_CLASS_HUB realpath
                                  "/sys/bus/usb/devices/" devices in
                      match r with
                      | inl e => ret (inl e)
                      | inr _ => ret (inr false)
                      end
                  | None => ret (inr false)
                  end) ig.2).
  { subst res. unfold checkUsbWakeupSupport. fold platdevices.
    unfold bind at 1, opendir at 1, ask at 1. cbn [fst snd trace]. fold listing.
    unfold bind at 1. subst st1. unfold log.
    destruct listing as [entries|]; [|done].
    by destruct (scan_controllers W platdevices entries _) as [[|] st2]. }
  clearbody res. subst res. split.
  - intros entries pre e post Hl -> Hpre He wakeup. rewrite Hl.
    rewrite (scan_controllers_first platdevices pre e post st1) by done.
    cbn zeta. fold wakeup. destruct (w_access W (trace st1) wakeup); [|done].
    cbn [negb fst snd].
    destruct (scan_usb_devices (log [EvAccess wakeup true] st1))
      as (d & E & Hd & Hres).
    exists d. rewrite E, log_log. done.
  - intros [Hl|(entries & Hl & Hall)]; rewrite Hl; [done|].
    by rewrite scan_controllers_none.
Qed.

End ProbeFacts.

(** ** A typec uevent ends in a status report *)

Section TypecReport.

Context {codes : RoleCodes}.
Variable W : World.

Lemma power_part_callback st st' :
  (power_part W st).2 = st' ->
  mCallback_1_0 (usb st') = mCallback_1_0 (usb st) /\
  exists d, trace st' = trace st ++ d /\ Forall is_sysfs d.
Proof.
  intros <-. split.
  - unfold power_part, bind, ReadFileToString, WriteStringToFile, ask, get_usb,
      modify_usb, ret. simpl.
    destruct (w_read W (trace st) power_operation_mode_path) as [c|]; [|done].
    simpl. destruct (String.eqb _ _); [done|].
    destruct (String.eqb _ _); [done|]. by destruct (negb _).
  - apply power_part_sysfs.
Qed.

Lemma partner_part_callback msg st :
  mCallback_1_0 (usb (partner_part msg st).2) = mCallback_1_0 (usb st).
Proof.
  destruct (partner_part_run msg st) as (d & -> & _). simpl.
  by destruct (partner_added msg).
Qed.

(** X30. Every typec uevent ends in a report. Whatever the uevent is, and
    whether or not the power operation mode can be read, the handler ends
    with queryPortStatus: with a callback registered, the last thing it
    does before it releases mLock is to send that callback one port status
    notification of its version, and it sends no other notification; with
    none registered it sends nothing. *)
Theorem typec_uevent_ends_in_a_report msg st :
  exists before scan report,
    trace (handle_typec_uevent W msg st).2 =
      trace st ++ before ++ [EvLock mLock] ++ scan ++ report ++ [EvUnlock mLock] /\
    Forall (fun e => ~ is_notification e) (before ++ scan) /\
    match mCallback_1_0 (usb st) with
    | Some cb => exists n, report = [n] /\ is_port_notification cb n
    | None => report = []
    end.
Proof.
  rewrite handle_typec_uevent_state.
  set (st1 := (partner_part msg st).2).
  destruct (power_part_callback st1 _ eq_refl) as (Hcb2 & d2 & Ht2 & Hd2).
  set (st2 := (power_part W st1).2) in *.
  assert (Hcb : mCallback_1_0 (usb st2) = mCallback_1_0 (usb st)).
  { rewrite Hcb2. apply partner_part_callback. }
  destruct (partner_part_run msg st) as (d1 & Ht1 & Hd1). fold st1 in Ht1.
  assert (Forall (fun e => ~ is_notification e) (d1 ++ d2)) as Hbefore.
  { apply Forall_app. split.
    - subst d1. destruct (partner_added msg); repeat constructor; by intros [].
    - eapply Forall_impl; [exact Hd2|].
      intros e He Hn. destruct e; simpl in *; tauto. }
  destruct (queryPortStatus_log W st2) as (scan & notif & E & Hq & Hn).
  exists (d1 ++ d2), scan, notif. rewrite E, Hcb in *. split; [|split].
  - simpl. rewrite Ht2, Ht1. simpl. by rewrite <- !app_assoc.
  - rewrite Forall_app. split; [done|].
    eapply Forall_impl; [exact Hq|].
    intros e He Hn'. destruct e; simpl in *; tauto.
  - destruct (mCallback_1_0 (usb st)) as [cb|]; [done|]. by destruct Hn.
Qed.

End TypecReport.

(** ** The further properties at concrete inputs *)

(** X1 on the data role node of a port that acts as a device. *)
Lemma extractRole_bracketed_witness :
  extractRole ("host " +:+ "[" +:+ "device" +:+ "]" +:+ "") = "device".
Proof.
  apply (extractRole_bracketed "host " "device" "");
    reflexivity.
Defined.

(** X2 on a text whose brackets are the wrong way round. *)
Lemma extractRole_without_pair_witness : extractRole "sink] [source" = "source".
Proof.
  refine (proj2 (extractRole_without_pair "sink] [source" _) "sink" " " "source" _ _ _ _);
    reflexivity.
Defined.

(** X3 on a uevent of the battery that names the usb supply later on. *)
Lemma psy_is_usb_first_key_witness :
  psy_is_usb (["ACTION=change"; "SUBSYSTEM=power_supply"] ++
              (POWER_SUPPLY_NAME +:+ "battery") :: ["POWER_SUPPLY_NAME=usb"; ""]) =
    String.eqb "battery" "usb".
Proof.
  refine (proj1 (psy_is_usb_first_key ["ACTION=change"; "SUBSYSTEM=power_supply"] _)
            "battery" ["POWER_SUPPLY_NAME=usb"; ""]).
  repeat (apply List.Forall_cons; [split; [discriminate|reflexivity]|]).
  apply List.Forall_nil.
Defined.

(** X7 on the entry of port1, which has no partner. *)
Lemma snapshot_capabilities_witness :
  exists connected,
    (getTypeCPortNamesHelper two_port_world (state0 (Some Callback_V1_2) [])).1
      !! entry_name (entry_of "port1" two_port_snapshot) = Some connected /\
    capabilities (codes := aosp_codes) false connected
      (entry_of "port1" two_port_snapshot).
Proof.
  apply (snapshot_capabilities (codes := aosp_codes) two_port_world false ""
           (state0 (Some Callback_V1_2) []) two_port_snapshot
           (entry_of "port1" two_port_snapshot)).
  - vm_compute. reflexivity.
  - vm_compute. first [apply list_elem_of_here | apply list_elem_of_further, list_elem_of_here].
Defined.

(** X8 on the entry of port0 while moisture is detected. *)
Lemma contaminant_reported_on_port0_only_witness :
  contaminant_report (codes := aosp_codes) false moisture_path
    (entry_of "port0" moist_snapshot) /\
  (contaminantDetectionStatus (entry_of "port0" moist_snapshot) = DETECTED ->
   false = false /\ entry_name (entry_of "port0" moist_snapshot) = "port0" /\
   moisture_path <> "").
Proof.
  apply (contaminant_reported_on_port0_only (codes := aosp_codes) moist_world false
           moisture_path state_dry moist_snapshot (entry_of "port0" moist_snapshot)).
  - vm_compute. reflexivity.
  - vm_compute. apply list_elem_of_here.
Defined.

(** X10 on the board with two ports and a callback of version 1.1. *)
Lemma v1_1_callback_is_not_told_the_mode_witness :
  exists scan ports result,
    trace (queryPortStatus (codes := aosp_codes) two_port_world
             (state0 (Some Callback_V1_1) [])).2 =
      trace (state0 (Some Callback_V1_1) []) ++ [EvLock mLock] ++ scan ++
      [EvNotifyPortStatusChange_1_1 ports result; EvUnlock mLock] /\
    Forall is_query scan /\
    Forall (fun p => supportedModes_1_1 p = 0 /\ currentMode_1_1 p = 0) ports /\
    (result = SUCCESS ->
     Forall (fun p => currentMode (status p) = @PortMode_NONE aosp_codes /\
                      supportedModes (status p) = @PortMode_NONE aosp_codes)
            ports).
Proof.
  exact (v1_1_callback_is_not_told_the_mode (codes := aosp_codes) two_port_world
           (state0 (Some Callback_V1_1) []) eq_refl).
Defined.

(** X11 on the data role node of port1, which shows device as the active
    role. *)
Lemma role_read_back_inverts_write_witness :
  getCurrentRoleHelper (codes := aosp_codes) readback_world "port1" true DATA_ROLE 0
    (state0 None []) =
    ((SUCCESS, 2),
     log [EvRead "/sys/class/typec/port1/data_role" (Some "host [device]")]
       (state0 None [])).
Proof.
  refine (role_read_back_inverts_write (codes := aosp_codes) readback_world "port1"
            data_device 0 (state0 None []) "host [device]" port1_good _ _ _ _).
  - left. reflexivity.
  - right. left. split; [reflexivity|right; reflexivity].
  - reflexivity.
  - reflexivity.
Defined.

(** X12 on port0 after a switch to DFP: the answer is the number of
    PortPowerRole::SOURCE, 1, and not that of PortMode_1_1::DFP, 2. *)
Lemma mode_read_back_gives_power_role_witness :
  getCurrentRoleHelper (codes := aosp_codes) sourcing_world "port0" true MODE 0
    (state0 None []) =
    ((SUCCESS, 1),
     log [EvRead "/sys/class/typec/port0/port_type" (Some "dual [source] sink")]
       (log [EvAccess "/sys/class/typec/port0/port_type" true]
          (log [EvRead "/sys/class/typec/port0-partner/accessory_mode" (Some "none")]
             (state0 None [])))).
Proof.
  refine (mode_read_back_gives_power_role (codes := aosp_codes) sourcing_world "port0"
            mode_dfp 0 (state0 None []) "none" "dual [source] sink" port0_good
            _ _ _ _ _ _ _).
  - reflexivity.
  - right. right. split; [reflexivity|right; reflexivity].
  - reflexivity.
  - vm_compute. discriminate.
  - vm_compute. discriminate.
  - reflexivity.
  - reflexivity.
Defined.

(** X14 on a port that negotiates power delivery and then falls back to
    the default mode: 500 and 0x80 are put back. *)
Lemma gadget_power_saved_and_restored_witness :
  let st1 := (handle_typec_uevent (codes := aosp_codes) power_delivery_world
                "change@/devices/platform/soc/a600000.ssusb/typec/port0"
                (state0 None [])).2 in
  let st2 := (handle_typec_uevent (codes := aosp_codes) default_power_world
                "change@/devices/platform/soc/a600000.ssusb/typec/port0" st1).2 in
  writes (trace st1) =
    writes (trace (state0 None [])) ++
    [("0", MaxPower_path); ("0xc0", bmAttributes_path)] /\
  writes (trace st2) =
    writes (trace st1) ++ [("500", MaxPower_path); ("0x80", bmAttributes_path)] /\
  mPowerOpMode (usb st2) = Str.Trim ("default" +:+ newline) /\ mMaxPower (usb st2) = "".
Proof.
  refine (gadget_power_saved_and_restored (codes := aosp_codes)
            power_delivery_world default_power_world
            "change@/devices/platform/soc/a600000.ssusb/typec/port0"
            "change@/devices/platform/soc/a600000.ssusb/typec/port0"
            (state0 None []) ("usb_power_delivery" +:+ newline) ("default" +:+ newline)
            "500" "0x80" _ _ _ _ _ _ _ _).
  - intros tr. reflexivity.
  - intros tr. reflexivity.
  - intros tr. reflexivity.
  - intros tr. reflexivity.
  - reflexivity.
  - vm_compute. discriminate.
  - discriminate.
  - discriminate.
Defined.

(** X15 on a board whose power operation mode cannot be read. *)
Lemma unchanged_power_mode_writes_nothing_witness :
  let st := state0 None [] in
  let st' := (handle_typec_uevent (codes := aosp_codes) accepting_world
                "change@/devices/platform/soc/a600000.ssusb/typec/port0" st).2 in
  writes (trace st') = writes (trace st) /\
  mPowerOpMode (usb st') = mPowerOpMode (usb st) /\
  mMaxPower (usb st') = mMaxPower (usb st) /\
  mAttributes (usb st') = mAttributes (usb st).
Proof.
  refine (unchanged_power_mode_writes_nothing (codes := aosp_codes) accepting_world
            "change@/devices/platform/soc/a600000.ssusb/typec/port0"
            (state0 None []) _).
  left. reflexivity.
Defined.

(** X18 on the first uevent after moisture appears, with the role switch
    lock free. *)
Lemma contaminant_handler_in_three_steps_witness :
  let W := moist_world in
  let st := state_dry in
  let msg := ["POWER_SUPPLY_NAME=usb"; ""] in
  let u' := set_mContaminantPresence true (usb st) in
  let st1 := {| usb := u'; clock := clock st; wakes := wakes st;
                trace := trace st ++ [EvRead moisture_path (Some "1")] |} in
  exists report ports,
    (exists scan res,
       (getPortStatusHelper (codes := aosp_codes) W false moisture_path st1).1 =
         (res, ports) /\
       trace (getPortStatusHelper (codes := aosp_codes) W false moisture_path st1).2 =
         trace st1 ++ scan /\
       Forall is_query scan /\
       report = scan ++ [EvNotifyPortStatusChange_1_2 ports res]) /\
    exists drp,
      trace (drpDisconnected W ports
               {| usb := u'; clock := clock st; wakes := wakes st;
                  trace := (trace st1 ++ report) ++
                           [EvTrylock mRoleSwitchLock true] |}).2 =
        ((trace st1 ++ report) ++ [EvTrylock mRoleSwitchLock true]) ++ drp /\
      Forall is_drp drp /\
      (true = false -> drp = []) /\
      handle_psy_uevent (codes := aosp_codes) W msg st =
        (tt, {| usb := u'; clock := clock st; wakes := wakes st;
                trace := (trace st1 ++ report) ++
                         [EvTrylock mRoleSwitchLock true] ++ drp ++
                         [EvUnlock mRoleSwitchLock] |}).
Proof.
  refine (contaminant_handler_in_three_steps (codes := aosp_codes) moist_world
            ["POWER_SUPPLY_NAME=usb"; ""] state_dry "1" eq_refl eq_refl _ eq_refl).
  discriminate.
Defined.

(** The two probes on a board where neither directory can be opened. *)
Lemma wakeup_probe_run_is_probe : is_probe_run wakeup_probe_run.
Proof.
  intros st. split; [reflexivity|].
  eexists. split; [reflexivity|reflexivity].
Qed.

Lemma host_probe_run_is_probe : is_probe_run host_probe_run.
Proof.
  intros st. split; [reflexivity|].
  eexists. split; [reflexivity|reflexivity].
Qed.

(** X20 on a callback that is registered, replaced, dropped and registered
    again. *)
Lemma one_worker_while_registered_witness :
  let st' := (setCallbacks accepting_world wakeup_probe_run host_probe_run
                [Some Callback_V1_2; Some Callback_V1_0; None; Some Callback_V1_1]
                (state0 None [])).2 in
  plays false (workers (trace st')) =
    Some (bool_decide (is_Some (mCallback_1_0 (usb st')))).
Proof.
  exact (one_worker_while_registered accepting_world wakeup_probe_run host_probe_run
           wakeup_probe_run_is_probe host_probe_run_is_probe
           [Some Callback_V1_2; Some Callback_V1_0; None; Some Callback_V1_1]
           (state0 None []) eq_refl eq_refl).
Defined.

(** X21 on a board where no thread can be created. *)
Lemma setCallback_registers_witness :
  let st := state0 None [] in
  let st' := (setCallback threadless_world wakeup_probe_run host_probe_run
                (Some Callback_V1_0) st).2 in
  mCallback_1_0 (usb st') = Some Callback_V1_0 \/
  (mCallback_1_0 (usb st) = None /\ is_Some (Some Callback_V1_0) /\
   mCallback_1_0 (usb st') = None /\
   exists d, trace st' = trace st ++ d /\ EvPthreadCreate false ∈ d).
Proof.
  exact (setCallback_registers threadless_world wakeup_probe_run host_probe_run
           wakeup_probe_run_is_probe host_probe_run_is_probe
           (Some Callback_V1_0) (state0 None [])).
Defined.

(** X22 on the board with two ports. *)
Lemma enable_contaminant_reports_status_witness :
  let st := state0 (Some Callback_V1_2) [] in
  enableContaminantPresenceDetection (codes := aosp_codes) two_port_world "port0" true st =
    (Some tt, (queryPortStatus (codes := aosp_codes) two_port_world st).2) /\
  enableContaminantPresenceProtection (codes := aosp_codes) two_port_world "port0" true st =
    (Some tt, (queryPortStatus (codes := aosp_codes) two_port_world st).2).
Proof.
  exact (enable_contaminant_reports_status (codes := aosp_codes) two_port_world
           "port0" true (state0 (Some Callback_V1_2) []) eq_refl).
Defined.

(** X23 on a service with no callback registered. *)
Lemma enable_contaminant_without_v1_2_callback_witness :
  let st := state0 None [] in
  exists scan,
    Forall is_query scan /\
    enableContaminantPresenceDetection (codes := aosp_codes) two_port_world "port0" true st =
      (None, log ([EvLock mLock] ++ scan) st) /\
    enableContaminantPresenceProtection (codes := aosp_codes) two_port_world "port0" true st =
      (None, log ([EvLock mLock] ++ scan) st).
Proof.
  refine (enable_contaminant_without_v1_2_callback (codes := aosp_codes) two_port_world
            "port0" true (state0 None []) _).
  discriminate.
Defined.

(** X25 on an audio interface, with the class numbers of linux/usb/ch9.h
    (USB_CLASS_AUDIO = 1, USB_CLASS_HUB = 9). *)
Lemma interface_autosuspend_by_class_witness :
  checkUsbInterfaceAutoSuspend (interface_world ("01" +:+ newline)) 1 9
    "/sys/bus/usb/devices/1-1" "1-1:1.0" (state0 None []) =
    (inr true,
     log [EvWrite "enabled" "/sys/bus/usb/devices/1-1/power/wakeup" true]
       (log [EvWrite "auto" "/sys/bus/usb/devices/1-1/power/control" true]
          (log [EvRead "/sys/bus/usb/devices/1-1/1-1:1.0/bInterfaceClass"
                  (Some ("01" +:+ newline))]
             (state0 None [])))).
Proof.
  refine (interface_autosuspend_by_class (interface_world ("01" +:+ newline)) 1 9
            "/sys/bus/usb/devices/1-1" "1-1:1.0" (state0 None []) 1 _ _).
  - lia.
  - reflexivity.
Defined.

(** X27 on an interface whose class file holds a lone newline. *)
Lemma interface_class_unreadable_throws_witness :
  checkUsbInterfaceAutoSuspend (interface_world newline) 1 9
    "/sys/bus/usb/devices/1-1" "1-1:1.0" (state0 None []) =
    (inl invalid_argument,
     log [EvRead "/sys/bus/usb/devices/1-1/1-1:1.0/bInterfaceClass" (Some newline)]
       (state0 None [])).
Proof.
  refine (interface_class_unreadable_throws (interface_world newline) 1 9
            "/sys/bus/usb/devices/1-1" "1-1:1.0" (state0 None []) newline _ _ _).
  - reflexivity.
  - discriminate.
  - reflexivity.
Defined.
